(** * A shallow embedding of [filesystem.py]

    The development follows the layout of the Python module:

    - [posixpath] and [pathlib]: the string-level path functions of the
      standard library that the module calls ([os.path.join],
      [os.path.dirname], [os.path.splitext], [Path(...)], [str(path)],
      [Path.name], [Path.parts]), on the POSIX flavour;
    - [Disk]: the native filesystem as a tree of directories and files,
      with the system calls the module performs;
    - the Python objects ([SysObj], [Folder], [File], [JSON]) as records
      in a store addressed by reference, and the module-level state
      [runtime_properties];
    - the methods of the classes as programs of a state-and-exception
      monad. *)

From Stdlib Require Import String Ascii ZArith List Lia.
From stdpp Require Import base option list strings gmap.

Local Open Scope string_scope.
Local Open Scope list_scope.

(** ** Strings of Python *)

Module pystr.

(** [s.startswith(c)] for a one-character [c]. *)
Definition startswith (c : ascii) (s : string) : bool :=
  match s with
  | String a _ => bool_decide (a = c)
  | EmptyString => false
  end.

(** [s.endswith(c)] for a one-character [c]. *)
Fixpoint endswith (c : ascii) (s : string) : bool :=
  match s with
  | EmptyString => false
  | String a EmptyString => bool_decide (a = c)
  | String _ r => endswith c r
  end.

(** [c in s]. *)
Fixpoint contains (c : ascii) (s : string) : bool :=
  match s with
  | EmptyString => false
  | String a r => bool_decide (a = c) || contains c r
  end.

(** [s[1:]]. *)
Definition drop1 (s : string) : string :=
  match s with
  | String _ r => r
  | EmptyString => EmptyString
  end.

(** [s.split(c)]: never empty, the pieces contain no [c]. *)
Fixpoint split (c : ascii) (s : string) : list string :=
  match s with
  | EmptyString => [EmptyString]
  | String a r =>
      if bool_decide (a = c) then EmptyString :: split c r
      else match split c r with
           | h :: t => String a h :: t
           | [] => [String a EmptyString]
           end
  end.

(** [c.join(l)]. *)
Fixpoint join (c : ascii) (l : list string) : string :=
  match l with
  | [] => EmptyString
  | [x] => x
  | x :: r => x +:+ String c (join c r)
  end.

(** [s == c * len(s)]. *)
Fixpoint all_eq (c : ascii) (s : string) : bool :=
  match s with
  | EmptyString => true
  | String a r => bool_decide (a = c) && all_eq c r
  end.

(** [s.rstrip(c)]. *)
Fixpoint rstrip (c : ascii) (s : string) : string :=
  match s with
  | EmptyString => EmptyString
  | String a r =>
      match rstrip c r with
      | EmptyString => if bool_decide (a = c) then EmptyString else String a EmptyString
      | r' => String a r'
      end
  end.

(** [s[:s.rfind(c) + 1]]: the prefix of [s] up to and including the
    last [c], empty when [c] does not occur. *)
Fixpoint upto_last (c : ascii) (s : string) : string :=
  match s with
  | EmptyString => EmptyString
  | String a r =>
      if contains c r then String a (upto_last c r)
      else if bool_decide (a = c) then String a EmptyString
      else EmptyString
  end.

(** [s[s.rfind(c) + 1:]]: what follows the last [c]. *)
Fixpoint after_last (c : ascii) (s : string) : string :=
  match s with
  | EmptyString => EmptyString
  | String a r =>
      if contains c r then after_last c r
      else if bool_decide (a = c) then r
      else s
  end.

End pystr.

(** ** [posixpath] *)

Module posixpath.

Definition sep : ascii := "/"%char.
Definition extsep : ascii := "."%char.

(** [os.path.join(a, b)]. *)
Definition join (a b : string) : string :=
  if pystr.startswith sep b then b
  else if bool_decide (a = "") || pystr.endswith sep a then a +:+ b
  else a +:+ String sep b.

(** [os.path.dirname(p)]. *)
Definition dirname (p : string) : string :=
  let head := pystr.upto_last sep p in
  if negb (bool_decide (head = "")) && negb (pystr.all_eq sep head)
  then pystr.rstrip sep head
  else head.

(** [os.path.splitroot(p)], without the drive, which is always empty:
    one leading slash or three and more are the root ["/"], exactly
    two are the root ["//"]. *)
Definition splitroot (p : string) : string * string :=
  match p with
  | String "/" (String "/" (String "/" r)) => ("/", String "/" (String "/" r))
  | String "/" (String "/" r) => ("//", r)
  | String "/" r => ("/", r)
  | _ => ("", p)
  end.

(** The loop of [genericpath._splitext] that skips the leading dots of
    the file name: whether a character other than a dot stands before
    the last dot. *)
Fixpoint has_nondot_before_last_dot (s : string) : bool :=
  match s with
  | EmptyString => false
  | String a r =>
      if pystr.contains extsep r
      then negb (bool_decide (a = extsep)) || has_nondot_before_last_dot r
      else false
  end.

(** The second component of [os.path.splitext(p)] for a [p] without
    separator (a file name). *)
Definition splitext_ext (p : string) : string :=
  if has_nondot_before_last_dot p
  then String extsep (pystr.after_last extsep p)
  else "".

End posixpath.

(** ** [pathlib] (POSIX flavour) *)

Module pathlib.

(** A path object: its root ([""], ["/"] or ["//"]) and the names
    after it ([_tail] in CPython). *)
Record Path : Type := mkPath { anchor : string; names : list string }.

#[global] Instance Path_eq_dec : EqDecision Path.
Proof. solve_decision. Defined.

(** [Path(s)]. *)
Definition of_str (s : string) : Path :=
  let '(r, rel) := posixpath.splitroot s in
  mkPath r (filter (λ x, x ≠ "" ∧ x ≠ ".") (pystr.split posixpath.sep rel)).

(** [str(p)]. *)
Definition to_str (p : Path) : string :=
  let s := anchor p +:+ pystr.join posixpath.sep (names p) in
  if bool_decide (s = "") then "." else s.

(** [p.parts]. *)
Definition parts (p : Path) : list string :=
  ((if bool_decide (anchor p = "") then [] else [anchor p]) ++ names p)%list.

(** [p.name]. *)
Definition name (p : Path) : string := default "" (last (names p)).

(** [p.is_absolute()]. *)
Definition is_absolute (p : Path) : bool := negb (bool_decide (anchor p = "")).

(** The paths that [Path(...)] can produce: a root among the three,
    and names that are neither empty nor ["."] and hold no slash. *)
Definition valid_name (x : string) : Prop :=
  x ≠ "" ∧ x ≠ "." ∧ pystr.contains posixpath.sep x = false.

Definition wf (p : Path) : Prop :=
  (anchor p = "" ∨ anchor p = "/" ∨ anchor p = "//") ∧ Forall valid_name (names p).

#[global] Instance valid_name_dec x : Decision (valid_name x).
Proof. unfold valid_name. apply _. Defined.

#[global] Instance wf_dec p : Decision (wf p).
Proof. unfold wf. apply _. Defined.

End pathlib.

Export pathlib(Path, mkPath, anchor, names).

(** ** Exceptions and results *)

(** The exception classes the module and the system calls raise. *)
Inductive exn : Type :=
  | AssertionError (msg : string)
  | FileNotFoundError
  | FileExistsError
  | NotADirectoryError
  | IsADirectoryError
  | PermissionError (msg : string)
  | NotImplementedError
  | AttributeError
  | ArgumentError
  | OSError (errno : string).

Inductive result (A : Type) : Type :=
  | Ok (a : A)
  | Raise (e : exn).
Arguments Ok {A} a.
Arguments Raise {A} e.

#[global] Instance exn_eq_dec : EqDecision exn.
Proof. solve_decision. Defined.

(** ** The native filesystem *)

Module Disk.

(** A file carries its attribute word (the Windows file attributes)
    and its contents; a directory its attribute word and its entries. *)
#[warnings="-register-all"] Inductive node : Type :=
  | File (attrs : Z) (data : string)
  | Dir (attrs : Z) (entries : gmap string node).

Definition is_dir_node (n : node) : bool :=
  match n with Dir _ _ => true | File _ _ => false end.

Definition attrs_of (n : node) : Z :=
  match n with Dir a _ | File a _ => a end.

Definition set_attrs (a : Z) (n : node) : node :=
  match n with Dir _ m => Dir a m | File _ d => File a d end.

(** The node at a canonical path (a list of names from the root
    directory). *)
Fixpoint find (t : node) (p : list string) : option node :=
  match p with
  | [] => Some t
  | s :: r =>
      match t with
      | Dir _ m => match m !! s with Some c => find c r | None => None end
      | File _ _ => None
      end
  end.

(** Apply [f] to the node at [p]; nothing changes when there is none. *)
Fixpoint alter_at (f : node → node) (p : list string) (t : node) : node :=
  match p with
  | [] => f t
  | s :: r =>
      match t with
      | Dir a m => Dir a (alter (alter_at f r) s m)
      | File _ _ => t
      end
  end.

(** Set ([Some]) or remove ([None]) the entry [s] of the directory at
    [parent]. *)
Definition set_entry (parent : list string) (s : string) (v : option node)
    (t : node) : node :=
  alter_at (λ d, match d with
                 | Dir a m => Dir a (partial_alter (λ _, v) s m)
                 | File _ _ => d
                 end) parent t.

(** Remove every entry of the directory at [p]. *)
Definition clear_dir (p : list string) (t : node) : node :=
  alter_at (λ d, match d with Dir a _ => Dir a ∅ | File _ _ => d end) p t.

(** A canonical path split into its directory and its last name. *)
Definition split_last (p : list string) : option (list string * string) :=
  match last p with
  | Some s => Some (removelast p, s)
  | None => None
  end.

(** The disk as a process sees it: the tree and the working directory
    of the process, a canonical path, or [None] once that directory was
    removed (the kernel then refuses every relative path). *)
Record disk : Type := mkDisk { tree : node; cwd : option (list string) }.

(** Path resolution as the kernel does it, name by name from [cur]:
    each directory on the way must exist, [".."] steps to the parent
    (the root is its own parent). The last name need not exist. There
    are no symbolic links. *)
Fixpoint walk (t : node) (cur : list string) (segs : list string)
    : result (list string) :=
  match segs with
  | [] => Ok cur
  | s :: r =>
      match find t cur with
      | None => Raise FileNotFoundError
      | Some (File _ _) => Raise NotADirectoryError
      | Some (Dir _ _) =>
          walk t (if bool_decide (s = "..") then removelast cur else (cur ++ [s])%list) r
      end
  end.

(** The canonical path a path object denotes. *)
Definition resolve (d : disk) (p : Path) : result (list string) :=
  if pathlib.is_absolute p then walk (tree d) [] (names p)
  else match cwd d with
       | Some c => walk (tree d) c (names p)
       | None => Raise FileNotFoundError
       end.

(** Whether the last component of a path is an ordinary name: not
    [".."], and not missing as in ["."] and ["/"]. The kernel refuses
    to rename or remove through the others. *)
Definition last_is_normal (p : Path) : bool :=
  match last (names p) with
  | Some s => negb (bool_decide (s = ".."))
  | None => false
  end.

(** The working directory after the directory at [c] lost its entries
    ([strict]) or was removed itself. *)
Definition cwd_after_removal (strict : bool) (c : list string)
    (w : option (list string)) : option (list string) :=
  match w with
  | Some x =>
      if bool_decide (c `prefix_of` x) && negb (strict && bool_decide (x = c))
      then None else Some x
  | None => None
  end.

(** The working directory after [cs] was renamed to [cd]: it moves with
    the renamed directory, and dies with a replaced one. *)
Definition cwd_after_rename (cs cd : list string)
    (w : option (list string)) : option (list string) :=
  match w with
  | Some x =>
      if bool_decide (cs `prefix_of` x) then Some (cd ++ drop (length cs) x)%list
      else if bool_decide (x = cd) then None
      else Some x
  | None => None
  end.

(** [stat]: the canonical path and the node. *)
Definition stat (d : disk) (p : Path) : result (list string * node) :=
  match resolve d p with
  | Raise e => Raise e
  | Ok c => match find (tree d) c with
            | Some n => Ok (c, n)
            | None => Raise FileNotFoundError
            end
  end.

(** [mkdir(p)]. *)
Definition mkdir (d : disk) (p : Path) : result disk :=
  match resolve d p with
  | Raise e => Raise e
  | Ok c =>
      match find (tree d) c, split_last c with
      | Some _, _ => Raise FileExistsError
      | None, Some (dir, s) =>
          match find (tree d) dir with
          | Some (Dir _ _) =>
              Ok (mkDisk (set_entry dir s (Some (Dir 0 ∅)) (tree d)) (cwd d))
          | Some (File _ _) => Raise NotADirectoryError
          | None => Raise FileNotFoundError
          end
      | None, None => Raise FileExistsError
      end
  end.

(** [open(p, 'w')] followed by [close()]: creates an empty file or
    truncates the one that is there. *)
Definition create_truncate (d : disk) (p : Path) : result disk :=
  match resolve d p with
  | Raise e => Raise e
  | Ok c =>
      match find (tree d) c, split_last c with
      | Some (Dir _ _), _ => Raise IsADirectoryError
      | Some (File a _), Some (dir, s) =>
          Ok (mkDisk (set_entry dir s (Some (File a "")) (tree d)) (cwd d))
      | None, Some (dir, s) =>
          match find (tree d) dir with
          | Some (Dir _ _) =>
              Ok (mkDisk (set_entry dir s (Some (File 0 "")) (tree d)) (cwd d))
          | Some (File _ _) => Raise NotADirectoryError
          | None => Raise FileNotFoundError
          end
      | _, None => Raise IsADirectoryError
      end
  end.

(** [unlink(p)], which is [os.remove]. *)
Definition unlink (d : disk) (p : Path) : result disk :=
  match resolve d p with
  | Raise e => Raise e
  | Ok c =>
      match find (tree d) c, split_last c with
      | None, _ => Raise FileNotFoundError
      | Some (Dir _ _), _ => Raise IsADirectoryError
      | Some (File _ _), Some (dir, s) => Ok (mkDisk (set_entry dir s None (tree d)) (cwd d))
      | Some (File _ _), None => Raise IsADirectoryError
      end
  end.

(** [rmdir(p)]. *)
Definition rmdir (d : disk) (p : Path) : result disk :=
  match resolve d p with
  | Raise e => Raise e
  | Ok c =>
      match find (tree d) c with
      | None => Raise FileNotFoundError
      | Some (File _ _) => Raise NotADirectoryError
      | Some (Dir _ m) =>
          if negb (bool_decide (m = ∅)) then Raise (OSError "ENOTEMPTY")
          else if negb (last_is_normal p) then Raise (OSError "EBUSY")
          else match split_last c with
               | Some (dir, s) =>
                   Ok (mkDisk (set_entry dir s None (tree d))
                              (cwd_after_removal false c (cwd d)))
               | None => Raise (OSError "EBUSY")
               end
      end
  end.

(** [shutil.rmtree(p)]: the tree below the directory is removed, then
    the directory itself with [rmdir(p)]. What was removed stays
    removed when the last step fails, so the disk is returned beside
    the result. *)
Definition rmtree (d : disk) (p : Path) : result unit * disk :=
  match resolve d p with
  | Raise e => (Raise e, d)
  | Ok c =>
      match find (tree d) c with
      | None => (Raise FileNotFoundError, d)
      | Some (File _ _) => (Raise NotADirectoryError, d)
      | Some (Dir _ _) =>
          let d1 := mkDisk (clear_dir c (tree d)) (cwd_after_removal true c (cwd d)) in
          match rmdir d1 p with
          | Ok d2 => (Ok tt, d2)
          | Raise e => (Raise e, d1)
          end
      end
  end.

(** [os.listdir(p)]. *)
Definition listdir (d : disk) (p : Path) : result (list string) :=
  match stat d p with
  | Raise e => Raise e
  | Ok (_, File _ _) => Raise NotADirectoryError
  | Ok (_, Dir _ m) => Ok (map_to_list m).*1
  end.

(** [os.path.samefile(a, b)]: both are looked up, and they are the
    same file when they are the same node of the tree. *)
Definition samefile (d : disk) (a b : Path) : result bool :=
  match stat d a with
  | Raise e => Raise e
  | Ok (ca, _) =>
      match stat d b with
      | Raise e => Raise e
      | Ok (cb, _) => Ok (bool_decide (ca = cb))
      end
  end.

(** [rename(src, dst)] on POSIX. An existing [dst] is replaced
    silently when it is a file and [src] is one, or an empty directory
    and [src] is a directory. *)
Definition rename (d : disk) (src dst : string) : result disk :=
  if bool_decide (src = "") || bool_decide (dst = "") then Raise FileNotFoundError
  else
    let ps := pathlib.of_str src in
    let pd := pathlib.of_str dst in
    match stat d ps with
    | Raise e => Raise e
    | Ok (cs, ns) =>
        if negb (last_is_normal ps) then Raise (OSError "EBUSY") else
        match resolve d pd with
        | Raise e => Raise e
        | Ok cd =>
            if negb (last_is_normal pd) then Raise (OSError "EBUSY") else
            if bool_decide (cs = cd) then Ok d else
            if bool_decide (cs `prefix_of` cd) then Raise (OSError "EINVAL") else
            match split_last cs, split_last cd with
            | Some (ds, ss), Some (dd, sd) =>
                let moved :=
                  mkDisk (set_entry dd sd (Some ns) (set_entry ds ss None (tree d)))
                         (cwd_after_rename cs cd (cwd d)) in
                match ns, find (tree d) cd with
                | _, None => Ok moved
                | File _ _, Some (File _ _) => Ok moved
                | File _ _, Some (Dir _ _) => Raise IsADirectoryError
                | Dir _ _, Some (File _ _) => Raise NotADirectoryError
                | Dir _ _, Some (Dir _ m) =>
                    if bool_decide (m = ∅) then Ok moved
                    else Raise (OSError "ENOTEMPTY")
                end
            | _, _ => Raise (OSError "EBUSY")
            end
        end
    end.

(** [GetFileAttributesW(p)]: the attribute word, or [-1]. *)
Definition GetFileAttributesW (d : disk) (p : Path) : Z :=
  match stat d p with
  | Ok (_, n) => attrs_of n
  | Raise _ => (-1)%Z
  end.

(** [SetFileAttributesW(p, a)]: stores the word; a failure is only
    reported through the return value, which the module ignores. *)
Definition SetFileAttributesW (d : disk) (p : Path) (a : Z) : disk :=
  match stat d p with
  | Ok (c, _) => mkDisk (alter_at (set_attrs a) c (tree d)) (cwd d)
  | Raise _ => d
  end.

End Disk.

(** ** Python objects and the state of the process *)

(** [FileMode]. *)
Inductive FileMode : Type :=
  | FIND      (* search; errors if does not exist *)
  | CREATE    (* create; errors if already exists *)
  | UPDATE    (* open if exists, otherwise create *)
  | OVERWRITE (* delete if exists, then create *).

(** The classes of the module. *)
Inductive class : Type := SysObj | Folder | File | JSON.

#[global] Instance FileMode_eq_dec : EqDecision FileMode.
Proof. solve_decision. Defined.

#[global] Instance class_eq_dec : EqDecision class.
Proof. solve_decision. Defined.

(** [isinstance(o, File)]: [JSON] derives from [File]. *)
Definition is_File (c : class) : bool :=
  match c with File | JSON => true | _ => false end.

(** Objects live in a store and are held by reference. *)
Definition loc : Type := nat.

(** The attributes of an instance. An attribute that Python has not
    assigned yet holds the value of [blank] here; [__init__] assigns
    [_path], [_name], [_was_detected], [_is_dir], [_parent] and
    [_protected] before anything reads them. [create_wrappers] counts
    how many times [__init__] has wrapped [__create__] with
    [_setup_wrapper]. [_ext] belongs to files, [_indexed] and
    [_directory] to folders. *)
Record object : Type := mkObject {
  class_of : class;
  _path : Path;
  _name : string;
  _was_detected : bool;
  _is_dir : bool;
  _parent : option loc;
  _protected : bool;
  _is_root : bool;
  create_wrappers : nat;
  _ext : string;
  _indexed : bool;
  _directory : gmap string loc
}.

Definition blank (c : class) : object :=
  mkObject c (mkPath "" []) "" false false None false false 0 "" false ∅.

Definition set_path (v : Path) (o : object) : object :=
  mkObject (class_of o) v (_name o) (_was_detected o) (_is_dir o) (_parent o)
    (_protected o) (_is_root o) (create_wrappers o) (_ext o) (_indexed o) (_directory o).
Definition set_name (v : string) (o : object) : object :=
  mkObject (class_of o) (_path o) v (_was_detected o) (_is_dir o) (_parent o)
    (_protected o) (_is_root o) (create_wrappers o) (_ext o) (_indexed o) (_directory o).
Definition set_was_detected (v : bool) (o : object) : object :=
  mkObject (class_of o) (_path o) (_name o) v (_is_dir o) (_parent o)
    (_protected o) (_is_root o) (create_wrappers o) (_ext o) (_indexed o) (_directory o).
Definition set_is_dir (v : bool) (o : object) : object :=
  mkObject (class_of o) (_path o) (_name o) (_was_detected o) v (_parent o)
    (_protected o) (_is_root o) (create_wrappers o) (_ext o) (_indexed o) (_directory o).
Definition set_parent (v : option loc) (o : object) : object :=
  mkObject (class_of o) (_path o) (_name o) (_was_detected o) (_is_dir o) v
    (_protected o) (_is_root o) (create_wrappers o) (_ext o) (_indexed o) (_directory o).
Definition set_protected (v : bool) (o : object) : object :=
  mkObject (class_of o) (_path o) (_name o) (_was_detected o) (_is_dir o) (_parent o)
    v (_is_root o) (create_wrappers o) (_ext o) (_indexed o) (_directory o).
Definition set_is_root (v : bool) (o : object) : object :=
  mkObject (class_of o) (_path o) (_name o) (_was_detected o) (_is_dir o) (_parent o)
    (_protected o) v (create_wrappers o) (_ext o) (_indexed o) (_directory o).
Definition set_create_wrappers (v : nat) (o : object) : object :=
  mkObject (class_of o) (_path o) (_name o) (_was_detected o) (_is_dir o) (_parent o)
    (_protected o) (_is_root o) v (_ext o) (_indexed o) (_directory o).
Definition set_ext (v : string) (o : object) : object :=
  mkObject (class_of o) (_path o) (_name o) (_was_detected o) (_is_dir o) (_parent o)
    (_protected o) (_is_root o) (create_wrappers o) v (_indexed o) (_directory o).
Definition set_indexed (v : bool) (o : object) : object :=
  mkObject (class_of o) (_path o) (_name o) (_was_detected o) (_is_dir o) (_parent o)
    (_protected o) (_is_root o) (create_wrappers o) (_ext o) v (_directory o).
Definition set_directory (v : gmap string loc) (o : object) : object :=
  mkObject (class_of o) (_path o) (_name o) (_was_detected o) (_is_dir o) (_parent o)
    (_protected o) (_is_root o) (create_wrappers o) (_ext o) (_indexed o) v.

(** The handlers given to [watchdog] observers, and a started observer
    with the one watch scheduled on it. *)
Inductive handler : Type :=
  | FolderEventHandler (folder : loc)
  | TempHandler.

Record observer : Type := mkObserver {
  obs_handler : handler;
  obs_path : Path;
  obs_recursive : bool
}.

#[global] Instance handler_eq_dec : EqDecision handler.
Proof. solve_decision. Defined.

#[global] Instance observer_eq_dec : EqDecision observer.
Proof. solve_decision. Defined.

(** The state of the process: the disk, [options.platform.windows], the
    store of objects, [runtime_properties.root] and
    [runtime_properties.created_instances], the observers that were
    started and not stopped, what was printed, and the time spent
    blocked in [Event.wait]. *)
Record State : Type := mkState {
  fs : Disk.disk;
  windows : bool;
  store : list object;
  root : option loc;
  created_instances : list Path;
  observers : list observer;
  stdout : list string;
  waited : Z
}.

Definition set_fs (v : Disk.disk) (st : State) : State :=
  mkState v (windows st) (store st) (root st) (created_instances st)
    (observers st) (stdout st) (waited st).
Definition set_store (v : list object) (st : State) : State :=
  mkState (fs st) (windows st) v (root st) (created_instances st)
    (observers st) (stdout st) (waited st).
Definition set_root (v : option loc) (st : State) : State :=
  mkState (fs st) (windows st) (store st) v (created_instances st)
    (observers st) (stdout st) (waited st).
Definition set_created_instances (v : list Path) (st : State) : State :=
  mkState (fs st) (windows st) (store st) (root st) v
    (observers st) (stdout st) (waited st).
Definition set_observers (v : list observer) (st : State) : State :=
  mkState (fs st) (windows st) (store st) (root st) (created_instances st)
    v (stdout st) (waited st).
Definition set_stdout (v : list string) (st : State) : State :=
  mkState (fs st) (windows st) (store st) (root st) (created_instances st)
    (observers st) v (waited st).
Definition set_waited (v : Z) (st : State) : State :=
  mkState (fs st) (windows st) (store st) (root st) (created_instances st)
    (observers st) (stdout st) v.

(** ** The monad of Python statements

    A statement runs from a state to a result, a value or a raised
    exception, and a state: what was done before an exception was raised
    stays done. *)

Definition M (A : Type) : Type := State → result A * State.

Definition ret {A} (a : A) : M A := λ st, (Ok a, st).

Definition raise {A} (e : exn) : M A := λ st, (Raise e, st).

Definition bind {A B} (c : M A) (k : A → M B) : M B :=
  λ st, match c st with
        | (Ok a, st') => k a st'
        | (Raise e, st') => (Raise e, st')
        end.

Declare Scope py_scope.
Delimit Scope py_scope with py.
Notation "'let*' x ':=' c 'in' k" := (bind c (λ x, k))
  (at level 10, x name, c at level 200, k at level 200) : py_scope.
Notation "c '>>' k" := (bind c (λ _, k))
  (at level 65, right associativity) : py_scope.
Local Open Scope py_scope.

Definition gets {A} (f : State → A) : M A := λ st, (Ok (f st), st).

Definition modify (f : State → State) : M unit := λ st, (Ok tt, f st).

Definition lift {A} (r : result A) : M A := λ st, (r, st).

(** [assert b, msg]. *)
Definition assert (b : bool) (msg : string) : M unit :=
  if b then ret tt else raise (AssertionError msg).

(** [print(line)]. *)
Definition print (line : string) : M unit :=
  modify (λ st, set_stdout (stdout st ++ [line]) st).

(** Reading the attributes of the object behind a reference. Python
    cannot hold a reference to an object that was never allocated; the
    model answers [AttributeError] there. *)
Definition the (self : loc) : M object :=
  λ st, match store st !! self with
        | Some o => (Ok o, st)
        | None => (Raise AttributeError, st)
        end.

(** [self.attr = v], as the update [f] of the object. *)
Definition update (self : loc) (f : object → object) : M unit :=
  modify (λ st, set_store (alter f self (store st)) st).

(** [cls.__new__(cls)]: a fresh object with no attribute assigned. *)
Definition allocate (c : class) : M loc :=
  λ st, (Ok (length (store st)), set_store (store st ++ [blank c]) st).

(** ** Static functions *)

(** What the module accepts where a path is expected:
    [str | Path | SysObj]. An object is passed with the attributes it
    has at the call. *)
Inductive pathlike : Type :=
  | PStr (s : string)
  | PPath (p : Path)
  | PObj (o : object).

(** [ensure_path(path)]. *)
Definition ensure_path (path : pathlike) : Path :=
  match path with
  | PStr s => pathlib.of_str s
  | PObj o => _path o
  | PPath p => p
  end.

(** [parse_path(parent, path)]. *)
Definition parse_path (parent : option pathlike) (path : pathlike) : result Path :=
  let path := ensure_path path in
  match parent with
  | None => Ok path
  | Some parent =>
      if bool_decide (length (pathlib.parts path) = 1) then
        let parent := ensure_path parent in
        Ok (pathlib.of_str (posixpath.join (pathlib.to_str parent) (pathlib.to_str path)))
      else
        Raise (AssertionError "When using parent-child pathing, child length must be one.")
  end.

(** [bool(parent)] in [if parent:]: [None] and the empty string are
    false, path objects and instances are true. *)
Definition truthy (parent : option pathlike) : bool :=
  match parent with
  | None => false
  | Some (PStr s) => negb (bool_decide (s = ""))
  | Some _ => true
  end.

(** [path.exists()] and [path.is_dir()]: false when the lookup fails. *)
Definition path_exists (p : Path) : M bool :=
  gets (λ st, match Disk.stat (fs st) p with Ok _ => true | Raise _ => false end).

Definition path_is_dir (p : Path) : M bool :=
  gets (λ st, match Disk.stat (fs st) p with
              | Ok (_, n) => Disk.is_dir_node n
              | Raise _ => false
              end).

(** [path.absolute()]. *)
Definition path_absolute (p : Path) : M Path :=
  if pathlib.is_absolute p then ret p
  else λ st, match Disk.cwd (fs st) with
             | Some c => (Ok (mkPath "/" (c ++ names p)), st)
             | None => (Raise FileNotFoundError, st)
             end.

(** A system call that changes the disk or raises. *)
Definition syscall (f : Disk.disk → result Disk.disk) : M unit :=
  λ st, match f (fs st) with
        | Ok d => (Ok tt, set_fs d st)
        | Raise e => (Raise e, st)
        end.

Definition os_mkdir (p : Path) : M unit := syscall (λ d, Disk.mkdir d p).
Definition open_w_close (p : Path) : M unit := syscall (λ d, Disk.create_truncate d p).
Definition os_remove (p : Path) : M unit := syscall (λ d, Disk.unlink d p).
Definition os_rename (src dst : string) : M unit := syscall (λ d, Disk.rename d src dst).

Definition rmtree (p : Path) : M unit :=
  λ st, let '(r, d) := Disk.rmtree (fs st) p in (r, set_fs d st).

Definition os_listdir (p : Path) : M (list string) :=
  λ st, (Disk.listdir (fs st) p, st).

Definition os_path_samefile (a b : Path) : M bool :=
  λ st, (Disk.samefile (fs st) a b, st).

(** A function of [ctypes.windll.kernel32] is called without declared
    [argtypes], so [ctypes] converts each argument itself: [None],
    integers, bytes and strings pass, as do [ctypes] instances and
    objects with an [_as_parameter_] attribute.  Any other object is
    refused with [ctypes.ArgumentError] before the function runs; a
    [pathlib.Path] and a [SysObj] are of that kind. *)
Definition ctypes_wstr (a : pathlike) : M string :=
  match a with
  | PStr s => ret s
  | PPath _ | PObj _ => raise ArgumentError
  end.

Definition GetFileAttributesW (path : pathlike) : M Z :=
  let* s := ctypes_wstr path in
  gets (λ st, Disk.GetFileAttributesW (fs st) (pathlib.of_str s)).

Definition SetFileAttributesW (path : pathlike) (a : Z) : M unit :=
  let* s := ctypes_wstr path in
  modify (λ st, set_fs (Disk.SetFileAttributesW (fs st) (pathlib.of_str s) a) st).

(** [get_win_file_attrs(path)]. *)
Definition get_win_file_attrs (path : pathlike) : M Z :=
  let* attrs := GetFileAttributesW path in
  if bool_decide (attrs = (-1)%Z) then raise FileNotFoundError
  else ret attrs.

(** [delete_path(path)]. *)
Definition delete_path (path : Path) : M unit :=
  let* d := path_is_dir path in
  if d then
    let* a := path_absolute path in rmtree a
  else
    let* a := path_absolute path in os_remove a.

(** ** [SysObj] *)

(** The properties [path], [name] and [dirpath]. *)
Definition path (self : loc) : M Path :=
  let* o := the self in ret (_path o).

Definition name (self : loc) : M string :=
  let* o := the self in ret (_name o).

Definition dirpath (self : loc) : M string :=
  let* o := the self in ret (posixpath.dirname (pathlib.to_str (_path o))).

(** [__params__] of each class: [File] splits the extension off. *)
Definition __params__ (self : loc) : M unit :=
  let* o := the self in
  if is_File (class_of o) then
    let* n := name self in
    update self (set_ext (posixpath.splitext_ext n))
  else ret tt.

(** [s.endswith(suffix)]. *)
Fixpoint str_endswith (suffix s : string) : bool :=
  bool_decide (s = suffix) ||
  match s with
  | String _ r => str_endswith suffix r
  | EmptyString => false
  end.

(** [__validate__] of each class. *)
Definition Folder_validate (self : loc) : M unit :=
  let* o := the self in
  if _was_detected o then assert (_is_dir o) "Path does not lead to a `folder`."
  else ret tt.

Definition File_validate (self : loc) : M unit :=
  let* o := the self in
  let has_ext := negb (bool_decide (_ext o = "")) in
  (if negb has_ext then
     let* n := name self in print ("'" +:+ n +:+ "' does not have an extension!")
   else ret tt) >>
  let* o := the self in
  if _was_detected o then assert (negb (_is_dir o)) "Path does not lead to a `file`."
  else ret tt.

Definition JSON_validate (self : loc) : M unit :=
  File_validate self >>
  let* o := the self in
  assert (str_endswith ".json" (_ext o)) "JSON file must end with '.json'".

Definition __validate__ (self : loc) : M unit :=
  let* o := the self in
  match class_of o with
  | SysObj => ret tt
  | Folder => Folder_validate self
  | File => File_validate self
  | JSON => JSON_validate self
  end.

(** [__create__] as the classes define it. *)
Definition class_create (self : loc) : M unit :=
  let* o := the self in
  match class_of o with
  | SysObj => raise NotImplementedError
  | Folder => let* p := path self in os_mkdir p
  | File | JSON => let* p := path self in open_w_close p
  end.

(** [self.__create__()] once [__init__] has replaced it by
    [_setup_wrapper(self.__create__)]: every wrapper appends the path to
    [created_instances] and calls what it wraps. *)
Definition __create__ (self : loc) : M unit :=
  let* o := the self in
  modify (λ st, set_created_instances
                  (created_instances st ++ replicate (create_wrappers o) (_path o)) st) >>
  class_create self.

(** [_activate_listener]: a handler bound to the folder is scheduled on
    the folder's path, not recursively, and the observer is started. *)
Definition _activate_listener (self : loc) : M unit :=
  let* p := path self in
  modify (λ st, set_observers
                  (observers st ++ [mkObserver (FolderEventHandler self) p false]) st).

(** [__configure__] of each class. *)
Definition __configure__ (self : loc) : M unit :=
  let* o := the self in
  match class_of o with
  | Folder =>
      update self (set_indexed false) >>
      update self (set_directory ∅) >>
      _activate_listener self
  | _ => ret tt
  end.

(** [rm]. *)
Definition rm (self : loc) : M unit :=
  let* o := the self in
  if _protected o then raise (PermissionError "")
  else let* p := path self in delete_path p.

(** The [match mode] statement of [__init__]. *)
Definition reconcile (self : loc) (mode : FileMode) : M unit :=
  let* o := the self in
  match mode with
  | FIND =>
      if negb (_was_detected o) then raise FileNotFoundError else ret tt
  | CREATE =>
      if _was_detected o then raise FileExistsError
      else __create__ self
  | UPDATE =>
      if negb (_was_detected o) then __create__ self else ret tt
  | OVERWRITE =>
      (if _was_detected o then rm self else ret tt) >>
      __create__ self
  end.

(** [SysObj.__init__(self, path, mode=mode, parent=parent)], in the
    three parts of its body. First the path is resolved, the disk is
    sampled, the attributes get their defaults, and the class hooks
    [__params__] and [__validate__] run. *)
Definition init_detect (self : loc) (given : pathlike)
    (parent : option pathlike) : M unit :=
  (match parent with
   | Some par =>
       if truthy parent then
         let* d := path_is_dir (ensure_path par) in
         assert d "Parent must be a directory."
       else ret tt
   | None => ret tt
   end) >>
  let* p := lift (parse_path parent given) in
  update self (set_path p) >>
  update self (set_name (pathlib.name p)) >>
  let* e := path_exists p in
  update self (set_was_detected e) >>
  let* d := path_is_dir p in
  update self (set_is_dir d) >>
  let* r := gets root in
  (match r with
   | None => modify (set_root (Some self))
   | Some _ => ret tt
   end) >>
  update self (set_parent None) >>
  update self (set_protected false) >>
  update self (λ o, set_create_wrappers (S (create_wrappers o)) o) >>
  __params__ self >>
  __validate__ self.

(** Last, after the [match mode] statement, the handle is compared with
    the root and the class hook [__configure__] runs. *)
Definition init_finish (self : loc) : M unit :=
  let* p := path self in
  let* r := gets root in
  let* rp := match r with Some l => path l | None => raise AttributeError end in
  let* b := os_path_samefile p rp in
  update self (set_is_root b) >>
  update self (set_parent None) >>
  __configure__ self.

Definition __init__ (self : loc) (given : pathlike) (mode : FileMode)
    (parent : option pathlike) : M unit :=
  init_detect self given parent >>
  reconcile self mode >>
  init_finish self.

(** [cls(path, mode=mode, parent=parent)]: allocation, then
    [__init__]. *)
Definition new (c : class) (given : pathlike) (mode : FileMode)
    (parent : option pathlike) : M loc :=
  let* self := allocate c in
  __init__ self given mode parent >>
  ret self.

(** [assign_type(path)]. *)
Definition assign_type (p : Path) : M loc :=
  let* d := path_is_dir p in
  if d then new Folder (PPath p) UPDATE None
  else new File (PPath p) UPDATE None.

(** The property [parent]. *)
Definition parent (self : loc) : M loc :=
  let* o := the self in
  if _is_root o then raise (PermissionError "Cannot access parent of root.")
  else
    let* o := the self in
    match _parent o with
    | None =>
        let* dp := dirpath self in
        let* f := new Folder (PStr dp) FIND None in
        update self (set_parent (Some f)) >>
        ret f
    | Some f => ret f
    end.

(** [_ishidden], behind the property [ishidden]. *)
Definition _ishidden (self : loc) : M bool :=
  let* w := gets windows in
  if w then
    let* p := path self in
    let* attrs := get_win_file_attrs (PPath p) in
    ret (negb (bool_decide (Z.land attrs 2 = 0%Z)))
  else
    let* n := name self in
    ret (pystr.startswith "." n).

Definition ishidden (self : loc) : M bool := _ishidden self.

(** [hide(hide)]. *)
Definition hide (self : loc) (hide : bool) : M unit :=
  let* h := (if hide then ishidden self else ret false) in
  if hide && h then ret tt
  else
    let* w := gets windows in
    if w then
      if hide then
        let* p := path self in SetFileAttributesW (PPath p) 2
      else
        let* p := path self in
        let* attrs := get_win_file_attrs (PPath p) in
        let* p := path self in
        SetFileAttributesW (PPath p) (Z.land attrs (Z.lnot 2))
    else
      let* new_path_str :=
        (if hide then
           let* dp := dirpath self in
           let* n := name self in
           ret (posixpath.join dp ("." +:+ n))
         else
           let* dp := dirpath self in
           let* n := name self in
           ret (posixpath.join dp (pystr.drop1 n))) in
      let* p := path self in
      os_rename (pathlib.to_str p) new_path_str >>
      __init__ self (PStr new_path_str) FIND None.

(** ** [Folder] *)

(** A method of [Folder] called on an instance of another class finds
    no such attribute. *)
Definition the_folder (self : loc) : M object :=
  let* o := the self in
  if bool_decide (class_of o = Folder) then ret o else raise AttributeError.

(** The dictionary comprehension of [_update_dir], entry by entry. *)
Fixpoint build_directory (self : loc) (contents : list string)
    (acc : gmap string loc) : M (gmap string loc) :=
  match contents with
  | [] => ret acc
  | filename :: rest =>
      let* p := path self in
      let* child :=
        assign_type (pathlib.of_str (posixpath.join (pathlib.to_str p) filename)) in
      build_directory self rest (<[filename := child]> acc)
  end.

(** [_update_dir]. *)
Definition _update_dir (self : loc) : M unit :=
  let* _ := the_folder self in
  let* p := path self in
  let* contents := os_listdir p in
  let* d := build_directory self contents ∅ in
  update self (set_directory d).

(** The property [directory]. *)
Definition directory (self : loc) : M (gmap string loc) :=
  let* o := the_folder self in
  (if bool_decide (_indexed o = false) then
     update self (set_indexed true) >>
     _update_dir self
   else ret tt) >>
  let* o := the self in
  ret (_directory o).

(** The property [contents]. *)
Definition contents (self : loc) : M (list loc) :=
  let* d := directory self in
  ret (map_to_list d).*2.

(** [_search_dir(target)]: the child, or [None] after a message. *)
Definition _search_dir (self : loc) (target : string) : M (option loc) :=
  let* d := directory self in
  if bool_decide (is_Some (d !! target)) then
    let* d := directory self in
    ret (d !! target)
  else
    let* p := path self in
    print ("'" +:+ target +:+ "' does not exist in '" +:+ pathlib.to_str p +:+ "'") >>
    ret None.

(** [__getitem__(target)]. *)
Definition __getitem__ (self : loc) (target : string) : M (option loc) :=
  _search_dir self target.

(** [mkdir(target, mode=mode)] and [mk(target, mode=mode)]. *)
Definition mkdir (self : loc) (target : pathlike) (mode : FileMode) : M loc :=
  let* _ := the_folder self in
  let* p := path self in
  new Folder target mode (Some (PPath p)).

Definition mk (self : loc) (target : pathlike) (mode : FileMode) : M loc :=
  let* _ := the_folder self in
  let* p := path self in
  new File target mode (Some (PPath p)).

(** [get(target, timeout)]. The default of [timeout] is
    [options.defaults.timeout]. *)
Definition defaults_timeout : Z := 4000.

Definition get (self : loc) (target : string) (timeout : Z) : M (option loc) :=
  _search_dir self target.

(** [clear()]. *)
Fixpoint rm_each (objs : list loc) : M unit :=
  match objs with
  | [] => ret tt
  | obj :: rest => rm obj >> rm_each rest
  end.

Definition clear (self : loc) : M unit :=
  let* objs := contents self in
  rm_each objs.

(** [_wait_for_file(target, timeout)]. A temporary observer is started
    on the folder's path, the caller blocks in [event.wait(timeout)],
    and the observer is stopped and joined. [fired] is what the
    environment does meanwhile: after how long the handler sees a
    creation and sets the event, if it does. *)
Definition event_wait (timeout : Z) (fired : option Z) : M unit :=
  let blocked :=
    match fired with
    | Some t => Z.max 0 (Z.min t timeout)
    | None => Z.max 0 timeout
    end in
  modify (λ st, set_waited (waited st + blocked)%Z st).

Definition _wait_for_file (self : loc) (target : string) (timeout : Z)
    (fired : option Z) : M unit :=
  let* _ := the_folder self in
  let* p := path self in
  let o := mkObserver TempHandler p false in
  modify (λ st, set_observers (observers st ++ [o]) st) >>
  event_wait timeout fired >>
  modify (λ st, set_observers (removelast (observers st)) st).

(** ** Notifications *)

(** [os.path.normpath(path)]. *)
Definition normpath_step (initial_slashes : nat) (new_comps : list string)
    (comp : string) : list string :=
  if bool_decide (comp = "") || bool_decide (comp = ".") then new_comps
  else if negb (bool_decide (comp = ".."))
          || (bool_decide (initial_slashes = 0) && bool_decide (new_comps = []))
          || bool_decide (last new_comps = Some "..")
       then new_comps ++ [comp]
       else removelast new_comps.

Definition normpath (path : string) : string :=
  if bool_decide (path = "") then "." else
  let initial_slashes :=
    match path with
    | String "/" (String "/" (String "/" _)) => 1
    | String "/" (String "/" _) => 2
    | String "/" _ => 1
    | _ => 0
    end in
  let new_comps :=
    fold_left (normpath_step initial_slashes) (pystr.split posixpath.sep path) [] in
  let body := pystr.join posixpath.sep new_comps in
  let res :=
    match initial_slashes with
    | 0 => body
    | 1 => "/" +:+ body
    | _ => "//" +:+ body
    end in
  if bool_decide (res = "") then "." else res.

(** [os.path.abspath(path)]. *)
Definition abspath (path : string) : M string :=
  if pystr.startswith posixpath.sep path then ret (normpath path)
  else λ st, match Disk.cwd (fs st) with
             | Some c =>
                 let cwd_str := "/" +:+ pystr.join posixpath.sep c in
                 (Ok (normpath (posixpath.join cwd_str path)), st)
             | None => (Raise FileNotFoundError, st)
             end.

(** The events [watchdog] delivers. *)
Inductive event_kind : Type := Created | Deleted | Modified.

(** [FolderEventHandler.direct(event)]. *)
Definition direct (folder : loc) (src_path : string) : M bool :=
  let* event_path := abspath src_path in
  let parent_path := posixpath.dirname event_path in
  let* p := path folder in
  os_path_samefile (pathlib.of_str parent_path) p.

(** The handler methods [on_created], [on_deleted] and [on_modified]
    of an observer's handler, run on an event. *)
Definition dispatch (o : observer) (k : event_kind) (src_path : string) : M unit :=
  match obs_handler o with
  | FolderEventHandler folder =>
      let* d := direct folder src_path in
      match k with
      | Created | Deleted => if d then _update_dir folder else ret tt
      | Modified => ret tt
      end
  | TempHandler => ret tt
  end.

(** ** Module initialisation *)

(** A process before the module is imported. *)
Definition initial (d : Disk.disk) (w : bool) : State :=
  mkState d w [] None [] [] [] 0.

(** [runtime_properties.root = Folder('.', mode=FileMode.FIND)], the
    statement the module runs when it is imported. *)
Definition module_init : M unit :=
  let* f := new Folder (PStr ".") FIND None in
  modify (set_root (Some f)).

(** ** The effects of the module in closed form

    The definitions below describe, as plain functions, what the
    statements above do to the disk and to the state. The theorems
    relate the two. *)

(** The kind of what is at a canonical path: a directory ([true]), a
    file ([false]) or nothing. *)
Definition kind_at (t : Disk.node) (q : list string) : option bool :=
  Disk.is_dir_node <$> Disk.find t q.

(** The names a string adds to a path it is joined to: none for the
    empty string and for ["."]. *)
Definition kept (x : string) : Prop := x ≠ "" ∧ x ≠ ".".

Definition joined (s : string) : list string := filter kept [s].

Definition anchor_ok (a : string) : Prop := a = "" ∨ a = "/" ∨ a = "//".

(** [path.exists()] and [path.is_dir()] on a disk. *)
Definition on_disk (d : Disk.disk) (p : Path) : bool :=
  match Disk.stat d p with Ok _ => true | Raise _ => false end.

Definition dir_on_disk (d : Disk.disk) (p : Path) : bool :=
  match Disk.stat d p with Ok (_, n) => Disk.is_dir_node n | Raise _ => false end.

(** [path.absolute()] on a disk. *)
Definition absolute (d : Disk.disk) (p : Path) : result Path :=
  if pathlib.is_absolute p then Ok p
  else match Disk.cwd d with
       | Some c => Ok (mkPath "/" (c ++ names p))
       | None => Raise FileNotFoundError
       end.

(** What [delete_path(p)] does to the disk. *)
Definition delete_on_disk (d : Disk.disk) (p : Path) : result unit * Disk.disk :=
  match absolute d p with
  | Raise e => (Raise e, d)
  | Ok a =>
      if dir_on_disk d p then Disk.rmtree d a
      else match Disk.unlink d a with
           | Ok d' => (Ok tt, d')
           | Raise e => (Raise e, d)
           end
  end.

(** What the [__create__] of a class does to the disk. *)
Definition create_on_disk (c : class) (d : Disk.disk) (p : Path) : result unit * Disk.disk :=
  match c with
  | SysObj => (Raise NotImplementedError, d)
  | Folder => match Disk.mkdir d p with Ok d' => (Ok tt, d') | Raise e => (Raise e, d) end
  | File | JSON =>
      match Disk.create_truncate d p with Ok d' => (Ok tt, d') | Raise e => (Raise e, d) end
  end.

(** What [__validate__] demands of a handle of class [c] for the path
    [p]: the kind found on the disk, if any, and the extension. *)
Definition validates (c : class) (d : Disk.disk) (p : Path) : bool :=
  match c with
  | SysObj => true
  | Folder => implb (on_disk d p) (dir_on_disk d p)
  | File => implb (on_disk d p) (negb (dir_on_disk d p))
  | JSON => implb (on_disk d p) (negb (dir_on_disk d p))
            && str_endswith ".json" (posixpath.splitext_ext (pathlib.name p))
  end.

(** What [__init__] demands of [parent]. *)
Definition parent_ok (d : Disk.disk) (par : option pathlike) : bool :=
  match par with
  | Some x => implb (truthy par) (dir_on_disk d (ensure_path x))
  | None => true
  end.

(** What [File.__validate__] prints. *)
Definition validate_prints (c : class) (p : Path) : list string :=
  if is_File c && bool_decide (posixpath.splitext_ext (pathlib.name p) = "")
  then ["'" +:+ pathlib.name p +:+ "' does not have an extension!"]
  else [].

(** The object and the state after [init_detect]. *)
Definition detect_object (p : Path) (e d : bool) (o : object) : object :=
  mkObject (class_of o) p (pathlib.name p) e d None false (_is_root o)
    (S (create_wrappers o))
    (if is_File (class_of o) then posixpath.splitext_ext (pathlib.name p) else _ext o)
    (_indexed o) (_directory o).

Definition detected (self : loc) (p : Path) (o : object) (st : State) : State :=
  mkState (fs st) (windows st)
    (<[self := detect_object p (on_disk (fs st) p) (dir_on_disk (fs st) p) o]> (store st))
    (match root st with None => Some self | Some r => Some r end)
    (created_instances st) (observers st)
    (stdout st ++ validate_prints (class_of o) p) (waited st).

(** *** The reconciliation table of the specification

    The table of modes and on-disk existence, as the specification
    words it: a failure, or the actions to perform in order. *)
Inductive action : Type := Create | Remove.

Inductive plan : Type := Fail (e : exn) | Do (actions : list action).

Definition table (mode : FileMode) (existed : bool) : plan :=
  match mode, existed with
  | FIND, false => Fail FileNotFoundError
  | FIND, true => Do []
  | CREATE, true => Fail FileExistsError
  | CREATE, false => Do [Create]
  | UPDATE, true => Do []
  | UPDATE, false => Do [Create]
  | OVERWRITE, true => Do [Remove; Create]
  | OVERWRITE, false => Do [Create]
  end.

(** An action on the disk and on [created_instances], to which every
    wrapper of [__create__] appends the path. *)
Definition perform (c : class) (p : Path) (wrappers : nat) (a : action)
    (w : Disk.disk * list Path) : result unit * (Disk.disk * list Path) :=
  match a with
  | Create =>
      let '(r, d) := create_on_disk c w.1 p in (r, (d, w.2 ++ replicate wrappers p))
  | Remove =>
      let '(r, d) := delete_on_disk w.1 p in (r, (d, w.2))
  end.

(** The actions in order, up to the first that raises. *)
Fixpoint perform_all (c : class) (p : Path) (wrappers : nat) (l : list action)
    (w : Disk.disk * list Path) : result unit * (Disk.disk * list Path) :=
  match l with
  | [] => (Ok tt, w)
  | a :: rest =>
      match perform c p wrappers a w with
      | (Ok _, w') => perform_all c p wrappers rest w'
      | (Raise e, w') => (Raise e, w')
      end
  end.

(** The object after [__configure__], and the state after
    [init_finish] found the handle to be the root or not ([b]). *)
Definition configure_object (o : object) : object :=
  match class_of o with
  | Folder => set_directory ∅ (set_indexed false o)
  | _ => o
  end.

Definition finished (self : loc) (b : bool) (o : object) (st : State) : State :=
  mkState (fs st) (windows st)
    (<[self := configure_object (set_parent None (set_is_root b o))]> (store st))
    (root st) (created_instances st)
    (observers st ++
       match class_of o with
       | Folder => [mkObserver (FolderEventHandler self) (_path o) false]
       | _ => []
       end)
    (stdout st) (waited st).

(** The path of the root that [init_finish] compares with: the root is
    the handle itself when there was none, or when the handle that is
    initialised again is the root. *)
Definition root_path_for (self : loc) (st : State) (p : Path) : option Path :=
  match root st with
  | None => Some p
  | Some r => if bool_decide (r = self) then Some p else _path <$> store st !! r
  end.

(** The outcome of [__init__] for a path [p] that passed the checks of
    [init_detect]. *)
Definition init_outcome (self : loc) (mode : FileMode) (p rp : Path) (o : object)
    (st : State) : result unit * State :=
  let o1 := detect_object p (on_disk (fs st) p) (dir_on_disk (fs st) p) o in
  let st1 := detected self p o st in
  match table mode (on_disk (fs st) p) with
  | Fail e => (Raise e, st1)
  | Do acts =>
      let out := perform_all (class_of o) p (S (create_wrappers o)) acts
                   (fs st, created_instances st) in
      let st2 := set_created_instances out.2.2 (set_fs out.2.1 st1) in
      match out.1 with
      | Raise e => (Raise e, st2)
      | Ok _ =>
          match Disk.samefile out.2.1 p rp with
          | Ok b => (Ok tt, finished self b o1 st2)
          | Raise e => (Raise e, st2)
          end
      end
  end.

(** ** Outcomes of statements *)

(** [runs c st Q]: the outcome of [c] from [st] satisfies [Q]. *)
Definition runs {A} (c : M A) (st : State) (Q : result A → State → Prop) : Prop :=
  Q (c st).1 (c st).2.

(** ** Path resolution as the specification words it *)

(** [parent / given] of [pathlib]: a rooted [given] replaces the parent,
    any other is appended to it. *)
Definition joinpath (parent given : Path) : Path :=
  if pathlib.is_absolute given then given
  else mkPath (anchor parent) (names parent ++ names given).

(** ** An example process

    The disk holds the directory [/home/u], the working directory, with
    the files [a] and [.a] and the directory [d], which holds [x.txt]. *)
Definition example_disk : Disk.disk :=
  Eval vm_compute in
  Disk.mkDisk
    (Disk.Dir 0 {[ "home" := Disk.Dir 0 {[ "u" := Disk.Dir 0
       (<["a" := Disk.File 32 "A"]>
          (<[".a" := Disk.File 0 "dot-A"]>
             (<["d" := Disk.Dir 0 {[ "x.txt" := Disk.File 0 "x" ]}]> ∅))) ]} ]})
    (Some ["home"; "u"]).

(** The process after the module was imported, on POSIX and on
    Windows. *)
Definition example_state : State :=
  Eval vm_compute in (module_init (initial example_disk false)).2.

Definition example_state_windows : State :=
  Eval vm_compute in (module_init (initial example_disk true)).2.

(** The working directory, when there is one, is a canonical path of
    existing directories, as [os.getcwd()] returns it. *)
Definition canonical_cwd (d : Disk.disk) : Prop :=
  ∀ x, Disk.cwd d = Some x →
       Disk.walk (Disk.tree d) [] x = Ok x ∧ kind_at (Disk.tree d) x = Some true.

(** ** What statements preserve *)

(** [preserves R c]: whatever the outcome of [c], the state after is
    related by [R] to the state before. *)
Definition preserves {A} (R : relation State) (c : M A) : Prop :=
  ∀ st, R st (c st).2.

(** The relations that the statements of the module keep whatever they
    do to the disk, to the objects in [touch], to [created_instances]
    and to the output, when they start folder observers, and when they
    set the root where there was none. *)
Class Stable (touch : loc → Prop) (R : relation State) : Prop := {
  stable_preorder :: PreOrder R;
  stable_fs : ∀ st d, R st (set_fs d st);
  stable_update : ∀ st self f, touch self → R st (set_store (alter f self (store st)) st);
  stable_created : ∀ st v, R st (set_created_instances v st);
  stable_stdout : ∀ st v, R st (set_stdout v st);
  stable_listener : ∀ st self p,
    R st (set_observers (observers st ++ [mkObserver (FolderEventHandler self) p false]) st);
  stable_first_root : ∀ st self, root st = None → R st (set_root (Some self) st)
}.

(** A root that is set stays the same. *)
Definition keeps_root (st st' : State) : Prop :=
  ∀ r, root st = Some r → root st' = Some r.

(** The objects other than [self] stay the same. *)
Definition keeps_others (self : loc) (st st' : State) : Prop :=
  length (store st') = length (store st) ∧
  ∀ l, l ≠ self → store st' !! l = store st !! l.

(** The store only grows: the objects allocated before stay the
    same. *)
Definition store_grows (st st' : State) : Prop :=
  ∀ l o, store st !! l = Some o → store st' !! l = Some o.

(** No time is spent waiting, and the temporary observers are the same. *)
Definition is_temp (o : observer) : Prop := obs_handler o = TempHandler.

#[global] Instance is_temp_dec o : Decision (is_temp o).
Proof. unfold is_temp. apply _. Defined.

Definition keeps_waiting (st st' : State) : Prop :=
  waited st' = waited st ∧
  filter is_temp (observers st') = filter is_temp (observers st).

(** ** Calls of the interface *)

(** An argument where a path is expected, with an object given by
    reference. *)
Inductive arg : Type :=
  | AStr (s : string)
  | APath (p : Path)
  | ARef (l : loc).

Definition eval_arg (a : arg) : M pathlike :=
  match a with
  | AStr s => ret (PStr s)
  | APath p => ret (PPath p)
  | ARef l => let* o := the l in ret (PObj o)
  end.

Definition eval_parent (a : option arg) : M (option pathlike) :=
  match a with
  | Some x => let* v := eval_arg x in ret (Some v)
  | None => ret None
  end.

(** What a program does with the module, and what happens around it:
    the observers deliver events, and other processes change the
    disk. *)
Inductive call : Type :=
  | CallNew (c : class) (given : arg) (mode : FileMode) (parent : option arg)
  | CallRm (self : loc)
  | CallHide (self : loc) (hide : bool)
  | CallParent (self : loc)
  | CallDirectory (self : loc)
  | CallGetitem (self : loc) (target : string)
  | CallGet (self : loc) (target : string) (timeout : Z)
  | CallMkdir (self : loc) (target : arg) (mode : FileMode)
  | CallMk (self : loc) (target : arg) (mode : FileMode)
  | CallClear (self : loc)
  | CallWait (self : loc) (target : string) (timeout : Z) (fired : option Z)
  | Deliver (o : observer) (k : event_kind) (src_path : string)
  | Outside (d : Disk.disk).

Definition exec (c : call) : M unit :=
  match c with
  | CallNew c given mode parent =>
      let* g := eval_arg given in
      let* p := eval_parent parent in
      new c g mode p >> ret tt
  | CallRm self => rm self
  | CallHide self h => hide self h
  | CallParent self => parent self >> ret tt
  | CallDirectory self => directory self >> ret tt
  | CallGetitem self target => __getitem__ self target >> ret tt
  | CallGet self target timeout => get self target timeout >> ret tt
  | CallMkdir self target mode =>
      let* t := eval_arg target in mkdir self t mode >> ret tt
  | CallMk self target mode =>
      let* t := eval_arg target in mk self t mode >> ret tt
  | CallClear self => clear self
  | CallWait self target timeout fired => _wait_for_file self target timeout fired
  | Deliver o k src_path => dispatch o k src_path
  | Outside d => modify (set_fs d)
  end.

(** A run of calls, each exception caught. *)
Fixpoint exec_all (calls : list call) (st : State) : State :=
  match calls with
  | [] => st
  | c :: rest => exec_all rest (exec c st).2
  end.

(** ** Renaming in closed form *)

(** The disk after what is at the canonical path [c] got the name [s]
    in the same directory, where nothing had that name. *)
Definition renamed (d : Disk.disk) (c : list string) (s : string) : Disk.disk :=
  Disk.mkDisk
    (Disk.set_entry (removelast c) s (Disk.find (Disk.tree d) c)
       (Disk.set_entry (removelast c) (default "" (last c)) None (Disk.tree d)))
    (Disk.cwd_after_rename c (removelast c ++ [s]) (Disk.cwd d)).

(** What [__validate__] demands of a handle of class [c] for an object
    of the disk that is a directory or not ([dir]) and has the name
    [s]. *)
Definition kind_ok (c : class) (dir : bool) (s : string) : bool :=
  match c with
  | SysObj => true
  | Folder => dir
  | File => negb dir
  | JSON => negb dir && str_endswith ".json" (posixpath.splitext_ext s)
  end.

(** The example process with a second handle, [File("d/x.txt")],
    [File("a")] or [Folder("d")], found on the disk. *)
Definition example_with_x : State :=
  Eval vm_compute in (new File (PStr "d/x.txt") FIND None example_state).2.

Definition example_with_a : State :=
  Eval vm_compute in (new File (PStr "a") FIND None example_state).2.

Definition example_with_d : State :=
  Eval vm_compute in (new Folder (PStr "d") FIND None example_state).2.

Definition example_windows_with_a : State :=
  Eval vm_compute in (new File (PStr "a") FIND None example_state_windows).2.

(** ** The child index in closed form *)

(** What the index of a folder at [p] holds for its entry [n], a
    directory or not: the reference to a handle of class [Folder] or
    [File] on the path [p / n]. *)
Definition wraps (st : State) (p : Path) (n : string) (dir : bool) (l : loc) : Prop :=
  ∃ oc, store st !! l = Some oc ∧
        class_of oc = (if dir then Folder else File) ∧
        _path oc = mkPath (anchor p) (names p ++ [n]) ∧
        _name oc = n ∧ _is_dir oc = dir.

(** The mapping [d] indexes the entries [m] of the directory at [p]:
    a handle for each entry, and nothing else. *)
Definition indexes (st : State) (p : Path) (m : gmap string Disk.node)
    (d : gmap string loc) : Prop :=
  ∀ n, match m !! n with
       | Some node => ∃ l, d !! n = Some l ∧ wraps st p n (Disk.is_dir_node node) l
       | None => d !! n = None
       end.

(** What holds of the state all along the listing of the folder
    [self]: the disk is [d0], the root is [r], and the objects of the
    folder and of the root are [o] and [ro]. *)
Definition listing_inv (self r : loc) (o ro : object) (d0 : Disk.disk)
    (st : State) : Prop :=
  fs st = d0 ∧ root st = Some r ∧ store st !! r = Some ro ∧ store st !! self = Some o.

(** The entries indexed so far are entries of the directory, each with
    its handle. *)
Definition indexed_so_far (m : gmap string Disk.node) (p : Path) (st : State)
    (acc : gmap string loc) : Prop :=
  ∀ n l, acc !! n = Some l →
         ∃ node, m !! n = Some node ∧ wraps st p n (Disk.is_dir_node node) l.

(** The folder [d] of the example after the first access to its
    [directory]: the mapping returned, and the state. *)
Definition example_index : gmap string loc :=
  Eval vm_compute in
    match (directory 1 example_with_d).1 with Ok d => d | Raise _ => ∅ end.

Definition example_indexed : State :=
  Eval vm_compute in (directory 1 example_with_d).2.

(** ** Further methods *)

(** What [os.path.join] takes for a component: a string, or an object
    with [__fspath__], which a [pathlib.Path] is and a [SysObj] is
    not. *)
Inductive fspath : Type :=
  | FStr (s : string)
  | FPath (p : Path).

(** [os.fspath(x)], and the same value where [ensure_path] takes it. *)
Definition fspath_str (x : fspath) : string :=
  match x with
  | FStr s => s
  | FPath p => pathlib.to_str p
  end.

Definition fspath_like (x : fspath) : pathlike :=
  match x with
  | FStr s => PStr s
  | FPath p => PPath p
  end.

(** [Folder.join(target)]. *)
Definition join (self : loc) (target : fspath) : M string :=
  let* _ := the_folder self in
  assert (bool_decide (length (pathlib.parts (ensure_path (fspath_like target))) = 1))
    "target must be a name, not a path." >>
  let* p := path self in
  ret (posixpath.join (pathlib.to_str p) (fspath_str target)).

(** The empty object that the [__create__] of a class puts on the
    disk: a directory without entries, or a file without content. *)
Definition fresh_node (c : class) : Disk.node :=
  match c with
  | Folder => Disk.Dir 0 ∅
  | _ => Disk.File 0 ""
  end.

(** No handle of the process is protected. *)
Definition unprotected (st : State) : Prop :=
  ∀ l o, store st !! l = Some o → _protected o = false.

Definition stays_unprotected (st st' : State) : Prop :=
  unprotected st → unprotected st'.

(** ** [File.write] and [File.read] *)

(** The two characters of a line end. *)
Definition CR : ascii := "013"%char.
Definition LF : ascii := "010"%char.

(** [os.linesep]. *)
Definition os_linesep (st : State) : string :=
  if windows st then String CR (String LF EmptyString) else String LF EmptyString.

(** What a text file opened with [newline=None] (the default of
    [open]) writes for a [str]: every ["\n"] becomes [os.linesep]. *)
Fixpoint translate_newlines (linesep : string) (s : string) : string :=
  match s with
  | EmptyString => EmptyString
  | String c r =>
      if bool_decide (c = LF) then linesep +:+ translate_newlines linesep r
      else String c (translate_newlines linesep r)
  end.

(** What it reads (universal newlines): ["\r\n"] and a ["\r"] alone
    become ["\n"]. *)
Fixpoint universal_newlines (s : string) : string :=
  match s with
  | EmptyString => EmptyString
  | String c r =>
      if bool_decide (c = CR) then
        match r with
        | String c' r' =>
            if bool_decide (c' = LF) then String LF (universal_newlines r')
            else String LF (universal_newlines r)
        | EmptyString => String LF EmptyString
        end
      else String c (universal_newlines r)
  end.

(** The modes [File.write] is followed for: ['w'], ['a'] and ['x'],
    which open a text file for writing. *)
Inductive wmode : Type := ModeW | ModeA | ModeX.

(** [open(p, mode)], [write(text)] and [close()] on the disk. A [str]
    is held on the disk as the characters written: the encoding of the
    locale is taken to encode every text written and to decode every
    file read. ['w'] truncates the file that is there, ['a'] writes at
    its end and ['x'] refuses whatever is there; each of them creates
    the file that is not there. *)
Definition write_file (d : Disk.disk) (p : Path) (m : wmode) (text : string)
  : result Disk.disk :=
  match Disk.resolve d p with
  | Raise e => Raise e
  | Ok c =>
      match Disk.find (Disk.tree d) c, Disk.split_last c with
      | Some node, last =>
          match m, node, last with
          | ModeX, _, _ => Raise FileExistsError
          | ModeW, Disk.File a _, Some (dir, s) =>
              Ok (Disk.mkDisk (Disk.set_entry dir s (Some (Disk.File a text)) (Disk.tree d))
                              (Disk.cwd d))
          | ModeA, Disk.File a old, Some (dir, s) =>
              Ok (Disk.mkDisk
                    (Disk.set_entry dir s (Some (Disk.File a (old +:+ text))) (Disk.tree d))
                    (Disk.cwd d))
          | _, _, _ => Raise IsADirectoryError
          end
      | None, Some (dir, s) =>
          match Disk.find (Disk.tree d) dir with
          | Some (Disk.Dir _ _) =>
              Ok (Disk.mkDisk (Disk.set_entry dir s (Some (Disk.File 0 text)) (Disk.tree d))
                              (Disk.cwd d))
          | Some (Disk.File _ _) => Raise NotADirectoryError
          | None => Raise FileNotFoundError
          end
      | None, None => Raise IsADirectoryError
      end
  end.

(** [open(p, 'r')], [read()] and [close()] on the disk. *)
Definition read_file (d : Disk.disk) (p : Path) : result string :=
  match Disk.resolve d p with
  | Raise e => Raise e
  | Ok c =>
      match Disk.find (Disk.tree d) c with
      | None => Raise FileNotFoundError
      | Some (Disk.Dir _ _) => Raise IsADirectoryError
      | Some (Disk.File _ text) => Ok text
      end
  end.

(** [with open(p, mode=mode) as file: file.write(data)]. *)
Definition open_write (p : Path) (mode : wmode) (data : string) : M unit :=
  λ st, match write_file (fs st) p mode (translate_newlines (os_linesep st) data) with
        | Ok d => (Ok tt, set_fs d st)
        | Raise e => (Raise e, st)
        end.

(** [with open(p, 'r') as file: return file.read()]. *)
Definition open_read (p : Path) : M string :=
  λ st, match read_file (fs st) p with
        | Ok text => (Ok (universal_newlines text), st)
        | Raise e => (Raise e, st)
        end.

(** [File.write(data, mode)] and [File.read()]. [JSON] overrides both;
    these are the methods of a handle of class [File]. *)
Definition write (self : loc) (data : string) (mode : wmode) : M unit :=
  let* p := path self in open_write p mode data.

Definition read (self : loc) : M string :=
  let* p := path self in open_read p.

(** The disk with [node] in the place of the entry [s] of the directory
    [dir]. *)
Definition placed (d : Disk.disk) (dir : list string) (s : string) (node : Disk.node)
  : Disk.disk :=
  Disk.mkDisk (Disk.set_entry dir s (Some node) (Disk.tree d)) (Disk.cwd d).

(** The tree with the entries [ns] taken out of the directory at [c],
    one after the other. *)
Definition without_entries (c : list string) (ns : list string) (t : Disk.node)
  : Disk.node :=
  foldl (λ t n, Disk.set_entry c n None t) t ns.

(** * Properties of the path functions *)

Lemma append_String a (r s : string) : String a r +:+ s = String a (r +:+ s).
Proof. done. Qed.

Lemma append_assoc (s1 s2 s3 : string) : (s1 +:+ s2) +:+ s3 = s1 +:+ (s2 +:+ s3).
Proof. induction s1 as [|a r IH]; [done|]. rewrite !append_String. by rewrite IH. Qed.

Lemma append_nil_r (s : string) : s +:+ "" = s.
Proof. induction s as [|a r IH]; [done|]. rewrite append_String. by rewrite IH. Qed.

Section strings.
Variable c : ascii.

Lemma split_nonempty s : pystr.split c s ≠ [].
Proof.
  destruct s as [|a r]; simpl; [done|].
  case_bool_decide; [done|]. by destruct (pystr.split c r).
Qed.

Lemma split_without s : pystr.contains c s = false → pystr.split c s = [s].
Proof.
  induction s as [|a r IH]; simpl; [done|].
  case_bool_decide; simpl; [done|]. intros Hr. by rewrite IH.
Qed.

Lemma split_app s1 s2 :
  pystr.split c (s1 +:+ String c s2) = (pystr.split c s1 ++ pystr.split c s2)%list.
Proof.
  induction s1 as [|a r IH]; simpl.
  - by rewrite bool_decide_eq_true_2.
  - case_bool_decide; [by rewrite IH|].
    rewrite IH. pose proof (split_nonempty r).
    by destruct (pystr.split c r).
Qed.

Lemma contains_app s1 s2 :
  pystr.contains c (s1 +:+ s2) = pystr.contains c s1 || pystr.contains c s2.
Proof.
  induction s1 as [|a r IH]; simpl; [done|]. rewrite IH. by rewrite orb_assoc.
Qed.

Lemma split_join l :
  l ≠ [] → Forall (λ x, pystr.contains c x = false) l →
  pystr.split c (pystr.join c l) = l.
Proof.
  induction l as [|x r IH]; [done|]. intros _ Hall.
  apply Forall_cons in Hall as [Hx Hr].
  destruct r as [|y r']; [by apply split_without|].
  change (pystr.join c (x :: y :: r')) with (x +:+ String c (pystr.join c (y :: r'))).
  rewrite split_app, IH by done. by rewrite split_without.
Qed.

Lemma startswith_app s1 s2 :
  s1 ≠ "" → pystr.startswith c (s1 +:+ s2) = pystr.startswith c s1.
Proof. by destruct s1. Qed.

Lemma startswith_contains s : pystr.startswith c s = true → pystr.contains c s = true.
Proof. destruct s; simpl; [done|]. intros ->. done. Qed.

Lemma endswith_app s1 s2 :
  s2 ≠ "" → pystr.endswith c (s1 +:+ s2) = pystr.endswith c s2.
Proof.
  intros H. induction s1 as [|a r IH]; simpl; [done|].
  rewrite IH. destruct (r +:+ s2) eqn:E; [|done].
  destruct r; simpl in E; [done|discriminate].
Qed.

Lemma endswith_contains s : pystr.endswith c s = true → pystr.contains c s = true.
Proof.
  induction s as [|a r IH]; simpl; [done|].
  destruct r; [intros ->; done|]. intros H. rewrite IH by done. apply orb_true_r.
Qed.

Lemma upto_last_without s : pystr.contains c s = false → pystr.upto_last c s = "".
Proof.
  destruct s as [|a r]; simpl; [done|].
  intros [H1 H2]%orb_false_elim. by rewrite H2, H1.
Qed.

Lemma upto_last_app s1 s2 :
  pystr.contains c s2 = false →
  pystr.upto_last c (s1 +:+ String c s2) = s1 +:+ String c "".
Proof.
  intros H. induction s1 as [|a r IH]; simpl.
  - by rewrite H, bool_decide_eq_true_2.
  - rewrite contains_app. simpl. rewrite bool_decide_eq_true_2 by done.
    rewrite orb_true_r. simpl. by rewrite IH.
Qed.

Lemma rstrip_app_sep s :
  s ≠ "" → pystr.endswith c s = false → pystr.rstrip c (s +:+ String c "") = s.
Proof.
  induction s as [|a r IH]; [done|]. intros _ H. simpl.
  destruct r as [|b r'].
  - simpl in *. rewrite bool_decide_eq_true_2 by done. by rewrite H.
  - rewrite IH; [done|done|]. simpl in H. done.
Qed.

Lemma all_eq_app s1 s2 :
  pystr.all_eq c (s1 +:+ s2) = pystr.all_eq c s1 && pystr.all_eq c s2.
Proof. induction s1 as [|a r IH]; simpl; [done|]. by rewrite IH, andb_assoc. Qed.

Lemma all_eq_without s : s ≠ "" → pystr.contains c s = false → pystr.all_eq c s = false.
Proof. destruct s; simpl; [done|]. intros _ [-> _]%orb_false_elim. done. Qed.

End strings.

Section paths.
Import pathlib.
Local Abbreviation sep := posixpath.sep.

Lemma valid_name_kept x : valid_name x → kept x.
Proof. intros (? & ? & ?). by split. Qed.

Lemma filter_kept_valid l : Forall valid_name l → filter kept l = l.
Proof.
  induction 1 as [|x l Hx _ IH]; [done|].
  rewrite filter_cons_True by by apply valid_name_kept. by rewrite IH.
Qed.

Lemma join_cons x y r :
  pystr.join sep (x :: y :: r) = x +:+ String sep (pystr.join sep (y :: r)).
Proof. done. Qed.

Lemma join_snoc l s :
  l ≠ [] → pystr.join sep (l ++ [s]) = pystr.join sep l +:+ String sep s.
Proof.
  induction l as [|x r IH]; [done|]. intros _.
  destruct r as [|y r']; [done|].
  rewrite <- app_comm_cons. change ((y :: r') ++ [s])%list with (y :: (r' ++ [s]))%list.
  rewrite join_cons. change (y :: (r' ++ [s]))%list with ((y :: r') ++ [s])%list.
  rewrite IH by done. rewrite join_cons.
  by rewrite append_assoc.
Qed.

Lemma join_nonempty l : Forall valid_name l → l ≠ [] → pystr.join sep l ≠ "".
Proof.
  intros Hall Hne. destruct l as [|x r]; [done|].
  apply Forall_cons in Hall as [(Hx & _) _].
  destruct r; simpl; [done|]. by destruct x.
Qed.

Lemma join_startswith l :
  Forall valid_name l → pystr.startswith sep (pystr.join sep l) = false.
Proof.
  intros Hall. destruct l as [|x r]; [done|].
  apply Forall_cons in Hall as [(Hx & _ & Hc) _].
  assert (pystr.startswith sep x = false) as Hs.
  { destruct (pystr.startswith sep x) eqn:E; [|done].
    apply startswith_contains in E. congruence. }
  destruct r; [done|]. rewrite join_cons. by rewrite startswith_app.
Qed.

Lemma join_endswith l :
  Forall valid_name l → pystr.endswith sep (pystr.join sep l) = false.
Proof.
  induction 1 as [|x r (Hx & _ & Hc) Hr IH]; [done|].
  destruct r as [|y r'].
  - simpl. destruct (pystr.endswith sep x) eqn:E; [|done].
    apply endswith_contains in E. congruence.
  - rewrite join_cons. rewrite endswith_app by done.
    assert (pystr.join sep (y :: r') ≠ "") as Hne by by apply join_nonempty.
    destruct (pystr.join sep (y :: r')) eqn:E; [done|]. exact IH.
Qed.

Lemma split_join_valid l :
  Forall valid_name l → l ≠ [] → pystr.split sep (pystr.join sep l) = l.
Proof.
  intros Hall Hne. apply split_join; [done|].
  eapply Forall_impl; [exact Hall|]. by intros x (_ & _ & ?).
Qed.

Lemma splitroot_plain b r :
  b ≠ "/"%char → posixpath.splitroot (String b r) = ("", String b r).
Proof.
  intros Hb.
  destruct b as [[] [] [] [] [] [] [] []]; try done.
Qed.

Lemma splitroot_anchor a x :
  anchor_ok a → pystr.startswith sep x = false →
  posixpath.splitroot (a +:+ x) = (a, x).
Proof.
  intros Ha Hx.
  assert (∀ y, pystr.startswith sep y = false → posixpath.splitroot y = ("", y)) as Hplain.
  { intros [|b r] Hy; [done|]. apply splitroot_plain. simpl in Hy.
    by apply bool_decide_eq_false in Hy. }
  destruct Ha as [->|[->| ->]]; simpl.
  - by apply Hplain.
  - destruct x as [|b r]; [done|]. simpl in Hx. apply bool_decide_eq_false in Hx.
    destruct b as [[] [] [] [] [] [] [] []]; try done.
  - destruct x as [|b r]; [done|]. simpl in Hx. apply bool_decide_eq_false in Hx.
    destruct b as [[] [] [] [] [] [] [] []]; try done.
Qed.

Lemma of_str_anchor_join a l :
  anchor_ok a → Forall valid_name l →
  of_str (a +:+ pystr.join sep l) = mkPath a l.
Proof.
  intros Ha Hl. unfold of_str.
  rewrite splitroot_anchor by (done || by apply join_startswith).
  f_equal. destruct l as [|x r]; [done|].
  rewrite split_join_valid by done. by apply filter_kept_valid.
Qed.

Lemma of_str_to_str p : wf p → of_str (to_str p) = p.
Proof.
  intros [Ha Hl]. destruct p as [a l]; simpl in *. unfold to_str; simpl.
  case_bool_decide as E; [|by apply of_str_anchor_join].
  destruct a; [|done]. destruct l as [|x r]; [done|].
  exfalso. by apply (join_nonempty (x :: r)).
Qed.

Lemma of_str_join_base a l s :
  anchor_ok a → Forall valid_name l → pystr.contains sep s = false →
  of_str (posixpath.join (a +:+ pystr.join sep l) s) = mkPath a (l ++ joined s).
Proof.
  intros Ha Hl Hs. unfold posixpath.join.
  assert (pystr.startswith sep s = false) as Hst.
  { destruct (pystr.startswith sep s) eqn:E; [|done].
    apply startswith_contains in E. congruence. }
  rewrite Hst.
  assert (of_str (a +:+ s) = mkPath a (joined s)) as Hroot.
  { unfold of_str. rewrite splitroot_anchor by done.
    by rewrite split_without. }
  destruct l as [|x r].
  - simpl. rewrite append_nil_r.
    destruct Ha as [->|[->| ->]]; simpl; try exact Hroot.
  - assert (a +:+ pystr.join sep (x :: r) ≠ "") as Hne.
    { intros E. destruct a; [|done]. simpl in E. by apply (join_nonempty (x :: r)). }
    rewrite bool_decide_eq_false_2 by done.
    rewrite endswith_app by by apply join_nonempty.
    rewrite join_endswith by done. simpl orb. cbv iota.
    rewrite append_assoc. unfold of_str.
    rewrite splitroot_anchor; [|done|].
    2:{ rewrite startswith_app by by apply join_nonempty. by apply join_startswith. }
    rewrite split_app, split_join_valid, split_without by done.
    f_equal. rewrite filter_app. by rewrite filter_kept_valid.
Qed.

Lemma to_str_cases p :
  wf p →
  (to_str p = anchor p +:+ pystr.join sep (names p)) ∨
  (to_str p = "." ∧ anchor p = "" ∧ names p = []).
Proof.
  intros [Ha Hl]. unfold to_str. case_bool_decide as E; [right|by left].
  split; [done|]. destruct (anchor p); [|done]. split; [done|].
  destruct (names p) as [|x r] eqn:En; [done|].
  exfalso. by apply (join_nonempty (x :: r)).
Qed.

Lemma of_str_join_dot s :
  pystr.contains sep s = false →
  of_str (posixpath.join "." s) = mkPath "" (joined s).
Proof.
  intros Hs. unfold posixpath.join.
  assert (pystr.startswith sep s = false) as Hst.
  { destruct (pystr.startswith sep s) eqn:E; [|done].
    apply startswith_contains in E. congruence. }
  rewrite Hst. simpl. unfold of_str. simpl.
  rewrite split_without by done. unfold joined.
  rewrite filter_cons_False; [done|]. intros [_ H]. done.
Qed.

(** [Path(os.path.join(str(p), s))] appends [s] to the names of [p]. *)
Lemma of_str_join p s :
  wf p → pystr.contains sep s = false →
  of_str (posixpath.join (to_str p) s) = mkPath (anchor p) (names p ++ joined s).
Proof.
  intros Hp Hs. destruct (to_str_cases p Hp) as [->|(-> & -> & ->)].
  - destruct Hp. by apply of_str_join_base.
  - by apply of_str_join_dot.
Qed.

Lemma joined_valid s : valid_name s → joined s = [s].
Proof. intros H. unfold joined. rewrite filter_cons_True; [done|]. by apply valid_name_kept. Qed.

(** [os.path.dirname(str(p))] is the string of the path without its
    last name, except that it is empty where that string is ["."]. *)
Lemma dirname_to_str p :
  wf p →
  posixpath.dirname (to_str p) = anchor p +:+ pystr.join sep (removelast (names p)).
Proof.
  intros Hp. pose proof Hp as [Ha Hl].
  destruct (to_str_cases p Hp) as [->|(-> & -> & ->)]; [|done].
  destruct (names p) as [|x r] eqn:En using rev_ind.
  - simpl. rewrite append_nil_r. by destruct Ha as [->|[->| ->]].
  - clear IHr. rewrite removelast_last.
    apply Forall_app in Hl as [Hr Hx]. apply Forall_singleton in Hx as (Hx1 & Hx2 & Hx3).
    destruct r as [|y r'].
    + simpl. rewrite append_nil_r. unfold posixpath.dirname.
      destruct Ha as [->|[->| ->]]; simpl.
      * by rewrite upto_last_without.
      * change ("" +:+ x) with x. rewrite Hx3. done.
      * change ("" +:+ x) with x. rewrite Hx3. done.
    + rewrite join_snoc by done. rewrite <- append_assoc.
      unfold posixpath.dirname. rewrite upto_last_app by done.
      set (h := anchor p +:+ pystr.join sep (y :: r')).
      assert (pystr.join sep (y :: r') ≠ "") as Hj by by apply join_nonempty.
      assert (h ≠ "") as Hh.
      { unfold h. destruct (anchor p); [done|done]. }
      assert (pystr.endswith sep h = false) as He.
      { unfold h. rewrite endswith_app by done. by apply join_endswith. }
      rewrite bool_decide_eq_false_2.
      2:{ destruct h; done. }
      rewrite all_eq_app. unfold h at 1. rewrite all_eq_app.
      assert (pystr.all_eq sep (pystr.join sep (y :: r')) = false) as ->.
      { apply Forall_cons in Hr as [(Hy1 & _ & Hy3) _].
        destruct r'; simpl.
        - by apply all_eq_without.
        - rewrite all_eq_app. rewrite all_eq_without by done. done. }
      rewrite andb_false_r. simpl. by apply rstrip_app_sep.
Qed.

(** The path [hide] builds: the directory of [p] joined with [s]. *)
Lemma of_str_join_dirname p s :
  wf p → pystr.contains sep s = false →
  of_str (posixpath.join (posixpath.dirname (to_str p)) s)
  = mkPath (anchor p) (removelast (names p) ++ joined s).
Proof.
  intros Hp Hs. rewrite dirname_to_str by done. destruct Hp as [Ha Hl].
  apply of_str_join_base; [done| |done].
  destruct (names p) as [|x r] eqn:En using rev_ind; [done|].
  rewrite removelast_last. by apply Forall_app in Hl as [? _].
Qed.

End paths.

(** * Properties of the disk *)

Section disk.
Import Disk.

Lemma find_app t p q :
  find t (p ++ q) = find t p ≫= λ n, find n q.
Proof.
  revert t. induction p as [|s r IH]; intros t; [done|]. simpl.
  destruct t as [|a m]; [done|]. destruct (m !! s); [apply IH|done].
Qed.

Lemma find_snoc t p s :
  find t (p ++ [s]) =
  match find t p with
  | Some (Dir _ m) => m !! s
  | _ => None
  end.
Proof.
  rewrite find_app. destruct (find t p) as [[|a m]|]; simpl; [done| |done].
  by destruct (m !! s).
Qed.

Lemma find_alter_at_under f p t q :
  find (alter_at f p t) (p ++ q) = find t p ≫= λ n, find (f n) q.
Proof.
  revert t. induction p as [|s r IH]; intros t; [done|]. simpl.
  destruct t as [|a m]; [done|]. simpl. rewrite lookup_alter_eq.
  destruct (m !! s) as [c|]; simpl; [apply IH|done].
Qed.

Lemma find_alter_at_above f p r t :
  find (alter_at f (p ++ r) t) p = alter_at f r <$> find t p.
Proof.
  revert t. induction p as [|s p IH]; intros t; [done|]. simpl.
  destruct t as [|a m]; [done|]. simpl. rewrite lookup_alter_eq.
  destruct (m !! s) as [c|]; simpl; [apply IH|done].
Qed.

Lemma find_alter_at_apart f p t q :
  ¬ p `prefix_of` q → ¬ q `prefix_of` p →
  find (alter_at f p t) q = find t q.
Proof.
  revert t q. induction p as [|s r IH]; intros t q Hpq Hqp.
  - exfalso. apply Hpq. apply prefix_nil.
  - destruct q as [|s' q]; [exfalso; apply Hqp, prefix_nil|].
    simpl. destruct t as [|a m]; [done|]. simpl.
    destruct (decide (s = s')) as [<-|Hne].
    + rewrite lookup_alter_eq. destruct (m !! s); simpl; [|done].
      apply IH; intros H; [apply Hpq|apply Hqp]; by apply prefix_cons.
    + by rewrite lookup_alter_ne.
Qed.

Lemma gmap_alter_alter {A} (f g : A → A) (s : string) (m : gmap string A) :
  alter f s (alter g s m) = alter (f ∘ g) s m.
Proof.
  apply map_eq. intros j. destruct (decide (s = j)) as [<-|Hne].
  - rewrite !lookup_alter_eq. by destruct (m !! s).
  - by rewrite !lookup_alter_ne.
Qed.

Lemma alter_at_compose f g p t :
  alter_at f p (alter_at g p t) = alter_at (f ∘ g) p t.
Proof.
  revert t. induction p as [|s r IH]; intros t; [done|]. simpl.
  destruct t as [|a m]; [done|]. simpl. f_equal.
  rewrite gmap_alter_alter. apply alter_ext. intros x _. apply IH.
Qed.

Lemma alter_at_id f p t :
  (∀ n, find t p = Some n → f n = n) → alter_at f p t = t.
Proof.
  revert t. induction p as [|s r IH]; intros t H; [by apply H|]. simpl.
  destruct t as [|a m]; [done|]. f_equal.
  rewrite <- (alter_id (alter_at f r) m s) at 2; [done|].
  intros x Hx. apply IH. intros n Hn. apply H. simpl. by rewrite Hx.
Qed.

Lemma alter_at_ext f g p t :
  (∀ n, find t p = Some n → f n = g n) → alter_at f p t = alter_at g p t.
Proof.
  revert t. induction p as [|s r IH]; intros t H; [by apply H|]. simpl.
  destruct t as [|a m]; [done|]. f_equal.
  apply alter_ext. intros x Hx. apply IH. intros n Hn. apply H. simpl. by rewrite Hx.
Qed.

Lemma is_dir_alter_at f r n :
  r ≠ [] → is_dir_node (alter_at f r n) = is_dir_node n.
Proof. destruct r; [done|]. by destruct n. Qed.

(** Changing an entry of a directory changes no kind outside that entry. *)
Lemma kind_at_set_entry dir s v t q :
  ¬ (dir ++ [s]) `prefix_of` q →
  kind_at (set_entry dir s v t) q = kind_at t q.
Proof.
  intros Hq. unfold kind_at, set_entry.
  destruct (decide (dir `prefix_of` q)) as [[r ->]|Hdq].
  - rewrite find_alter_at_under, find_app. destruct (find t dir) as [n|]; [|done]. simpl.
    destruct r as [|s' r'].
    + simpl. by destruct n.
    + destruct n as [|a m]; [done|]. simpl.
      rewrite lookup_partial_alter_ne; [done|].
      intros ->. apply Hq. apply prefix_app, prefix_cons, prefix_nil.
  - destruct (decide (q `prefix_of` dir)) as [[r ->]|Hqd].
    + rewrite find_alter_at_above. destruct (find t q) as [n|]; [|done]. simpl.
      f_equal. apply is_dir_alter_at. intros ->. apply Hdq. by rewrite app_nil_r.
    + by rewrite find_alter_at_apart.
Qed.

Lemma find_set_entry dir s v t a m r :
  find t dir = Some (Dir a m) →
  find (set_entry dir s v t) (dir ++ s :: r) = v ≫= λ n, find n r.
Proof.
  intros H. unfold set_entry. rewrite find_alter_at_under, H. simpl.
  rewrite lookup_partial_alter_eq. by destruct v.
Qed.

Lemma find_set_entry_other dir s v t q :
  ¬ (dir ++ [s]) `prefix_of` q → ¬ q `prefix_of` dir →
  find (set_entry dir s v t) q = find t q.
Proof.
  intros Hq Hqd. unfold set_entry.
  destruct (decide (dir `prefix_of` q)) as [[r ->]|Hdq].
  - rewrite find_alter_at_under. destruct (find t dir) as [n|] eqn:E.
    2:{ rewrite find_app, E. done. }
    rewrite find_app, E. simpl.
    destruct r as [|s' r']; [exfalso; apply Hqd; by rewrite app_nil_r|].
    destruct n as [|a m]; [done|]. simpl.
    rewrite lookup_partial_alter_ne; [done|].
    intros ->. apply Hq. apply prefix_app, prefix_cons, prefix_nil.
  - by apply find_alter_at_apart.
Qed.

Lemma kind_at_clear_dir c t q :
  (c `prefix_of` q → q = c) →
  kind_at (clear_dir c t) q = kind_at t q.
Proof.
  intros Hq. unfold kind_at, clear_dir.
  destruct (decide (c `prefix_of` q)) as [Hcq|Hcq].
  - rewrite (Hq Hcq).
    pose proof (find_alter_at_under
      (λ d, match d with Dir a _ => Dir a ∅ | File _ _ => d end) c t []) as H.
    rewrite app_nil_r in H. rewrite H.
    by destruct (find t c) as [[|a m]|].
  - destruct (decide (q `prefix_of` c)) as [[r ->]|Hqd].
    + rewrite find_alter_at_above. destruct (find t q) as [n|]; [|done]. simpl.
      f_equal. apply is_dir_alter_at. intros ->. apply Hcq. by rewrite app_nil_r.
    + by rewrite find_alter_at_apart.
Qed.

Lemma find_clear_dir c t a m :
  find t c = Some (Dir a m) → find (clear_dir c t) c = Some (Dir a ∅).
Proof.
  intros H. unfold clear_dir.
  pose proof (find_alter_at_under
    (λ d, match d with Dir a _ => Dir a ∅ | File _ _ => d end) c t []) as H'.
  rewrite app_nil_r in H'. by rewrite H', H.
Qed.

Lemma find_clear_dir_under c t a m s r :
  find t c = Some (Dir a m) → find (clear_dir c t) (c ++ s :: r) = None.
Proof.
  intros H. unfold clear_dir. rewrite find_alter_at_under, H. done.
Qed.

(** *** Path resolution *)

Lemma walk_app t cur l1 l2 :
  walk t cur (l1 ++ l2) =
  match walk t cur l1 with
  | Ok c => walk t c l2
  | Raise e => Raise e
  end.
Proof.
  revert cur. induction l1 as [|s r IH]; intros cur; [done|]. simpl.
  destruct (find t cur) as [[|a m]|]; [done| |done]. apply IH.
Qed.

Lemma walk_snoc t cur l s :
  walk t cur (l ++ [s]) =
  match walk t cur l with
  | Ok c =>
      match find t c with
      | None => Raise FileNotFoundError
      | Some (File _ _) => Raise NotADirectoryError
      | Some (Dir _ _) => Ok (if bool_decide (s = "..") then removelast c else c ++ [s])
      end
  | Raise e => Raise e
  end.
Proof. rewrite walk_app. by destruct (walk t cur l). Qed.

Lemma walk_plain t cur segs c :
  ".." ∉ segs → walk t cur segs = Ok c → c = cur ++ segs.
Proof.
  revert cur. induction segs as [|s r IH]; intros cur Hn H; simpl in *.
  - rewrite app_nil_r. congruence.
  - destruct (find t cur) as [[|a m]|]; [done| |done].
    apply not_elem_of_cons in Hn as [Hs Hr].
    rewrite bool_decide_eq_false_2 in H by done.
    apply IH in H; [|done]. by rewrite <- app_assoc in H.
Qed.

(** Resolution only looks at the kinds of the directories it passes. *)
Lemma walk_kind_ext t t' cur segs :
  ".." ∉ segs →
  (∀ k, k < length segs → kind_at t' (cur ++ take k segs) = kind_at t (cur ++ take k segs)) →
  walk t' cur segs = walk t cur segs.
Proof.
  revert cur. induction segs as [|s r IH]; intros cur Hn H; [done|]. simpl.
  apply not_elem_of_cons in Hn as [Hs Hr].
  pose proof (H 0 ltac:(simpl; lia)) as H0. simpl in H0. rewrite app_nil_r in H0.
  unfold kind_at in H0.
  rewrite bool_decide_eq_false_2 by done.
  assert (walk t' (cur ++ [s]) r = walk t (cur ++ [s]) r) as Hrec.
  { apply IH; [done|]. intros k Hk. specialize (H (S k) ltac:(simpl; lia)).
    simpl in H. by rewrite <- !app_assoc. }
  destruct (find t' cur) as [[|a' m']|], (find t cur) as [[|a m]|]; simpl in H0; try done.
Qed.

Lemma prefix_length_lt {A} (x q : list A) : length q < length x → ¬ x `prefix_of` q.
Proof. intros Hlt Hp. apply prefix_length in Hp. lia. Qed.

End disk.

(** * Running statements *)

Lemma runs_eq {A} (c : M A) st r st' : runs c st (λ r' s', r' = r ∧ s' = st') → c st = (r, st').
Proof. unfold runs. destruct (c st). simpl. by intros [-> ->]. Qed.

Lemma runs_of_eq {A} (c : M A) st r st' Q : c st = (r, st') → Q r st' → runs c st Q.
Proof. unfold runs. by intros ->. Qed.

Lemma runs_bind {A B} (c : M A) (k : A → M B) st Q :
  runs c st (λ r st', match r with
                      | Ok a => runs (k a) st' Q
                      | Raise e => Q (Raise e) st'
                      end) →
  runs (bind c k) st Q.
Proof. unfold runs, bind. by destruct (c st) as [[a|e] st']. Qed.

Lemma runs_ret {A} (a : A) st Q : Q (Ok a) st → runs (ret a) st Q.
Proof. done. Qed.

Lemma runs_raise {A} e st (Q : result A → State → Prop) : Q (Raise e) st → runs (raise e) st Q.
Proof. done. Qed.

Lemma runs_gets {A} (f : State → A) st Q : Q (Ok (f st)) st → runs (gets f) st Q.
Proof. done. Qed.

Lemma runs_modify f st Q : Q (Ok tt) (f st) → runs (modify f) st Q.
Proof. done. Qed.

Lemma runs_lift {A} (r : result A) st Q : Q r st → runs (lift r) st Q.
Proof. done. Qed.

Lemma runs_the self st o Q :
  store st !! self = Some o → Q (Ok o) st → runs (the self) st Q.
Proof. intros H HQ. unfold runs, the. by rewrite H. Qed.

Lemma the_eq self st o : store st !! self = Some o → the self st = (Ok o, st).
Proof. intros H. unfold the. by rewrite H. Qed.

Lemma runs_update self f st Q :
  Q (Ok tt) (set_store (alter f self (store st)) st) → runs (update self f) st Q.
Proof. done. Qed.

Lemma alter_insert_same {A} (f : A → A) (l : list A) i x :
  alter f i (<[i := x]> l) = <[i := f x]> l.
Proof.
  revert i. induction l as [|y l IH]; intros [|i]; simpl; try done.
  f_equal. apply IH.
Qed.

Lemma insert_insert_same {A} (l : list A) i x y :
  <[i := x]> (<[i := y]> l) = <[i := x]> l.
Proof.
  revert i. induction l as [|z l IH]; intros [|i]; simpl; try done.
  f_equal. apply IH.
Qed.

Lemma lookup_insert_same {A} (l : list A) i x :
  i < length l → <[i := x]> l !! i = Some x.
Proof. apply list_lookup_insert_eq. Qed.

Ltac norm_state :=
  unfold set_fs, set_store, set_root, set_created_instances, set_observers,
    set_stdout, set_waited;
  cbn [fs windows store root created_instances observers stdout waited];
  rewrite ?alter_insert_same, ?insert_insert_same.

Ltac norm_obj :=
  unfold set_path, set_name, set_was_detected, set_is_dir, set_parent,
    set_protected, set_is_root, set_create_wrappers, set_ext, set_indexed,
    set_directory;
  cbn [class_of _path _name _was_detected _is_dir _parent _protected _is_root
       create_wrappers _ext _indexed _directory].

Ltac step :=
  lazymatch goal with
  | |- runs (bind _ _) _ _ => apply runs_bind
  | |- runs (ret _) _ _ => apply runs_ret
  | |- runs (raise _) _ _ => apply runs_raise
  | |- runs (gets _) _ _ => apply runs_gets; norm_state
  | |- runs (modify _) _ _ => apply runs_modify; norm_state
  | |- runs (lift _) _ _ => apply runs_lift
  | |- runs (update _ _) _ _ => apply runs_update; norm_state; norm_obj
  | |- runs (the _) _ _ =>
      eapply runs_the;
      [norm_state; first [eassumption | apply lookup_insert_same; assumption]|]
  | |- runs (path _) _ _ => unfold path
  | |- runs (name _) _ _ => unfold name
  | |- runs (dirpath _) _ _ => unfold dirpath
  | |- runs (path_exists _) _ _ => unfold path_exists
  | |- runs (path_is_dir _) _ _ => unfold path_is_dir
  | |- runs (print _) _ _ => unfold print
  | |- runs (assert true _) _ _ => apply runs_ret
  | |- runs (assert false _) _ _ => apply runs_raise
  end.

Ltac steps := repeat (step; norm_obj).

Lemma alter_lookup_insert {A} (f : A → A) (l : list A) i x :
  l !! i = Some x → alter f i l = <[i := f x]> l.
Proof.
  revert i. induction l as [|y l IH]; intros [|i] H; simplify_eq/=; [done|].
  f_equal. by apply IH.
Qed.

Ltac norm_store :=
  repeat match goal with
  | H : store ?st !! ?s = Some _ |- context [alter _ ?s (store ?st)] =>
      rewrite (alter_lookup_insert _ _ _ _ H)
  end.

Ltac steps' := repeat (step; norm_store; norm_state; norm_obj).

Lemma init_detect_ok self given par st o p :
  store st !! self = Some o →
  parse_path par given = Ok p →
  parent_ok (fs st) par = true →
  validates (class_of o) (fs st) p = true →
  init_detect self given par st = (Ok tt, detected self p o st).
Proof.
  intros Ho Hp Hpar Hv. apply runs_eq.
  assert (self < length (store st)) as Hlt by by eapply lookup_lt_Some.
  unfold init_detect. step.
  apply (runs_of_eq _ _ (Ok tt) st).
  { destruct par as [x|]; [|done]. unfold parent_ok in Hpar.
    destruct (truthy (Some x)); [|done]. simpl in Hpar.
    apply runs_eq. steps'. unfold dir_on_disk in Hpar. rewrite Hpar. by step. }
  rewrite Hp. steps'.
  apply (runs_of_eq _ _ (Ok tt)
    (mkState (fs st) (windows st)
       (<[self := mkObject (class_of o) p (pathlib.name p) (on_disk (fs st) p)
                    (dir_on_disk (fs st) p) (_parent o) (_protected o) (_is_root o)
                    (create_wrappers o) (_ext o) (_indexed o) (_directory o)]> (store st))
       (match root st with None => Some self | Some r => Some r end)
       (created_instances st) (observers st) (stdout st) (waited st))).
  { by destruct (root st). }
  steps'. unfold __params__. steps'.
  unfold detected, detect_object, validate_prints, validates in *.
  unfold __validate__, JSON_validate, File_validate, Folder_validate.
  destruct (class_of o) eqn:Hc; cbn [is_File andb] in *; steps'.
  - by rewrite app_nil_r.
  - destruct (on_disk (fs st) p); simpl in Hv; [rewrite Hv|]; steps'.
    all: by rewrite app_nil_r.
  - case_bool_decide as He; cbn [negb]; steps'.
    all: destruct (on_disk (fs st) p); simpl in Hv;
      [apply negb_true_iff in Hv; rewrite Hv|]; cbn [negb]; steps'.
    all: by rewrite ?app_nil_r.
  - apply andb_true_iff in Hv as [Hv Hj].
    case_bool_decide as He; cbn [negb]; steps'.
    all: destruct (on_disk (fs st) p); simpl in Hv;
      [apply negb_true_iff in Hv; rewrite Hv|]; cbn [negb]; steps'.
    all: rewrite Hj; steps'.
    all: by rewrite ?app_nil_r.
Qed.

Lemma delete_path_eq p st :
  delete_path p st =
  ((delete_on_disk (fs st) p).1, set_fs (delete_on_disk (fs st) p).2 st).
Proof.
  unfold delete_path, delete_on_disk, absolute, bind, path_is_dir, gets, path_absolute,
    dir_on_disk, rmtree, os_remove, syscall, ret.
  destruct st as [d w s r ci ob so wa]; cbn [fs].
  destruct (match Disk.stat d p with Ok (_, n) => Disk.is_dir_node n | Raise _ => false end);
    destruct (pathlib.is_absolute p); cbn [fs set_fs];
    try destruct (Disk.cwd d); cbn [fs set_fs]; try done.
  all: try by destruct (Disk.rmtree _ _).
  all: by destruct (Disk.unlink _ _).
Qed.

Lemma rm_eq self st o :
  store st !! self = Some o →
  rm self st =
  if _protected o then (Raise (PermissionError ""), st)
  else ((delete_on_disk (fs st) (_path o)).1,
        set_fs (delete_on_disk (fs st) (_path o)).2 st).
Proof.
  intros Ho. unfold rm, bind. rewrite (the_eq _ _ _ Ho).
  destruct (_protected o); [done|]. unfold path, bind. rewrite (the_eq _ _ _ Ho).
  unfold ret. apply delete_path_eq.
Qed.

Lemma create_eq self st o :
  store st !! self = Some o →
  __create__ self st =
  let st1 := set_created_instances
               (created_instances st ++ replicate (create_wrappers o) (_path o)) st in
  ((create_on_disk (class_of o) (fs st) (_path o)).1,
   set_fs (create_on_disk (class_of o) (fs st) (_path o)).2 st1).
Proof.
  intros Ho. apply runs_eq. unfold __create__, class_create. steps'.
  destruct (class_of o); steps'; unfold create_on_disk.
  - done.
  - unfold os_mkdir, syscall, runs. cbn [fs].
    by destruct (Disk.mkdir (fs st) (_path o)).
  - unfold open_w_close, syscall, runs. cbn [fs].
    by destruct (Disk.create_truncate (fs st) (_path o)).
  - unfold open_w_close, syscall, runs. cbn [fs].
    by destruct (Disk.create_truncate (fs st) (_path o)).
Qed.

Lemma reconcile_eq self mode st o :
  store st !! self = Some o → _protected o = false →
  reconcile self mode st =
  match table mode (_was_detected o) with
  | Fail e => (Raise e, st)
  | Do acts =>
      let out := perform_all (class_of o) (_path o) (create_wrappers o) acts
                   (fs st, created_instances st) in
      (out.1, set_created_instances out.2.2 (set_fs out.2.1 st))
  end.
Proof.
  intros Ho Hprot. unfold reconcile, bind. rewrite (the_eq _ _ _ Ho).
  assert (∀ st', store st' = store st →
    __create__ self st' =
    ((create_on_disk (class_of o) (fs st') (_path o)).1,
     set_fs (create_on_disk (class_of o) (fs st') (_path o)).2
       (set_created_instances
          (created_instances st' ++ replicate (create_wrappers o) (_path o)) st')))
    as Hcreate.
  { intros st' Hst. apply create_eq. by rewrite Hst. }
  destruct mode, (_was_detected o) eqn:E; cbn [negb table perform_all perform fst snd];
    try done.
  all: try by destruct st.
  all: try (rewrite Hcreate by done;
            destruct (create_on_disk _ _ _) as [[[]|] ?]; cbn [fst snd];
            by destruct st).
  rewrite (rm_eq _ _ _ Ho), Hprot.
  destruct (delete_on_disk (fs st) (_path o)) as [[[]|e] d1]; cbn [fst snd]; [|by destruct st].
  rewrite Hcreate by done. cbn [fs set_fs created_instances].
  { destruct (create_on_disk _ _ _) as [[[]|] ?]; cbn [fst snd]; by destruct st. }
  unfold ret. rewrite Hcreate by done.
  destruct (create_on_disk _ _ _) as [[[]|] ?]; cbn [fst snd]; by destruct st.
Qed.

Lemma init_finish_eq self st o r ro :
  store st !! self = Some o → root st = Some r → store st !! r = Some ro →
  init_finish self st =
  match Disk.samefile (fs st) (_path o) (_path ro) with
  | Ok b => (Ok tt, finished self b o st)
  | Raise e => (Raise e, st)
  end.
Proof.
  intros Ho Hr Hro. 
  assert (self < length (store st)) as Hlt by by eapply lookup_lt_Some.
  destruct (Disk.samefile (fs st) (_path o) (_path ro)) as [b|e] eqn:Es;
    apply runs_eq; unfold init_finish; steps'; rewrite Hr; steps'.
  - unfold os_path_samefile. apply (runs_of_eq _ _ (Ok b) st); [by rewrite Es|].
    steps'. unfold __configure__, _activate_listener, finished, configure_object. steps'.
    destruct (class_of o) eqn:Hc; steps'; rewrite ?app_nil_r; done.
  - unfold os_path_samefile. apply (runs_of_eq _ _ (Raise e) st); [by rewrite Es|]. done.
Qed.

Lemma init_eq self given mode par st o p rp :
  store st !! self = Some o →
  parse_path par given = Ok p →
  parent_ok (fs st) par = true →
  validates (class_of o) (fs st) p = true →
  root_path_for self st p = Some rp →
  __init__ self given mode par st = init_outcome self mode p rp o st.
Proof.
  intros Ho Hp Hpar Hv Hrp.
  assert (self < length (store st)) as Hlt by by eapply lookup_lt_Some.
  unfold __init__, init_outcome. unfold bind at 1.
  rewrite (init_detect_ok _ _ _ _ _ _ Ho Hp Hpar Hv).
  set (o1 := detect_object p (on_disk (fs st) p) (dir_on_disk (fs st) p) o).
  set (st1 := detected self p o st).
  assert (store st1 !! self = Some o1) as Ho1.
  { unfold st1, detected. cbn [store]. by apply lookup_insert_same. }
  unfold bind. rewrite (reconcile_eq _ _ _ _ Ho1) by done.
  change (_was_detected o1) with (on_disk (fs st) p).
  change (class_of o1) with (class_of o).
  change (_path o1) with p.
  change (create_wrappers o1) with (S (create_wrappers o)).
  change (fs st1) with (fs st). change (created_instances st1) with (created_instances st).
  destruct (table mode (on_disk (fs st) p)) as [e|acts]; [done|].
  cbv zeta.
  set (out := perform_all (class_of o) p (S (create_wrappers o)) acts
                (fs st, created_instances st)).
  destruct out.1 as [[]|e] eqn:Eout; [|done].
  set (st2 := set_created_instances out.2.2 (set_fs out.2.1 st1)).
  assert (store st2 !! self = Some o1) as Ho2 by done.
  unfold root_path_for in Hrp.
  destruct (root st) as [r|] eqn:Er.
  - assert (root st2 = Some r) as Hr2 by (unfold st2, st1, detected; cbn; by rewrite Er).
    case_bool_decide as Hrs.
    + subst r. injection Hrp as <-.
      rewrite (init_finish_eq _ _ _ _ _ Ho2 Hr2 Ho2). done.
    + destruct (store st !! r) as [ro|] eqn:Ero; [|done]. injection Hrp as <-.
      assert (store st2 !! r = Some ro) as Hro2.
      { unfold st2, st1, detected. cbn [store set_created_instances set_fs].
        by rewrite list_lookup_insert_ne. }
      rewrite (init_finish_eq _ _ _ _ _ Ho2 Hr2 Hro2). done.
  - injection Hrp as <-.
    assert (root st2 = Some self) as Hr2 by (unfold st2, st1, detected; cbn; by rewrite Er).
    rewrite (init_finish_eq _ _ _ _ _ Ho2 Hr2 Ho2). done.
Qed.

Lemma split_pieces c s : Forall (λ x, pystr.contains c x = false) (pystr.split c s).
Proof.
  induction s as [|a r IH]; simpl; [by constructor|].
  case_bool_decide as Ha.
  - by constructor.
  - destruct (pystr.split c r) as [|h t]; [by constructor; [simpl; rewrite bool_decide_eq_false_2|]|].
    apply Forall_cons in IH as [Hh Ht]. constructor; [|done].
    simpl. by rewrite bool_decide_eq_false_2.
Qed.

Lemma splitroot_slash b r :
  b ≠ "/"%char → posixpath.splitroot (String "/" (String b r)) = ("/", String b r).
Proof. intros Hb. destruct b as [[] [] [] [] [] [] [] []]; try done. Qed.

Lemma splitroot_slash2 b r :
  b ≠ "/"%char →
  posixpath.splitroot (String "/" (String "/" (String b r))) = ("//", String b r).
Proof. intros Hb. destruct b as [[] [] [] [] [] [] [] []]; try done. Qed.

Lemma splitroot_anchor_ok s : anchor_ok (posixpath.splitroot s).1.
Proof.
  destruct s as [|a s1]; [by left|].
  destruct (decide (a = "/"%char)) as [->|Ha]; [|rewrite splitroot_plain by done; by left].
  destruct s1 as [|b s2]; [right; by left|].
  destruct (decide (b = "/"%char)) as [->|Hb]; [|rewrite splitroot_slash by done; right; by left].
  destruct s2 as [|c s3]; [right; by right|].
  destruct (decide (c = "/"%char)) as [->|Hc]; [right; by left|].
  rewrite splitroot_slash2 by done. right; by right.
Qed.

Lemma of_str_wf s : pathlib.wf (pathlib.of_str s).
Proof.
  unfold pathlib.of_str. pose proof (splitroot_anchor_ok s) as Ha.
  destruct (posixpath.splitroot s) as [r rel]. split; [exact Ha|]. simpl.
  apply Forall_forall. intros x [Hk Hx]%list_elem_of_filter.
  destruct Hk as [H1 H2]. split; [done|]. split; [done|].
  pose proof (split_pieces posixpath.sep rel) as Hall.
  rewrite Forall_forall in Hall. by apply Hall.
Qed.

Lemma to_str_single s : pathlib.valid_name s → pathlib.to_str (mkPath "" [s]) = s.
Proof.
  intros (Hs & _). unfold pathlib.to_str. simpl.
  rewrite bool_decide_eq_false_2; [done|]. by destruct s.
Qed.

Lemma ensure_path_wf_str s : pathlib.wf (ensure_path (PStr s)).
Proof. apply of_str_wf. Qed.

(** * Path resolution ([parse_path]) *)

(** Claim C5, as the code has it: without a parent, [parse_path]
    returns the given path as [ensure_path] made it, unchanged and not
    made absolute; with a parent, a given path whose number of parts is
    not one is refused with an [AssertionError], and a given path of one
    part yields the parent's path joined with it: the part appended to
    the parent, or the given path itself where its one part is a
    root. *)
Theorem parse_path_resolves (par : option pathlike) (given : pathlike) :
  pathlib.wf (ensure_path given) →
  (∀ x, par = Some x → pathlib.wf (ensure_path x)) →
  parse_path par given =
  match par with
  | None => Ok (ensure_path given)
  | Some x =>
      if bool_decide (length (pathlib.parts (ensure_path given)) = 1)
      then Ok (joinpath (ensure_path x) (ensure_path given))
      else Raise (AssertionError
                    "When using parent-child pathing, child length must be one.")
  end.
Proof.
  intros Hg Hp. unfold parse_path. destruct par as [x|]; [|done].
  specialize (Hp x eq_refl). cbv zeta.
  destruct (bool_decide (length (pathlib.parts (ensure_path given)) = 1)) eqn:Hlen. 2:{ done. }
  apply bool_decide_eq_true in Hlen. f_equal.
  destruct (ensure_path given) as [a l]. destruct Hg as [Ha Hl].
  unfold joinpath, pathlib.is_absolute, pathlib.parts in *.
  cbn [anchor names] in *.
  case_bool_decide as Hanc; cbn [negb].
  - subst a. destruct l as [|s [|]]; simpl in Hlen; try done.
    apply Forall_inv in Hl.
    rewrite to_str_single by done.
    rewrite of_str_join; [|done|apply Hl].
    by rewrite joined_valid.
  - destruct l; simpl in Hlen; [|done].
    destruct Ha as [->|[->| ->]]; done.
Qed.

(** The theorem at the parent ["/home/u"] and the name ["a.txt"]. *)
Lemma parse_path_resolves_witness :
  parse_path (Some (PStr "/home/u")) (PStr "a.txt")
  = Ok (mkPath "/" ["home"; "u"; "a.txt"]).
Proof.
  rewrite (parse_path_resolves (Some (PStr "/home/u")) (PStr "a.txt")).
  - vm_compute. reflexivity.
  - apply ensure_path_wf_str.
  - intros x [= <-]. apply ensure_path_wf_str.
Defined.

(** Claim C5 as stated fails, in each of its three parts.  Without a
    parent, the relative path ["foo"] is returned as it is, not as an
    absolute path.  Under a parent, what is refused is not a value with
    a separator: ["a/"] and ["./a"] hold one and are accepted, as the
    part [a], while [""] and ["."] hold none and are refused, having no
    part.  And the result is not always below the parent: ["/"] has one
    part, is accepted, and [os.path.join] returns it in place of the
    parent. *)
Lemma parse_path_not_absolute :
  ¬ (∀ given p, parse_path None given = Ok p → pathlib.is_absolute p = true) ∧
  (pystr.contains posixpath.sep "a/" = true ∧
   parse_path (Some (PStr "/home/u")) (PStr "a/") = Ok (mkPath "/" ["home"; "u"; "a"])) ∧
  (pystr.contains posixpath.sep "./a" = true ∧
   parse_path (Some (PStr "/home/u")) (PStr "./a") = Ok (mkPath "/" ["home"; "u"; "a"])) ∧
  (pystr.contains posixpath.sep "." = false ∧
   parse_path (Some (PStr "/home/u")) (PStr ".")
   = Raise (AssertionError "When using parent-child pathing, child length must be one.")) ∧
  (pystr.contains posixpath.sep "" = false ∧
   parse_path (Some (PStr "/home/u")) (PStr "")
   = Raise (AssertionError "When using parent-child pathing, child length must be one.")) ∧
  parse_path (Some (PStr "/home/u")) (PStr "/") = Ok (mkPath "/" []).
Proof.
  split.
  - intros H. specialize (H (PStr "foo") _ eq_refl). vm_compute in H. discriminate.
  - vm_compute. by repeat split.
Qed.

(** * Construction *)

Lemma split_last_Some (c d : list string) s :
  Disk.split_last c = Some (d, s) → c = d ++ [s].
Proof.
  unfold Disk.split_last. destruct (last c) as [x|] eqn:E; [|done].
  intros [= <- <-]. destruct c as [|y r] using rev_ind; [done|].
  rewrite last_snoc in E. injection E as <-. by rewrite removelast_last.
Qed.

Lemma split_last_snoc (d : list string) s : Disk.split_last (d ++ [s]) = Some (d, s).
Proof. unfold Disk.split_last. by rewrite last_snoc, removelast_last. Qed.

(** Resolution succeeds all the same when directories stay directories. *)
Lemma walk_mono t t' cur segs c :
  (∀ q, kind_at t q = Some true → kind_at t' q = Some true) →
  Disk.walk t cur segs = Ok c → Disk.walk t' cur segs = Ok c.
Proof.
  intros Hk. revert cur. induction segs as [|s r IH]; intros cur H; [done|].
  simpl in *. destruct (Disk.find t cur) as [[|a m]|] eqn:E; try done.
  assert (kind_at t' cur = Some true) as Hc by (apply Hk; unfold kind_at; by rewrite E).
  unfold kind_at in Hc. destruct (Disk.find t' cur) as [[|a' m']|]; try done.
  by apply IH.
Qed.

Lemma find_None_under t c r : Disk.find t c = None → Disk.find t (c ++ r) = None.
Proof. intros H. by rewrite find_app, H. Qed.

Lemma resolve_set_entry_new d dir s v p c :
  Disk.find (Disk.tree d) (dir ++ [s]) = None →
  Disk.resolve d p = Ok c →
  Disk.resolve (Disk.mkDisk (Disk.set_entry dir s v (Disk.tree d)) (Disk.cwd d)) p = Ok c.
Proof.
  intros Hn. unfold Disk.resolve. cbn [Disk.tree Disk.cwd].
  assert (∀ q, kind_at (Disk.tree d) q = Some true →
               kind_at (Disk.set_entry dir s v (Disk.tree d)) q = Some true) as Hk.
  { intros q Hq. rewrite kind_at_set_entry; [done|].
    intros [r ->]. unfold kind_at in Hq. by rewrite find_None_under in Hq. }
  destruct (pathlib.is_absolute p); [by apply walk_mono|].
  destruct (Disk.cwd d); [by apply walk_mono|done].
Qed.

Lemma mkdir_creates d p d' :
  Disk.mkdir d p = Ok d' → ∃ q, Disk.stat d' p = Ok (q, Disk.Dir 0 ∅).
Proof.
  unfold Disk.mkdir. destruct (Disk.resolve d p) as [q|] eqn:Er; [|done].
  destruct (Disk.find (Disk.tree d) q) eqn:Ef; [done|].
  destruct (Disk.split_last q) as [[dir s]|] eqn:Es; [|done].
  apply split_last_Some in Es as ->.
  destruct (Disk.find (Disk.tree d) dir) as [[|a m]|] eqn:Ed; try done.
  intros [= <-]. exists (dir ++ [s]).
  unfold Disk.stat. rewrite (resolve_set_entry_new _ _ _ _ _ _ Ef Er).
  cbn [Disk.tree]. by rewrite (find_set_entry _ _ _ _ _ _ [] Ed).
Qed.

Lemma create_truncate_creates d p d' :
  Disk.create_truncate d p = Ok d' → ∃ q a, Disk.stat d' p = Ok (q, Disk.File a "").
Proof.
  unfold Disk.create_truncate. destruct (Disk.resolve d p) as [q|] eqn:Er; [|done].
  destruct (Disk.find (Disk.tree d) q) as [[a0 dat|]|] eqn:Ef; [| |].
  - destruct (Disk.split_last q) as [[dir s]|] eqn:Es; [|done].
    apply split_last_Some in Es as ->. intros [= <-].
    exists (dir ++ [s]), a0.
    rewrite find_snoc in Ef.
    destruct (Disk.find (Disk.tree d) dir) as [[|a m]|] eqn:Ed; try done.
    unfold Disk.stat.
    assert (Disk.resolve (Disk.mkDisk (Disk.set_entry dir s (Some (Disk.File a0 ""))
              (Disk.tree d)) (Disk.cwd d)) p = Ok (dir ++ [s])) as ->.
    { revert Er. unfold Disk.resolve. cbn [Disk.tree Disk.cwd].
      assert (∀ q, kind_at (Disk.tree d) q = Some true →
        kind_at (Disk.set_entry dir s (Some (Disk.File a0 "")) (Disk.tree d)) q = Some true)
        as Hk.
      { intros q Hq. rewrite kind_at_set_entry; [done|].
        intros [r ->]. unfold kind_at in Hq. rewrite <- app_assoc, find_app, Ed in Hq.
        simpl in Hq. rewrite Ef in Hq. by destruct r. }
      destruct (pathlib.is_absolute p); [by apply walk_mono|].
      destruct (Disk.cwd d); [by apply walk_mono|done]. }
    cbn [Disk.tree]. by rewrite (find_set_entry _ _ _ _ _ _ [] Ed).
  - by destruct (Disk.split_last q) as [[? ?]|].
  - destruct (Disk.split_last q) as [[dir s]|] eqn:Es; [|done].
    apply split_last_Some in Es as ->.
    destruct (Disk.find (Disk.tree d) dir) as [[|a m]|] eqn:Ed; try done.
    intros [= <-]. exists (dir ++ [s]), 0%Z.
    unfold Disk.stat. rewrite (resolve_set_entry_new _ _ _ _ _ _ Ef Er).
    cbn [Disk.tree]. by rewrite (find_set_entry _ _ _ _ _ _ [] Ed).
Qed.

(** A successful [__create__] leaves an empty directory or an empty
    file at the path, as the class has it. *)
Lemma create_on_disk_creates c d p d' :
  create_on_disk c d p = (Ok tt, d') →
  on_disk d' p = true ∧ dir_on_disk d' p = bool_decide (c = Folder).
Proof.
  unfold create_on_disk, on_disk, dir_on_disk. destruct c; [done| | |].
  - destruct (Disk.mkdir d p) as [d1|] eqn:E; [|done]. intros [= <-].
    apply mkdir_creates in E as [q ->]. done.
  - destruct (Disk.create_truncate d p) as [d1|] eqn:E; [|done]. intros [= <-].
    apply create_truncate_creates in E as (q & a & ->). done.
  - destruct (Disk.create_truncate d p) as [d1|] eqn:E; [|done]. intros [= <-].
    apply create_truncate_creates in E as (q & a & ->). done.
Qed.

Lemma new_eq c given mode par st p rp :
  parse_path par given = Ok p →
  parent_ok (fs st) par = true →
  validates c (fs st) p = true →
  root_path_for (length (store st)) st p = Some rp →
  new c given mode par st =
  let self := length (store st) in
  let out := init_outcome self mode p rp (blank c) (set_store (store st ++ [blank c]) st) in
  (match out.1 with Ok _ => Ok self | Raise e => Raise e end, out.2).
Proof.
  intros Hp Hpar Hv Hrp. unfold new, bind at 1, allocate.
  set (self := length (store st)). set (sta := set_store (store st ++ [blank c]) st).
  assert (store sta !! self = Some (blank c)) as Ho.
  { unfold sta, self. cbn [store set_store]. by rewrite lookup_app_r, Nat.sub_diag. }
  assert (root_path_for self sta p = Some rp) as Hrp'.
  { revert Hrp. unfold root_path_for, sta. cbn [root store set_store]. fold self.
    destruct (root st) as [r|]; [|done]. case_bool_decide; [done|].
    destruct (decide (r < self)) as [Hlt|Hge].
    - by rewrite lookup_app_l.
    - rewrite (lookup_ge_None_2 (store st)) by (unfold self in *; lia). done. }
  unfold bind. rewrite (init_eq self given mode par sta (blank c) p rp) by done.
  cbv zeta. by destruct (init_outcome self mode p rp (blank c) sta) as [[[]|e] st'].
Qed.

(** When [__validate__] rejects the path, [init_detect] raises its
    [AssertionError]; the disk has only been read. *)
Lemma init_detect_refuses self given par st o p :
  store st !! self = Some o →
  parse_path par given = Ok p →
  parent_ok (fs st) par = true →
  validates (class_of o) (fs st) p = false →
  ∃ msg st', init_detect self given par st = (Raise (AssertionError msg), st') ∧
             fs st' = fs st ∧ created_instances st' = created_instances st.
Proof.
  intros Ho Hp Hpar Hv.
  assert (self < length (store st)) as Hlt by by eapply lookup_lt_Some.
  enough (runs (init_detect self given par) st
            (λ r st', (∃ msg, r = Raise (AssertionError msg)) ∧
                      fs st' = fs st ∧ created_instances st' = created_instances st)) as H.
  { unfold runs in H. destruct (init_detect self given par st) as [r st']. simpl in H.
    destruct H as ([msg ->] & ? & ?). by exists msg, st'. }
  unfold init_detect. step.
  apply (runs_of_eq _ _ (Ok tt) st).
  { destruct par as [x|]; [|done]. unfold parent_ok in Hpar.
    destruct (truthy (Some x)); [|done]. simpl in Hpar.
    apply runs_eq. steps'. unfold dir_on_disk in Hpar. rewrite Hpar. by step. }
  rewrite Hp. steps'.
  apply (runs_of_eq _ _ (Ok tt)
    (mkState (fs st) (windows st)
       (<[self := mkObject (class_of o) p (pathlib.name p) (on_disk (fs st) p)
                    (dir_on_disk (fs st) p) (_parent o) (_protected o) (_is_root o)
                    (create_wrappers o) (_ext o) (_indexed o) (_directory o)]> (store st))
       (match root st with None => Some self | Some r => Some r end)
       (created_instances st) (observers st) (stdout st) (waited st))).
  { by destruct (root st). }
  steps'. unfold __params__. steps'.
  unfold validates in Hv.
  unfold __validate__, JSON_validate, File_validate, Folder_validate.
  destruct (class_of o) eqn:Hc; cbn [is_File andb] in *; steps'.
  - done.
  - destruct (on_disk (fs st) p); simpl in Hv; [rewrite Hv|done]. steps'. eauto.
  - case_bool_decide as He; cbn [negb]; steps'.
    all: destruct (on_disk (fs st) p); simpl in Hv; [|done];
      apply negb_false_iff in Hv; rewrite Hv; cbn [negb]; steps'; eauto.
  - case_bool_decide as He; cbn [negb]; steps'.
    all: destruct (on_disk (fs st) p); simpl in Hv;
      [destruct (dir_on_disk (fs st) p); simpl in Hv; cbn [negb]; steps'; eauto|];
      steps'; rewrite Hv; steps'; eauto.
Qed.

Lemma new_refuses c given mode par st p :
  parse_path par given = Ok p →
  parent_ok (fs st) par = true →
  validates c (fs st) p = false →
  ∃ msg st', new c given mode par st = (Raise (AssertionError msg), st') ∧
             fs st' = fs st ∧ created_instances st' = created_instances st.
Proof.
  intros Hp Hpar Hv. unfold new, bind at 1, allocate.
  set (self := length (store st)). set (sta := set_store (store st ++ [blank c]) st).
  destruct (init_detect_refuses self given par sta (blank c) p) as (msg & st' & H & Hfs & Hcr);
    try done.
  { unfold sta, self. cbn [store set_store]. by rewrite lookup_app_r, Nat.sub_diag. }
  exists msg, st'. split; [|done].
  unfold bind, __init__, bind. by rewrite H.
Qed.

(** Claim C1, as the code has it: constructing a handle follows the
    reconciliation table once [__validate__] has passed, and not
    before.  For a path that [parse_path] gives under a parent that is a
    directory, and with the existence sampled on the disk before the
    call.  When what is on the disk is of the other kind than the class
    (or the name of a [JSON] does not end in [.json]), the constructor
    raises an [AssertionError] in every mode and every existence state,
    and leaves the disk and [created_instances] as they were: the table
    is not consulted.  Otherwise the table is followed: in the rows
    that fail, the constructor raises the exception of the table and
    leaves the disk and [created_instances] as they were; in the other
    rows the disk and [created_instances] afterwards are those the
    actions of the table give, performed in order ([Create] is the
    [__create__] of the class, [Remove] is [delete_path]), the result
    is the exception of the first action that raises, or else the
    outcome of the comparison with the root, and after a successful
    [Create] the path holds an object of the kind of the class. *)
Theorem construction_follows_table c given mode par st p rp :
  parse_path par given = Ok p →
  parent_ok (fs st) par = true →
  root_path_for (length (store st)) st p = Some rp →
  let self := length (store st) in
  let out := new c given mode par st in
  if validates c (fs st) p then
    match table mode (on_disk (fs st) p) with
    | Fail e =>
        out.1 = Raise e ∧ fs out.2 = fs st ∧
        created_instances out.2 = created_instances st
    | Do acts =>
        let w := perform_all c p 1 acts (fs st, created_instances st) in
        fs out.2 = w.2.1 ∧
        created_instances out.2 = w.2.2 ∧
        out.1 = match w.1 with
                | Raise e => Raise e
                | Ok _ => match Disk.samefile w.2.1 p rp with
                          | Ok _ => Ok self
                          | Raise e => Raise e
                          end
                end ∧
        (acts ≠ [] → w.1 = Ok tt →
         on_disk (fs out.2) p = true ∧ dir_on_disk (fs out.2) p = bool_decide (c = Folder))
    end
  else
    ∃ msg, out.1 = Raise (AssertionError msg) ∧ fs out.2 = fs st ∧
           created_instances out.2 = created_instances st.
Proof.
  intros Hp Hpar Hrp self out. unfold out.
  destruct (validates c (fs st) p) eqn:Hv.
  2:{ destruct (new_refuses c given mode par st p Hp Hpar Hv) as (msg & st' & -> & ? & ?).
      by exists msg. }
  rewrite (new_eq c given mode par st p rp) by done. fold self. cbv zeta.
  unfold init_outcome. cbn [fs set_store created_instances class_of blank create_wrappers].
  destruct (table mode (on_disk (fs st) p)) as [e|acts] eqn:Et; cbn [fst snd].
  - done.
  - set (w := perform_all c p 1 acts (fs st, created_instances st)).
    assert (acts ≠ [] → w.1 = Ok tt →
            on_disk w.2.1 p = true ∧ dir_on_disk w.2.1 p = bool_decide (c = Folder)) as Hsem.
    { intros Hne Hok. unfold w in *.
      assert (acts = [Create] ∨ acts = [Remove; Create]) as [-> | ->].
      { destruct mode, (on_disk (fs st) p); simpl in Et; simplify_eq; auto. }
      - simpl in *. destruct (create_on_disk c (fs st) p) as [[[]|] d'] eqn:Ec; [|done].
        simpl. by apply create_on_disk_creates in Ec.
      - simpl in *. destruct (delete_on_disk (fs st) p) as [[[]|] d1]; [|done].
        simpl in *. destruct (create_on_disk c d1 p) as [[[]|] d'] eqn:Ec; [|done].
        simpl. by apply create_on_disk_creates in Ec. }
    destruct w.1 as [[]|e] eqn:Ew; cbn [fst snd].
    + destruct (Disk.samefile w.2.1 p rp) as [b|e]; cbn [fst snd fs created_instances
        finished set_created_instances set_fs detected].
      all: split_and!; [done..|exact Hsem].
    + split_and!; [done..|exact Hsem].
Qed.

(** The theorem in the example process, for [File("a", mode=CREATE)],
    where the file [a] exists, and for [Folder("a", mode=CREATE)]. *)
Lemma construction_follows_table_witness :
  ((new File (PStr "a") CREATE None example_state).1 = Raise FileExistsError ∧
   fs (new File (PStr "a") CREATE None example_state).2 = fs example_state) ∧
  ∃ msg, (new Folder (PStr "a") CREATE None example_state).1 = Raise (AssertionError msg) ∧
         fs (new Folder (PStr "a") CREATE None example_state).2 = fs example_state.
Proof.
  pose proof (construction_follows_table File (PStr "a") CREATE None example_state
                (mkPath "" ["a"]) (mkPath "" [])
                eq_refl eq_refl eq_refl) as H.
  pose proof (construction_follows_table Folder (PStr "a") CREATE None example_state
                (mkPath "" ["a"]) (mkPath "" [])
                eq_refl eq_refl eq_refl) as H'.
  split.
  - split; [exact (proj1 H)|exact (proj1 (proj2 H))].
  - destruct H' as (msg & H1 & H2 & _). by exists msg.
Defined.

(** Claim C1 as stated fails: not every mode and existence state
    follows the table.  In the example directory, where [a] is a file,
    the table has [FileExistsError] for [CREATE] on the present path
    [a], and the removal and creation of [a] for [OVERWRITE]; but
    [Folder("a", mode=CREATE)] and [Folder("a", mode=OVERWRITE)] raise
    the [AssertionError] of [Folder.__validate__], and [a] stays the
    file it was. *)
Lemma construction_checks_kind_first :
  ¬ (∀ c given mode st p e,
       parse_path None given = Ok p →
       table mode (on_disk (fs st) p) = Fail e →
       (new c given mode None st).1 = Raise e) ∧
  (table OVERWRITE (on_disk (fs example_state) (mkPath "" ["a"])) = Do [Remove; Create] ∧
   new Folder (PStr "a") OVERWRITE None example_state
   = (Raise (AssertionError "Path does not lead to a `folder`."),
      (new Folder (PStr "a") OVERWRITE None example_state).2) ∧
   fs (new Folder (PStr "a") OVERWRITE None example_state).2 = fs example_state).
Proof.
  split.
  - intros H.
    specialize (H Folder (PStr "a") CREATE example_state (mkPath "" ["a"]) FileExistsError
                  eq_refl ltac:(vm_compute; reflexivity)).
    vm_compute in H. discriminate.
  - vm_compute. by repeat split.
Qed.

(** * Removal *)

Lemma not_elem_of_removelast {A} (x : A) (l : list A) : x ∉ l → x ∉ removelast l.
Proof.
  intros H Hin. apply H. destruct l as [|y r] using rev_ind; [done|].
  rewrite removelast_last in Hin. apply elem_of_app. by left.
Qed.

Lemma walk_no_dotdot t cur segs c :
  Disk.walk t cur segs = Ok c → ".." ∉ cur → ".." ∉ c.
Proof.
  revert cur. induction segs as [|s r IH]; intros cur H Hc; simpl in H.
  - by injection H as <-.
  - destruct (Disk.find t cur) as [[|a m]|]; try done.
    apply IH in H; [done|]. case_bool_decide as Hs.
    + by apply not_elem_of_removelast.
    + intros [?|?%list_elem_of_singleton]%elem_of_app; [done|]. by subst.
Qed.

Lemma kind_at_dir t q :
  kind_at t q = Some true → ∃ a m, Disk.find t q = Some (Disk.Dir a m).
Proof. unfold kind_at. destruct (Disk.find t q) as [[|a m]|]; try done. eauto. Qed.

(** The absolute path of a plain path resolves to the same place, which
    is the list of its names. *)
Lemma absolute_resolve d p c :
  canonical_cwd d → ".." ∉ names p → Disk.resolve d p = Ok c →
  ∃ a, absolute d p = Ok a ∧ pathlib.is_absolute a = true ∧ names a = c ∧ ".." ∉ c.
Proof.
  intros Hcwd Hplain Hr. unfold absolute, Disk.resolve in *.
  destruct (pathlib.is_absolute p) eqn:Ea.
  - exists p. split; [done|]. split; [done|].
    pose proof (walk_plain _ _ _ _ Hplain Hr) as ->. by split.
  - destruct (Disk.cwd d) as [x|] eqn:Ex; [|done].
    exists (mkPath "/" (x ++ names p)). split; [done|]. split; [done|].
    pose proof (walk_plain _ _ _ _ Hplain Hr) as ->. split; [done|].
    specialize (Hcwd x Ex) as [Hcwd _].
    apply walk_no_dotdot in Hcwd; [|by apply not_elem_of_nil].
    intros [?|?]%elem_of_app; done.
Qed.

Lemma resolve_absolute_plain d a :
  pathlib.is_absolute a = true →
  Disk.resolve d a = Disk.walk (Disk.tree d) [] (names a).
Proof. unfold Disk.resolve. by intros ->. Qed.

(** The absolute path [delete_path] hands on denotes what the path
    does. *)
Lemma resolve_absolute d p a :
  canonical_cwd d → absolute d p = Ok a → Disk.resolve d a = Disk.resolve d p.
Proof.
  intros Hcwd. unfold absolute, Disk.resolve.
  destruct (pathlib.is_absolute p) eqn:Ea.
  - intros [= <-]. by rewrite Ea.
  - destruct (Disk.cwd d) as [x|] eqn:Ex; [|done]. intros [= <-].
    change (pathlib.is_absolute (mkPath "/" (x ++ names p))) with true.
    cbn [names]. rewrite walk_app. by destruct (Hcwd x Ex) as [-> _].
Qed.

Lemma walk_self_plain t c :
  ".." ∉ c → (∀ k, k < length c → kind_at t (take k c) = Some true) →
  Disk.walk t [] c = Ok c.
Proof.
  intros Hc. assert (∀ cur segs, ".." ∉ segs →
    (∀ k, k < length segs → kind_at t (cur ++ take k segs) = Some true) →
    Disk.walk t cur segs = Ok (cur ++ segs)) as Hgen.
  { intros cur segs. revert cur. induction segs as [|s r IH]; intros cur Hn Hk.
    - by rewrite app_nil_r.
    - simpl. pose proof (Hk 0 ltac:(simpl; lia)) as H0. simpl in H0.
      rewrite app_nil_r in H0. apply kind_at_dir in H0 as (a & m & ->).
      apply not_elem_of_cons in Hn as [Hs Hr]. rewrite bool_decide_eq_false_2 by done.
      rewrite IH; [by rewrite <- app_assoc|done|].
      intros k Hk'. specialize (Hk (S k) ltac:(simpl; lia)). simpl in Hk.
      by rewrite <- app_assoc. }
  intros Hk. by apply (Hgen [] c).
Qed.

Lemma walk_plain_kinds t cur segs c :
  ".." ∉ segs → Disk.walk t cur segs = Ok c →
  ∀ k, k < length segs → kind_at t (cur ++ take k segs) = Some true.
Proof.
  revert cur. induction segs as [|s r IH]; intros cur Hn H k Hk; [simpl in Hk; lia|].
  simpl in H. destruct (Disk.find t cur) as [[|a m]|] eqn:E; try done.
  apply not_elem_of_cons in Hn as [Hs Hr]. rewrite bool_decide_eq_false_2 in H by done.
  destruct k as [|k].
  - simpl. rewrite app_nil_r. unfold kind_at. by rewrite E.
  - simpl. specialize (IH _ Hr H k ltac:(simpl in Hk; lia)). by rewrite <- app_assoc in IH.
Qed.

Lemma take_prefix_strict {A} (c q : list A) k :
  k < length c → c `prefix_of` take k c → False.
Proof. intros Hk Hp. apply prefix_length in Hp. rewrite length_take in Hp. lia. Qed.

(** [delete_path] removes what is at the path, a file or a whole tree,
    and leaves every other kind on the disk as it is. *)
Lemma delete_on_disk_removes d p c n :
  canonical_cwd d → ".." ∉ names p → Disk.stat d p = Ok (c, n) → c ≠ [] →
  ∃ d', delete_on_disk d p = (Ok tt, d') ∧
        ∀ q, kind_at (Disk.tree d') q =
             if bool_decide (c `prefix_of` q) then None else kind_at (Disk.tree d) q.
Proof.
  intros Hcwd Hplain Hstat Hne. unfold Disk.stat in Hstat.
  destruct (Disk.resolve d p) as [c'|] eqn:Er; [|done].
  destruct (Disk.find (Disk.tree d) c') as [n'|] eqn:Ef; [|done].
  injection Hstat as -> ->.
  destruct (absolute_resolve d p c Hcwd Hplain Er) as (a & Ha & Habs & Hnames & Hdd).
  destruct (Disk.split_last c) as [[dir s]|] eqn:Es.
  2:{ unfold Disk.split_last in Es. destruct c using rev_ind; [done|].
      by rewrite last_snoc in Es. }
  pose proof (split_last_Some _ _ _ Es) as Hc.
  assert (Disk.resolve d a = Ok c) as Hra.
  { rewrite resolve_absolute_plain by done. rewrite Hnames.
    apply walk_self_plain; [done|]. intros k Hk.
    unfold Disk.resolve in Er. destruct (pathlib.is_absolute p) eqn:Ea.
    - pose proof (walk_plain _ _ _ _ Hplain Er) as Hc'. simpl in Hc'. rewrite Hc' in *.
      apply (walk_plain_kinds _ [] _ _ Hplain Er k Hk).
    - destruct (Disk.cwd d) as [x|] eqn:Ex; [|done].
      pose proof (walk_plain _ _ _ _ Hplain Er) as Hc'.
      destruct (decide (k < length x)) as [Hkx|Hkx].
      + specialize (Hcwd x Ex) as [Hcwd _].
        assert (".." ∉ x) as Hx.
        { apply walk_no_dotdot in Hcwd; [done|apply not_elem_of_nil]. }
        rewrite Hc', take_app_le by lia.
        apply (walk_plain_kinds _ [] _ _ Hx Hcwd k Hkx).
      + rewrite Hc', take_app_ge by lia.
        apply (walk_plain_kinds _ _ _ _ Hplain Er). rewrite Hc', length_app in Hk. lia. }
  assert (∃ a0 m0, Disk.find (Disk.tree d) dir = Some (Disk.Dir a0 m0)) as (a0 & m0 & Hdir).
  { rewrite Hc, find_snoc in Ef.
    destruct (Disk.find (Disk.tree d) dir) as [[|a0 m0]|]; try done. eauto. }
  unfold delete_on_disk. rewrite Ha. unfold dir_on_disk, Disk.stat. rewrite Er, Ef.
  destruct n as [fa fd|da dm]; cbn [Disk.is_dir_node].
  - (* a file *)
    unfold Disk.unlink. rewrite Hra, Ef, Es. eexists. split; [done|].
    intros q. cbn [Disk.tree]. case_bool_decide as Hq.
    + destruct Hq as [r ->]. rewrite Hc, <- app_assoc. simpl. unfold kind_at.
      by rewrite (find_set_entry _ _ _ _ _ _ r Hdir).
    + apply kind_at_set_entry. by rewrite <- Hc.
  - (* a directory *)
    unfold Disk.rmtree. rewrite Hra, Ef.
    set (t1 := Disk.clear_dir c (Disk.tree d)).
    set (d1 := Disk.mkDisk t1 (Disk.cwd_after_removal true c (Disk.cwd d))).
    assert (Disk.resolve d1 a = Ok c) as Hra1.
    { rewrite resolve_absolute_plain by done. cbn [Disk.tree d1].
      rewrite resolve_absolute_plain in Hra by done.
      rewrite <- Hra. rewrite Hnames. apply walk_kind_ext; [done|].
      intros k Hk. simpl. apply kind_at_clear_dir.
      intros Hp. exfalso. by eapply take_prefix_strict. }
    unfold Disk.rmdir. rewrite Hra1. cbn [Disk.tree d1].
    unfold t1. rewrite (find_clear_dir _ _ _ _ Ef).
    rewrite bool_decide_eq_true_2 by done. cbn [negb].
    assert (Disk.last_is_normal a = true) as ->.
    { unfold Disk.last_is_normal. rewrite Hnames, Hc, last_snoc.
      rewrite bool_decide_eq_false_2; [done|]. intros ->. apply Hdd. rewrite Hc.
      apply elem_of_app. right. by apply list_elem_of_singleton. }
    cbn [negb]. rewrite Es. eexists. split; [done|].
    intros q. cbn [Disk.tree]. case_bool_decide as Hq.
    + destruct Hq as [r ->]. rewrite Hc, <- app_assoc. simpl. unfold kind_at.
      assert (kind_at (Disk.clear_dir c (Disk.tree d)) dir = Some true) as Hk.
      { rewrite kind_at_clear_dir.
        - unfold kind_at. by rewrite Hdir.
        - intros Hp. apply prefix_length in Hp. rewrite Hc, length_app in Hp. simpl in Hp. lia. }
      apply kind_at_dir in Hk as (a1 & m1 & Hd1). rewrite Hc in Hd1.
      by rewrite (find_set_entry _ _ _ _ _ _ r Hd1).
    + rewrite kind_at_set_entry by by rewrite <- Hc.
      apply kind_at_clear_dir. by intros Hp.
Qed.

(** Claim C7: [rm] on a protected handle raises [PermissionError] and
    changes nothing, on the disk or elsewhere; on an unprotected handle
    whose path denotes an object of the disk (other than the root
    directory, through a path without [".."]), [rm] returns, and
    afterwards nothing is left at the path or below it, be it a file or
    a directory tree, while every other object of the disk is as
    before. *)
Theorem rm_refuses_or_deletes self st o :
  store st !! self = Some o →
  (_protected o = true → rm self st = (Raise (PermissionError ""), st)) ∧
  (_protected o = false →
   ∀ c n,
     canonical_cwd (fs st) → ".." ∉ names (_path o) →
     Disk.stat (fs st) (_path o) = Ok (c, n) → c ≠ [] →
     ∃ d', rm self st = (Ok tt, set_fs d' st) ∧
           ∀ q, kind_at (Disk.tree d') q =
                if bool_decide (c `prefix_of` q) then None
                else kind_at (Disk.tree (fs st)) q).
Proof.
  intros Ho. split; intros Hprot.
  - by rewrite (rm_eq _ _ _ Ho), Hprot.
  - intros c n Hcwd Hplain Hstat Hne.
    destruct (delete_on_disk_removes _ _ _ _ Hcwd Hplain Hstat Hne) as (d' & Hd & Hk).
    exists d'. split; [|done]. by rewrite (rm_eq _ _ _ Ho), Hprot, Hd.
Qed.

Lemma example_canonical_cwd : canonical_cwd example_disk.
Proof. intros x [= <-]. split; reflexivity. Qed.

(** The theorem for the handle of the working directory in the example
    process: the directory and the file [a] in it are gone. *)
Lemma rm_refuses_or_deletes_witness :
  ∃ d', rm 0 example_state = (Ok tt, set_fs d' example_state) ∧
        kind_at (Disk.tree d') ["home"; "u"; "a"] = None ∧
        kind_at (Disk.tree d') ["home"] = Some true.
Proof.
  destruct (proj2 (rm_refuses_or_deletes 0 example_state
                     (mkObject Folder (mkPath "" []) "" true true None false true 1 ""
                        false ∅) eq_refl) eq_refl ["home"; "u"]
              (Disk.Dir 0 (<["a" := Disk.File 32 "A"]>
                 (<[".a" := Disk.File 0 "dot-A"]>
                    (<["d" := Disk.Dir 0 {[ "x.txt" := Disk.File 0 "x" ]}]> ∅))))
              example_canonical_cwd (not_elem_of_nil _) eq_refl ltac:(discriminate))
    as (d' & H1 & H2).
  exists d'. split; [exact H1|]. split; rewrite H2; reflexivity.
Defined.

(** * What the statements preserve *)

Create HintDb pres.

Section preserves.
Context {touch : loc → Prop} {R : relation State} `{!Stable touch R}.

Lemma preserves_ret {A} (a : A) : preserves R (ret a).
Proof. intros st. reflexivity. Qed.

Lemma preserves_raise {A} e : preserves R (@raise A e).
Proof. intros st. reflexivity. Qed.

Lemma preserves_gets {A} (f : State → A) : preserves R (gets f).
Proof. intros st. reflexivity. Qed.

Lemma preserves_lift {A} (r : result A) : preserves R (lift r).
Proof. intros st. reflexivity. Qed.

Lemma preserves_the self : preserves R (the self).
Proof. intros st. unfold the. destruct (store st !! self); reflexivity. Qed.

Lemma preserves_bind {A B} (c : M A) (k : A → M B) :
  preserves R c → (∀ a, preserves R (k a)) → preserves R (bind c k).
Proof.
  intros Hc Hk st. unfold bind. specialize (Hc st).
  destruct (c st) as [[a|e] st1]; [|done].
  etrans; [exact Hc|]. apply Hk.
Qed.

Lemma preserves_assert b msg : preserves R (assert b msg).
Proof. destruct b; [apply preserves_ret|apply preserves_raise]. Qed.

Lemma preserves_update self f : touch self → preserves R (update self f).
Proof. intros Ht st. by apply stable_update. Qed.

Lemma preserves_print line : preserves R (print line).
Proof. intros st. apply stable_stdout. Qed.

Lemma preserves_syscall f : preserves R (syscall f).
Proof.
  intros st. unfold syscall. destruct (f (fs st)); [apply stable_fs|reflexivity].
Qed.

Lemma preserves_rmtree p : preserves R (rmtree p).
Proof. intros st. unfold rmtree. destruct (Disk.rmtree (fs st) p). apply stable_fs. Qed.

Lemma preserves_os_listdir p : preserves R (os_listdir p).
Proof. intros st. reflexivity. Qed.

Lemma preserves_samefile a b : preserves R (os_path_samefile a b).
Proof. intros st. reflexivity. Qed.

Lemma preserves_path_absolute p : preserves R (path_absolute p).
Proof.
  unfold path_absolute. destruct (pathlib.is_absolute p); [apply preserves_ret|].
  intros st. destruct (Disk.cwd (fs st)); reflexivity.
Qed.

Lemma preserves_abspath s : preserves R (abspath s).
Proof.
  unfold abspath. destruct (pystr.startswith _ _); [apply preserves_ret|].
  intros st. destruct (Disk.cwd (fs st)); reflexivity.
Qed.

Lemma preserves_SetFileAttributesW p a : preserves R (SetFileAttributesW p a).
Proof.
  unfold SetFileAttributesW, ctypes_wstr.
  destruct p; [|intros st; reflexivity..]. intros st. apply stable_fs.
Qed.

Lemma preserves_listener_modify self p :
  preserves R (modify (λ st, set_observers
     (observers st ++ [mkObserver (FolderEventHandler self) p false]) st)).
Proof. intros st. apply stable_listener. Qed.

Lemma preserves_created_modify (f : State → list Path) :
  preserves R (modify (λ st, set_created_instances (f st) st)).
Proof. intros st. apply stable_created. Qed.

Lemma preserves_first_root {B} self (k : M B) :
  preserves R k →
  preserves R (let* r := gets root in
               match r with
               | None => modify (set_root (Some self))
               | Some _ => ret tt
               end >> k).
Proof.
  intros Hk st. unfold bind, gets. destruct (root st) eqn:E; [apply Hk|].
  unfold modify. etrans; [by apply stable_first_root|]. apply Hk.
Qed.

End preserves.

#[global] Hint Resolve preserves_ret preserves_raise preserves_gets preserves_lift
  preserves_the preserves_assert preserves_update preserves_print preserves_syscall
  preserves_rmtree preserves_os_listdir preserves_samefile preserves_path_absolute
  preserves_abspath preserves_SetFileAttributesW preserves_listener_modify
  preserves_created_modify : pres.

#[global] Hint Extern 1 => exact I : pres.

(** One step of a preservation proof: the statement is taken apart at
    its binds and branches, a leaf is closed with the hints. *)
Ltac pres_step :=
  lazymatch goal with
  | |- preserves _ (bind _ _) =>
      first [apply preserves_first_root | apply preserves_bind; [|intros ?]]
  | |- preserves _ (match ?x with _ => _ end) => destruct x
  | |- preserves _ (if ?b then _ else _) => destruct b
  | |- preserves _ _ => solve [eauto with pres]
  end.

Ltac pres := repeat pres_step.

Section preserves_methods.
Context {touch : loc → Prop} {R : relation State} `{!Stable touch R}.

Lemma preserves_path self : preserves R (path self).
Proof. unfold path. pres. Qed.
Lemma preserves_name self : preserves R (name self).
Proof. unfold name. pres. Qed.
Lemma preserves_dirpath self : preserves R (dirpath self).
Proof. unfold dirpath. pres. Qed.
Lemma preserves_path_exists p : preserves R (path_exists p).
Proof. unfold path_exists. pres. Qed.
Lemma preserves_path_is_dir p : preserves R (path_is_dir p).
Proof. unfold path_is_dir. pres. Qed.
Hint Resolve preserves_path preserves_name preserves_dirpath preserves_path_exists
  preserves_path_is_dir : pres.

Lemma preserves_get_win_file_attrs p : preserves R (get_win_file_attrs p).
Proof. unfold get_win_file_attrs, GetFileAttributesW, ctypes_wstr. destruct p; pres. Qed.
Hint Resolve preserves_get_win_file_attrs : pres.

Lemma preserves_delete_path p : preserves R (delete_path p).
Proof. unfold delete_path, os_remove. pres. Qed.
Hint Resolve preserves_delete_path : pres.

Lemma preserves_rm self : preserves R (rm self).
Proof. unfold rm. pres. Qed.
Hint Resolve preserves_rm : pres.

Lemma preserves_params self : touch self → preserves R (__params__ self).
Proof. intros. unfold __params__. pres. Qed.

Lemma preserves_validate self : preserves R (__validate__ self).
Proof. unfold __validate__, JSON_validate, File_validate, Folder_validate. pres. Qed.

Lemma preserves_create self : preserves R (__create__ self).
Proof. unfold __create__, class_create, os_mkdir, open_w_close. pres. Qed.
Hint Resolve preserves_params preserves_validate preserves_create : pres.

Lemma preserves_configure self : touch self → preserves R (__configure__ self).
Proof. intros. unfold __configure__, _activate_listener. pres. Qed.
Hint Resolve preserves_configure : pres.

Lemma preserves_reconcile self mode : preserves R (reconcile self mode).
Proof. unfold reconcile. pres. Qed.

Lemma preserves_init_detect self given par :
  touch self → preserves R (init_detect self given par).
Proof. intros. unfold init_detect. pres. Qed.

Lemma preserves_init_finish self : touch self → preserves R (init_finish self).
Proof. intros. unfold init_finish. pres. Qed.
Hint Resolve preserves_reconcile preserves_init_detect preserves_init_finish : pres.

Lemma preserves_init self given mode par :
  touch self → preserves R (__init__ self given mode par).
Proof. intros. unfold __init__. pres. Qed.
Hint Resolve preserves_init : pres.

Lemma preserves_ishidden self : preserves R (ishidden self).
Proof. unfold ishidden, _ishidden. pres. Qed.
Hint Resolve preserves_ishidden : pres.

Lemma preserves_hide self h : touch self → preserves R (hide self h).
Proof. intros. unfold hide, os_rename. pres. Qed.

End preserves_methods.

#[global] Hint Resolve preserves_path preserves_name preserves_dirpath
  preserves_path_exists preserves_path_is_dir preserves_get_win_file_attrs
  preserves_delete_path preserves_rm preserves_params preserves_validate
  preserves_create preserves_configure preserves_reconcile preserves_init_detect
  preserves_init_finish preserves_init preserves_ishidden preserves_hide : pres.

(** The statements that allocate objects preserve the relations that
    any change of the store keeps. *)
Section preserves_allocating.
Context {R : relation State} `{!Stable (λ _, True) R}.
Hypothesis stable_allocate : ∀ st o, R st (set_store (store st ++ [o]) st).

Lemma preserves_allocate c : preserves R (allocate c).
Proof. intros st. apply stable_allocate. Qed.
Hint Resolve preserves_allocate : pres.

Lemma preserves_new c given mode par : preserves R (new c given mode par).
Proof. unfold new. pres. Qed.
Hint Resolve preserves_new : pres.

Lemma preserves_assign_type p : preserves R (assign_type p).
Proof. unfold assign_type. pres. Qed.
Hint Resolve preserves_assign_type : pres.

Lemma preserves_parent self : preserves R (parent self).
Proof. unfold parent. pres. Qed.

Lemma preserves_build_directory self contents acc :
  preserves R (build_directory self contents acc).
Proof. revert acc. induction contents as [|f r IH]; intros acc; simpl; pres. Qed.
Hint Resolve preserves_build_directory : pres.

Lemma preserves_the_folder self : preserves R (the_folder self).
Proof. unfold the_folder. pres. Qed.
Hint Resolve preserves_the_folder : pres.

Lemma preserves_update_dir self : preserves R (_update_dir self).
Proof. unfold _update_dir. pres. Qed.
Hint Resolve preserves_update_dir : pres.

Lemma preserves_directory self : preserves R (directory self).
Proof. unfold directory. pres. Qed.
Hint Resolve preserves_directory : pres.

Lemma preserves_contents self : preserves R (contents self).
Proof. unfold contents. pres. Qed.

Lemma preserves_search_dir self target : preserves R (_search_dir self target).
Proof. unfold _search_dir. pres. Qed.
Hint Resolve preserves_contents preserves_search_dir : pres.

Lemma preserves_getitem self target : preserves R (__getitem__ self target).
Proof. unfold __getitem__. pres. Qed.

Lemma preserves_get self target timeout : preserves R (get self target timeout).
Proof. unfold get. pres. Qed.

Lemma preserves_mkdir self target mode : preserves R (mkdir self target mode).
Proof. unfold mkdir. pres. Qed.

Lemma preserves_mk self target mode : preserves R (mk self target mode).
Proof. unfold mk. pres. Qed.

Lemma preserves_rm_each objs : preserves R (rm_each objs).
Proof. induction objs as [|o r IH]; simpl; pres. Qed.
Hint Resolve preserves_rm_each : pres.

Lemma preserves_clear self : preserves R (clear self).
Proof. unfold clear. pres. Qed.

Lemma preserves_direct folder src : preserves R (direct folder src).
Proof. unfold direct. pres. Qed.
Hint Resolve preserves_direct : pres.

Lemma preserves_dispatch o k src : preserves R (dispatch o k src).
Proof. unfold dispatch. pres. Qed.

Lemma preserves_eval_arg a : preserves R (eval_arg a).
Proof. unfold eval_arg. pres. Qed.
Hint Resolve preserves_eval_arg : pres.

Lemma preserves_eval_parent a : preserves R (eval_parent a).
Proof. unfold eval_parent. pres. Qed.

End preserves_allocating.

#[global] Instance keeps_root_preorder : PreOrder keeps_root.
Proof. split; [by intros st r|]. intros a b c H1 H2 r Hr. by apply H2, H1. Qed.

#[global] Instance keeps_root_stable : Stable (λ _, True) keeps_root.
Proof.
  split; [apply _|..]; try (intros; intros r Hr; exact Hr).
  intros st self Hn r Hr. congruence.
Qed.

Lemma keeps_root_allocate st o : keeps_root st (set_store (store st ++ [o]) st).
Proof. by intros r Hr. Qed.

Lemma exec_keeps_root c : preserves keeps_root (exec c).
Proof.
  pose proof keeps_root_allocate as Ha.
  destruct c; simpl.
  - apply preserves_bind; [by apply preserves_eval_arg|intros g].
    apply preserves_bind; [by apply preserves_eval_parent|intros p].
    apply preserves_bind; [by apply preserves_new|intros; apply preserves_ret].
  - apply preserves_rm.
  - by apply preserves_hide.
  - apply preserves_bind; [by apply preserves_parent|intros; apply preserves_ret].
  - apply preserves_bind; [by apply preserves_directory|intros; apply preserves_ret].
  - apply preserves_bind; [by apply preserves_getitem|intros; apply preserves_ret].
  - apply preserves_bind; [by apply preserves_get|intros; apply preserves_ret].
  - apply preserves_bind; [by apply preserves_eval_arg|intros g].
    apply preserves_bind; [by apply preserves_mkdir|intros; apply preserves_ret].
  - apply preserves_bind; [by apply preserves_eval_arg|intros g].
    apply preserves_bind; [by apply preserves_mk|intros; apply preserves_ret].
  - by apply preserves_clear.
  - unfold _wait_for_file, event_wait.
    apply preserves_bind; [by apply preserves_the_folder|intros _].
    apply preserves_bind; [apply preserves_path|intros p].
    intros st r Hr. exact Hr.
  - by apply preserves_dispatch.
  - intros st r Hr. exact Hr.
Qed.

Lemma exec_all_keeps_root calls st : keeps_root st (exec_all calls st).
Proof.
  revert st. induction calls as [|c rest IH]; intros st; simpl; [reflexivity|].
  etrans; [apply exec_keeps_root|apply IH].
Qed.

(** * The root *)

Lemma bind_inv {A B} (c : M A) (k : A → M B) st b st' :
  bind c k st = (Ok b, st') → ∃ a st1, c st = (Ok a, st1) ∧ k a st1 = (Ok b, st').
Proof. unfold bind. destruct (c st) as [[a|e] st1]; [eauto|done]. Qed.

Lemma path_configure_object o : _path (configure_object o) = _path o.
Proof. unfold configure_object. by destruct (class_of o). Qed.

Lemma is_root_configure_object o : _is_root (configure_object o) = _is_root o.
Proof. unfold configure_object. by destruct (class_of o). Qed.

Lemma class_configure_object o : class_of (configure_object o) = class_of o.
Proof. unfold configure_object. by destruct (class_of o) eqn:E. Qed.

(** When [init_finish] returns, the flag of the handle is what
    [samefile] answers for its path and the path of the root. *)
Lemma init_finish_is_root self st st' :
  init_finish self st = (Ok tt, st') →
  ∃ r o ro, root st' = Some r ∧ root st = Some r ∧
            store st' !! self = Some o ∧ store st' !! r = Some ro ∧
            Disk.samefile (fs st') (_path o) (_path ro) = Ok (_is_root o).
Proof.
  intros H.
  destruct (store st !! self) as [o|] eqn:Ho.
  2:{ unfold init_finish, path, bind, the in H. by rewrite Ho in H. }
  destruct (root st) as [r|] eqn:Hr.
  2:{ unfold init_finish, path, bind in H. rewrite (the_eq _ _ _ Ho) in H.
      unfold ret, gets in H. by rewrite Hr in H. }
  destruct (store st !! r) as [ro|] eqn:Hro.
  2:{ unfold init_finish, path, bind in H. rewrite (the_eq _ _ _ Ho) in H.
      unfold ret, gets in H. rewrite Hr in H. unfold the in H. by rewrite Hro in H. }
  rewrite (init_finish_eq _ _ _ _ _ Ho Hr Hro) in H.
  destruct (Disk.samefile (fs st) (_path o) (_path ro)) as [b|e] eqn:Es; [|done].
  injection H as <-.
  assert (self < length (store st)) as Hlt by by eapply lookup_lt_Some.
  exists r, (configure_object (set_parent None (set_is_root b o))).
  destruct (decide (r = self)) as [->|Hne].
  - exists (configure_object (set_parent None (set_is_root b o))).
    unfold finished. cbn [root store fs]. rewrite lookup_insert_same by done.
    split_and!; try done.
    rewrite path_configure_object, is_root_configure_object. cbn.
    by simplify_eq.
  - exists ro. unfold finished. cbn [root store fs]. rewrite lookup_insert_same by done.
    rewrite list_lookup_insert_ne by done.
    split_and!; try done.
    rewrite path_configure_object, is_root_configure_object. by cbn.
Qed.

Lemma new_is_root c given mode par st l st' :
  new c given mode par st = (Ok l, st') →
  ∃ r o ro, root st' = Some r ∧
            store st' !! l = Some o ∧ store st' !! r = Some ro ∧
            Disk.samefile (fs st') (_path o) (_path ro) = Ok (_is_root o).
Proof.
  unfold new. intros (self & st1 & _ & H)%bind_inv.
  apply bind_inv in H as ([] & st2 & Hinit & Hret). injection Hret as <- <-.
  unfold __init__ in Hinit.
  apply bind_inv in Hinit as ([] & st3 & _ & H).
  apply bind_inv in H as ([] & st4 & _ & H).
  apply init_finish_is_root in H as (r & o & ro & H1 & _ & H2 & H3 & H4).
  by exists r, o, ro.
Qed.

Lemma module_init_ok d w :
  dir_on_disk d (pathlib.of_str ".") = true →
  ∃ st0 o, module_init (initial d w) = (Ok tt, st0) ∧ root st0 = Some 0 ∧
           store st0 !! 0 = Some o ∧ class_of o = Folder ∧
           _path o = pathlib.of_str "." ∧ _is_root o = true.
Proof.
  intros Hd. change (pathlib.of_str ".") with (mkPath "" []) in *.
  assert (on_disk d (mkPath "" []) = true) as He.
  { unfold on_disk, dir_on_disk in *. by destruct (Disk.stat d (mkPath "" [])). }
  unfold module_init, bind.
  rewrite (new_eq Folder (PStr ".") FIND None (initial d w) (mkPath "" []) (mkPath "" [])).
  2-5: try done.
  2:{ unfold validates. cbn [fs initial]. by rewrite He, Hd. }
  cbv zeta. unfold init_outcome. cbn [fs initial set_store]. rewrite He.
  cbn [table perform_all fst snd].
  assert (Disk.samefile d (mkPath "" []) (mkPath "" []) = Ok true) as ->.
  { unfold Disk.samefile, on_disk in *.
    destruct (Disk.stat d (mkPath "" [])) as [[q n]|]; [|done].
    by rewrite bool_decide_eq_true_2. }
  cbn [fst snd]. eexists _, _. split; [reflexivity|].
  unfold finished, detected, detect_object, configure_object, modify.
  cbn [root store set_root set_created_instances set_fs initial class_of blank
       set_parent set_is_root set_directory set_indexed _path _is_root length app
       fs windows created_instances observers stdout waited].
  split; [done|]. split; [reflexivity|]. done.
Qed.

(** Claim C8: the process has one root handle. When the module is
    imported in a working directory that exists, the object it
    constructs first, a [Folder] for ["."], becomes
    [runtime_properties.root]; whatever calls follow (constructions,
    removals, renames, listings, notifications, changes of the disk by
    others), the root is still that object; and every handle constructed
    then has [_is_root] set to what [os.path.samefile] answers for its
    path and the path of the root: the same object of the disk, whatever
    the two path strings are. *)
Theorem root_is_set_once d w calls :
  dir_on_disk d (pathlib.of_str ".") = true →
  let st0 := (module_init (initial d w)).2 in
  (module_init (initial d w)).1 = Ok tt ∧
  root st0 = Some 0 ∧
  (∃ o, store st0 !! 0 = Some o ∧ class_of o = Folder ∧
        _path o = pathlib.of_str "." ∧ _is_root o = true) ∧
  let st := exec_all calls st0 in
  root st = Some 0 ∧
  ∀ c given mode par l st',
    new c given mode par st = (Ok l, st') →
    root st' = Some 0 ∧
    ∃ o ro, store st' !! l = Some o ∧ store st' !! 0 = Some ro ∧
            Disk.samefile (fs st') (_path o) (_path ro) = Ok (_is_root o).
Proof.
  intros Hd. destruct (module_init_ok d w Hd) as (st0 & o & Hm & Hr & Ho & Hc & Hp & Hi).
  rewrite Hm. cbn [fst snd]. split; [done|]. split; [done|].
  split; [by exists o|]. cbv zeta.
  assert (root (exec_all calls st0) = Some 0) as Hr'.
  { by apply exec_all_keeps_root. }
  split; [done|]. intros c given mode par l st' Hnew.
  assert (root st' = Some 0) as Hr''.
  { pose proof (@preserves_new keeps_root _ keeps_root_allocate c given mode par
                  (exec_all calls st0)) as Hk.
    rewrite Hnew in Hk. by apply Hk. }
  split; [done|].
  apply new_is_root in Hnew as (r & o' & ro & H1 & H2 & H3 & H4).
  rewrite Hr'' in H1. injection H1 as <-. by exists o', ro.
Qed.

(** The theorem for the example process and a run that creates,
    hides and removes a file: the root is still the first object. *)
Lemma root_is_set_once_witness :
  root (exec_all [CallNew File (AStr "new.txt") CREATE None; CallHide 1 true; CallRm 1]
          example_state) = Some 0.
Proof.
  exact (proj1 (proj2 (proj2 (proj2
    (root_is_set_once example_disk false
       [CallNew File (AStr "new.txt") CREATE None; CallHide 1 true; CallRm 1]
       eq_refl))))).
Defined.

(** In the example process, a handle for ["/home/u"] is the root: its
    path differs from the root's ["."], and both denote the working
    directory. *)
Example root_by_identity :
  let out := new Folder (PStr "/home/u") FIND None example_state in
  out.1 = Ok 1 ∧
  (_is_root <$> store out.2 !! 1) = Some true ∧
  (_path <$> store out.2 !! 1) ≠ (_path <$> store out.2 !! 0).
Proof. vm_compute. split; [done|]. split; [done|]. discriminate. Qed.

(** * Renaming and hiding *)

Lemma to_str_nonempty p : pathlib.to_str p ≠ "".
Proof. unfold pathlib.to_str. by case_bool_decide. Qed.

Lemma append_empty_inv (a b : string) : a +:+ b = "" → a = "" ∧ b = "".
Proof. destruct a; [done|done]. Qed.

Lemma join_nonempty_r a s : s ≠ "" → posixpath.join a s ≠ "".
Proof.
  intros Hs. unfold posixpath.join. destruct (pystr.startswith _ s); [done|].
  destruct (_ || _); intros H.
  - by apply append_empty_inv in H as [_ ?].
  - by apply append_empty_inv in H as [_ ?].
Qed.

(** The path with another last name resolves beside the path. *)
Lemma resolve_sibling d p l n c :
  names p = l ++ [n] → n ≠ ".." → Disk.resolve d p = Ok c →
  ∃ dir a m, c = dir ++ [n] ∧ Disk.find (Disk.tree d) dir = Some (Disk.Dir a m) ∧
             ∀ s, s ≠ ".." →
                  Disk.resolve d (mkPath (anchor p) (l ++ [s])) = Ok (dir ++ [s]).
Proof.
  intros Hn Hdd. unfold Disk.resolve, pathlib.is_absolute. cbn [anchor names]. rewrite Hn.
  assert (∀ start, Disk.walk (Disk.tree d) start (l ++ [n]) = Ok c →
    ∃ dir a m, c = dir ++ [n] ∧ Disk.find (Disk.tree d) dir = Some (Disk.Dir a m) ∧
      ∀ s, s ≠ ".." → Disk.walk (Disk.tree d) start (l ++ [s]) = Ok (dir ++ [s])) as Hgen.
  { intros start. rewrite walk_snoc.
    destruct (Disk.walk (Disk.tree d) start l) as [dir|] eqn:Ew; [|done].
    destruct (Disk.find (Disk.tree d) dir) as [[|a m]|] eqn:Ef; try done.
    rewrite bool_decide_eq_false_2 by done. intros [= <-].
    exists dir, a, m. split; [done|]. split; [done|].
    intros s Hs. rewrite walk_snoc, Ew, Ef. by rewrite bool_decide_eq_false_2. }
  destruct (negb (bool_decide (anchor p = ""))); [apply Hgen|].
  destruct (Disk.cwd d) as [x|]; [apply Hgen|done].
Qed.

Lemma last_is_normal_snoc a l s : s ≠ ".." → Disk.last_is_normal (mkPath a (l ++ [s])) = true.
Proof.
  intros Hs. unfold Disk.last_is_normal. cbn [names]. rewrite last_snoc.
  by rewrite bool_decide_eq_false_2.
Qed.

(** [os.rename] from a path to a free name of the same directory. *)
Lemma rename_to_sibling d p l n c node s :
  pathlib.wf p → names p = l ++ [n] → n ≠ ".." →
  Disk.stat d p = Ok (c, node) →
  pathlib.valid_name s → s ≠ ".." → s ≠ n →
  Disk.find (Disk.tree d) (removelast c ++ [s]) = None →
  Disk.rename d (pathlib.to_str p) (posixpath.join (posixpath.dirname (pathlib.to_str p)) s)
  = Ok (renamed d c s).
Proof.
  intros Hwf Hn Hdd Hstat Hs Hsdd Hsn Hfree.
  pose proof Hs as (Hs1 & Hs2 & Hs3).
  unfold Disk.rename.
  rewrite bool_decide_eq_false_2 by apply to_str_nonempty.
  rewrite bool_decide_eq_false_2 by by apply join_nonempty_r.
  cbn [orb]. rewrite of_str_to_str by done.
  rewrite of_str_join_dirname by done. rewrite joined_valid by done.
  rewrite Hstat. rewrite Hn at 1. destruct p as [a nm]. cbn [anchor names] in *. subst nm.
  rewrite last_is_normal_snoc by done. cbn [negb].
  rewrite removelast_last.
  unfold Disk.stat in Hstat.
  destruct (Disk.resolve d (mkPath a (l ++ [n]))) as [c'|] eqn:Er; [|done].
  destruct (Disk.find (Disk.tree d) c') as [node'|] eqn:Ef; [|done].
  injection Hstat as -> ->.
  destruct (resolve_sibling d (mkPath a (l ++ [n])) l n c eq_refl Hdd Er)
    as (dir & da & dm & -> & Hdir & Hsib).
  cbn [anchor] in Hsib. rewrite (Hsib s Hsdd).
  rewrite last_is_normal_snoc by done. cbn [negb].
  rewrite removelast_last in Hfree.
  rewrite bool_decide_eq_false_2 by (intros H; apply app_inj_tail in H as [_ H]; congruence).
  rewrite bool_decide_eq_false_2.
  2:{ intros [r Hr]. assert (r = []) as ->.
      { apply (f_equal length) in Hr. rewrite !length_app in Hr. simpl in Hr.
        destruct r; [done|simpl in Hr; lia]. }
      rewrite app_nil_r in Hr. apply app_inj_tail in Hr as [_ ?]. congruence. }
  rewrite !split_last_snoc. rewrite Hfree.
  unfold renamed. rewrite removelast_last, last_snoc, Ef. cbn [default].
  by destruct node.
Qed.

Section renamed.
Variables (d : Disk.disk) (dir : list string) (n s : string) (node : Disk.node)
  (da : Z) (dm : gmap string Disk.node).
Hypothesis Hdir : Disk.find (Disk.tree d) dir = Some (Disk.Dir da dm).
Hypothesis Hnode : Disk.find (Disk.tree d) (dir ++ [n]) = Some node.
Hypothesis Hfree : Disk.find (Disk.tree d) (dir ++ [s]) = None.

Let d' := renamed d (dir ++ [n]) s.

Lemma renamed_tree :
  Disk.tree d' =
  Disk.set_entry dir s (Some node) (Disk.set_entry dir n None (Disk.tree d)).
Proof. unfold d', renamed. cbn [Disk.tree]. by rewrite removelast_last, last_snoc, Hnode. Qed.

Lemma renamed_kind q :
  ¬ (dir ++ [n]) `prefix_of` q → ¬ (dir ++ [s]) `prefix_of` q →
  kind_at (Disk.tree d') q = kind_at (Disk.tree d) q.
Proof. intros H1 H2. rewrite renamed_tree. by rewrite !kind_at_set_entry. Qed.

Lemma renamed_dir : ∃ a m, Disk.find (Disk.set_entry dir n None (Disk.tree d)) dir
                           = Some (Disk.Dir a m).
Proof.
  apply kind_at_dir. rewrite kind_at_set_entry.
  - unfold kind_at. by rewrite Hdir.
  - intros Hp. apply prefix_length in Hp. rewrite length_app in Hp. simpl in Hp. lia.
Qed.

Lemma renamed_find_new r : Disk.find (Disk.tree d') (dir ++ s :: r) = Disk.find node r.
Proof.
  rewrite renamed_tree. destruct renamed_dir as (a & m & H).
  by rewrite (find_set_entry _ _ _ _ _ _ r H).
Qed.

Lemma n_ne_s : n ≠ s.
Proof. intros ->. by rewrite Hnode in Hfree. Qed.

Lemma renamed_find_old r : Disk.find (Disk.tree d') (dir ++ n :: r) = None.
Proof.
  rewrite renamed_tree. rewrite find_set_entry_other.
  - by rewrite (find_set_entry _ _ _ _ _ _ r Hdir).
  - intros [x Hx]. rewrite <- app_assoc in Hx. apply app_inv_head in Hx.
    injection Hx as Hx _. by apply n_ne_s.
  - intros Hp. apply prefix_length in Hp. rewrite length_app in Hp. simpl in Hp. lia.
Qed.

Lemma exists_not_under_free x :
  kind_at (Disk.tree d) x = Some true → ¬ (dir ++ [s]) `prefix_of` x.
Proof.
  intros Hx [r ->]. unfold kind_at in Hx. by rewrite find_app, Hfree in Hx.
Qed.

Lemma renamed_cwd :
  canonical_cwd d → (∀ x, Disk.cwd d = Some x → ¬ (dir ++ [n]) `prefix_of` x) →
  Disk.cwd d' = Disk.cwd d.
Proof.
  intros Hc Hab. unfold d', renamed. cbn [Disk.cwd]. rewrite removelast_last.
  unfold Disk.cwd_after_rename. destruct (Disk.cwd d) as [x|] eqn:Ex; [|done].
  rewrite bool_decide_eq_false_2 by by apply Hab.
  rewrite bool_decide_eq_false_2; [done|].
  intros ->. destruct (Hc _ Ex) as [_ Hk]. by apply exists_not_under_free in Hk.
Qed.

Lemma renamed_walk start segs c :
  ".." ∉ segs → Disk.walk (Disk.tree d) start segs = Ok c →
  (length c ≤ S (length dir))%nat →
  Disk.walk (Disk.tree d') start segs = Ok c.
Proof.
  intros Hplain Hw Hlen. rewrite <- Hw. apply walk_kind_ext; [done|].
  intros k Hk. pose proof (walk_plain _ _ _ _ Hplain Hw) as ->.
  apply renamed_kind; apply prefix_length_lt; rewrite !length_app in *;
    rewrite length_take; simpl; lia.
Qed.

Lemma renamed_canonical_cwd :
  canonical_cwd d → (∀ x, Disk.cwd d = Some x → ¬ (dir ++ [n]) `prefix_of` x) →
  canonical_cwd d'.
Proof.
  intros Hc Hab x Hx. rewrite renamed_cwd in Hx by done.
  destruct (Hc x Hx) as [Hw Hk].
  assert (∀ q, q `prefix_of` x →
    kind_at (Disk.tree d') q = kind_at (Disk.tree d) q) as Hsame.
  { intros q Hq. apply renamed_kind.
    - intros Hp. apply (Hab x Hx). by etrans.
    - intros Hp. apply (exists_not_under_free x Hk). by etrans. }
  split.
  - rewrite <- Hw. apply walk_kind_ext.
    + apply walk_no_dotdot in Hw; [done|apply not_elem_of_nil].
    + intros k Hk'. apply Hsame. simpl. apply prefix_take.
  - rewrite Hsame; done.
Qed.

(** Renaming back gives the disk before. *)
Lemma renamed_back :
  canonical_cwd d → (∀ x, Disk.cwd d = Some x → ¬ (dir ++ [n]) `prefix_of` x) →
  renamed d' (dir ++ [s]) n = d.
Proof.
  intros Hc Hab. unfold renamed at 1. rewrite removelast_last, last_snoc. cbn [default].
  pose proof (renamed_find_new []) as Hnew.
  change (Disk.find node []) with (Some node) in Hnew. rewrite Hnew.
  rewrite renamed_tree, renamed_cwd by done. change (id s) with s.
  assert (Disk.set_entry dir n (Some node)
            (Disk.set_entry dir s None
               (Disk.set_entry dir s (Some node)
                  (Disk.set_entry dir n None (Disk.tree d)))) = Disk.tree d) as ->.
  { unfold Disk.set_entry. rewrite !alter_at_compose. apply alter_at_id.
    intros x Hx. rewrite Hdir in Hx. injection Hx as <-. cbn. f_equal.
    pose proof Hnode as Hn. pose proof Hfree as Hf.
    rewrite find_snoc, Hdir in Hn. rewrite find_snoc, Hdir in Hf.
    apply map_eq. intros i.
    destruct (decide (i = n)) as [->|Hin].
    + by rewrite lookup_partial_alter_eq.
    + rewrite lookup_partial_alter_ne by done.
      destruct (decide (i = s)) as [->|His].
      * by rewrite lookup_partial_alter_eq.
      * by rewrite !lookup_partial_alter_ne. }
  assert (Disk.cwd_after_rename (dir ++ [s]) (dir ++ [n]) (Disk.cwd d) = Disk.cwd d) as ->.
  { unfold Disk.cwd_after_rename. destruct (Disk.cwd d) as [x|] eqn:Ex; [|done].
    destruct (Hc x Ex) as [_ Hk].
    rewrite bool_decide_eq_false_2 by by apply exists_not_under_free.
    rewrite bool_decide_eq_false_2; [done|].
    intros ->. by apply (Hab _ eq_refl). }
  by destruct d.
Qed.

End renamed.

Lemma name_snoc a l n : pathlib.name (mkPath a (l ++ [n])) = n.
Proof. unfold pathlib.name. cbn [names]. by rewrite last_snoc. Qed.

Lemma names_of_name p n :
  pathlib.name p = n → n ≠ "" → ∃ l, names p = l ++ [n].
Proof.
  unfold pathlib.name. intros Hn Hne.
  destruct (names p) as [|x r] using rev_ind; [by simpl in Hn; subst|].
  rewrite last_snoc in Hn. simpl in Hn. subst. by exists r.
Qed.

(** What is at the new name after the renaming. *)
Lemma renamed_stat d a l n s c node :
  ".." ∉ l → n ≠ ".." → s ≠ ".." →
  canonical_cwd d → (∀ x, Disk.cwd d = Some x → ¬ c `prefix_of` x) →
  Disk.stat d (mkPath a (l ++ [n])) = Ok (c, node) →
  Disk.find (Disk.tree d) (removelast c ++ [s]) = None →
  Disk.stat (renamed d c s) (mkPath a (l ++ [s])) = Ok (removelast c ++ [s], node).
Proof.
  intros Hl Hn Hs Hcwd Hab Hstat Hfree. unfold Disk.stat in Hstat.
  destruct (Disk.resolve d (mkPath a (l ++ [n]))) as [c'|] eqn:Er; [|done].
  destruct (Disk.find (Disk.tree d) c') as [node'|] eqn:Ef; [|done].
  injection Hstat as -> ->.
  destruct (resolve_sibling d (mkPath a (l ++ [n])) l n c eq_refl Hn Er)
    as (dir & da & dm & -> & Hdir & Hsib).
  rewrite removelast_last in *. specialize (Hsib s Hs). cbn [anchor] in Hsib.
  unfold Disk.stat.
  assert (Disk.resolve (renamed d (dir ++ [n]) s) (mkPath a (l ++ [s])) = Ok (dir ++ [s]))
    as ->.
  { revert Hsib. unfold Disk.resolve. rewrite (renamed_cwd d dir n s) by done.
    assert (".." ∉ l ++ [s]) as Hpl.
    { intros [?|?%list_elem_of_singleton]%elem_of_app; [done|]. by subst. }
    destruct (pathlib.is_absolute _).
    - intros Hw. eapply renamed_walk; eauto. rewrite length_app. simpl. lia.
    - destruct (Disk.cwd d); [|done].
      intros Hw. eapply renamed_walk; eauto. rewrite length_app. simpl. lia. }
  by rewrite (renamed_find_new d dir n s node da dm Hdir Ef []).
Qed.

Lemma splitext_ext_dot n :
  posixpath.splitext_ext (String "." n) = posixpath.splitext_ext n.
Proof.
  unfold posixpath.splitext_ext. simpl.
  destruct (pystr.contains posixpath.extsep n) eqn:E; simpl.
  - done.
  - destruct n as [|a r]; [done|]. simpl in *.
    apply orb_false_elim in E as [_ E]. by rewrite E.
Qed.

Lemma runs_bind_inv {A B} (c : M A) (k : A → M B) st Q :
  runs (bind c k) st Q →
  runs c st (λ r st', match r with
                      | Ok a => runs (k a) st' Q
                      | Raise e => Q (Raise e) st'
                      end).
Proof. unfold runs, bind. by destruct (c st) as [[a|e] st']. Qed.

(** [hide] on the dot convention, when the new name is free: the
    backing path is renamed and the handle is initialised again for the
    new path in FIND mode. *)
Lemma hide_posix self h st o c node s rp :
  store st !! self = Some o → windows st = false →
  (h = true → pystr.startswith "." (_name o) = false) →
  s = (if h then "." +:+ _name o else pystr.drop1 (_name o)) →
  _name o = pathlib.name (_path o) →
  pathlib.wf (_path o) → ".." ∉ names (_path o) →
  canonical_cwd (fs st) → (∀ x, Disk.cwd (fs st) = Some x → ¬ c `prefix_of` x) →
  Disk.stat (fs st) (_path o) = Ok (c, node) →
  pathlib.valid_name s → s ≠ ".." →
  Disk.find (Disk.tree (fs st)) (removelast c ++ [s]) = None →
  kind_ok (class_of o) (Disk.is_dir_node node) s = true →
  let p' := mkPath (anchor (_path o)) (removelast (names (_path o)) ++ [s]) in
  let d' := renamed (fs st) c s in
  root_path_for self st p' = Some rp → on_disk d' rp = true →
  ∃ b, Disk.samefile d' p' rp = Ok b ∧
       hide self h st =
       (Ok tt, finished self b (detect_object p' true (Disk.is_dir_node node) o)
                 (detected self p' o (set_fs d' st))).
Proof.
  intros Ho Hw Hvis Hs Hname Hwf Hplain Hcwd Hab Hstat Hval Hsdd Hfree Hkind p' d' Hrp Hroot.
  assert (_name o ≠ "") as Hne.
  { intros E. rewrite E in Hs. destruct Hval as (H1 & H2 & _). by destruct h; subst. }
  destruct (names_of_name (_path o) (_name o) (eq_sym Hname) Hne) as [l Hl].
  assert (_name o ≠ "..") as Hndd.
  { intros E. apply Hplain. rewrite Hl, E. apply elem_of_app. right.
    by apply list_elem_of_singleton. }
  assert (".." ∉ l) as Hlp.
  { intros Hin. apply Hplain. rewrite Hl. apply elem_of_app. by left. }
  assert (p' = mkPath (anchor (_path o)) (l ++ [s])) as Hp'.
  { unfold p'. by rewrite Hl, removelast_last. }
  assert (s ≠ _name o) as Hsn.
  { intros E. unfold Disk.stat in Hstat.
    destruct (Disk.resolve (fs st) (_path o)) as [c'|] eqn:Er; [|done].
    destruct (Disk.find (Disk.tree (fs st)) c') eqn:Ef; [|done]. injection Hstat as -> ->.
    destruct (resolve_sibling _ _ _ _ _ Hl Hndd Er) as (dir & _ & _ & -> & _).
    rewrite removelast_last, E in Hfree. congruence. }
  assert (Disk.rename (fs st) (pathlib.to_str (_path o))
            (posixpath.join (posixpath.dirname (pathlib.to_str (_path o))) s) = Ok d') as Hren.
  { by eapply rename_to_sibling. }
  assert (Disk.stat d' p' = Ok (removelast c ++ [s], node)) as Hst'.
  { rewrite Hp'. unfold d'. eapply (renamed_stat _ _ _ (_name o)); eauto.
    destruct (_path o) as [a nm]. cbn [anchor names] in *. by subst nm. }
  assert (∃ b, Disk.samefile d' p' rp = Ok b) as [b Hb].
  { unfold Disk.samefile. rewrite Hst'. unfold on_disk in Hroot.
    destruct (Disk.stat d' rp) as [[cr nr]|]; [eauto|done]. }
  exists b. split; [done|].
  set (str := posixpath.join (posixpath.dirname (pathlib.to_str (_path o))) s).
  assert (pathlib.of_str str = p') as Hstr.
  { unfold str. rewrite of_str_join_dirname by (done || apply Hval).
    by rewrite joined_valid. }
  assert (os_rename (pathlib.to_str (_path o)) str st = (Ok tt, set_fs d' st)) as Hrename.
  { unfold os_rename, syscall. fold str in Hren. by rewrite Hren. }
  assert (__init__ self (PStr str) FIND None (set_fs d' st) =
          (Ok tt, finished self b (detect_object p' true (Disk.is_dir_node node) o)
                    (detected self p' o (set_fs d' st)))) as Hinit.
  { rewrite (init_eq self (PStr str) FIND None (set_fs d' st) o p' rp); try done.
    - unfold init_outcome. cbn [fs set_fs]. unfold on_disk, dir_on_disk. rewrite Hst'.
      cbn [table perform_all fst snd]. rewrite Hb. done.
    - unfold parse_path. cbn [ensure_path]. by rewrite Hstr.
    - cbn [fs set_fs]. unfold validates, on_disk, dir_on_disk. rewrite Hst'.
      rewrite Hp', name_snoc. unfold kind_ok in Hkind. by destruct (class_of o). }
  assert (set_fs d' st = mkState d' false (store st) (root st) (created_instances st)
                           (observers st) (stdout st) (waited st)) as Hsetfs.
  { unfold set_fs. by rewrite Hw. }
  unfold str in Hrename, Hinit. rewrite Hs in Hrename, Hinit.
  apply runs_eq. unfold hide, ishidden, _ishidden.
  destruct h.
  - steps'. rewrite Hw. steps'. rewrite Hvis by done. cbn [andb].
    steps'. rewrite Hw. steps'.
    apply (runs_of_eq _ _ _ _ _ Hrename). apply (runs_of_eq _ _ _ _ _ Hinit).
    by rewrite Hsetfs.
  - steps'. cbn [andb]. steps'. rewrite Hw. steps'.
    apply (runs_of_eq _ _ _ _ _ Hrename). apply (runs_of_eq _ _ _ _ _ Hinit).
    by rewrite Hsetfs.
Qed.

(** Claim C10: on the dot convention, [hide(False)] on a handle whose
    name does not start with a dot (a visible handle) is no no-op. It is
    [os.rename] of the backing path to the directory's path joined with
    the name without its first character, followed by [__init__] on
    that new path in FIND mode. Where that shorter name is a valid and
    free name of the directory (and the handle is not the working
    directory or above it, its path has no [".."], the kind on the disk
    is the kind of the class, and the root is still there after the
    renaming), the call returns, the object of the disk is found under
    the shorter name and no longer under the old one, and the handle
    has the new path and the shorter name. *)
Theorem hide_false_strips_first_character self st o :
  store st !! self = Some o → windows st = false →
  pystr.startswith "." (_name o) = false →
  let s := pystr.drop1 (_name o) in
  let str := posixpath.join (posixpath.dirname (pathlib.to_str (_path o))) s in
  hide self false st =
    (os_rename (pathlib.to_str (_path o)) str >> __init__ self (PStr str) FIND None) st ∧
  ∀ c node rp,
    _name o = pathlib.name (_path o) →
    pathlib.wf (_path o) → ".." ∉ names (_path o) →
    canonical_cwd (fs st) → (∀ x, Disk.cwd (fs st) = Some x → ¬ c `prefix_of` x) →
    Disk.stat (fs st) (_path o) = Ok (c, node) →
    pathlib.valid_name s → s ≠ ".." →
    Disk.find (Disk.tree (fs st)) (removelast c ++ [s]) = None →
    kind_ok (class_of o) (Disk.is_dir_node node) s = true →
    let p' := mkPath (anchor (_path o)) (removelast (names (_path o)) ++ [s]) in
    root_path_for self st p' = Some rp → on_disk (renamed (fs st) c s) rp = true →
    ∃ st' o',
      hide self false st = (Ok tt, st') ∧
      fs st' = renamed (fs st) c s ∧
      Disk.find (Disk.tree (fs st')) (removelast c ++ [s]) = Some node ∧
      Disk.find (Disk.tree (fs st')) c = None ∧
      store st' !! self = Some o' ∧ _path o' = p' ∧ _name o' = s ∧
      class_of o' = class_of o.
Proof.
  intros Ho Hw Hvis s str. split.
  - destruct ((os_rename (pathlib.to_str (_path o)) str >>
               __init__ self (PStr str) FIND None) st) as [r st'] eqn:E.
    apply runs_eq. unfold hide. steps'. cbn [andb]. steps'. rewrite Hw. steps'.
    apply (runs_bind_inv (os_rename (pathlib.to_str (_path o)) str)
             (λ _, __init__ self (PStr str) FIND None)).
    by apply (runs_of_eq _ _ _ _ _ E).
  - intros c node rp Hname Hwf Hplain Hcwd Hab Hstat Hval Hsdd Hfree Hkind p' Hrp Hroot.
    destruct (hide_posix self false st o c node s rp) as (b & Hb & Hh); try done.
    assert (self < length (store st)) as Hlt by by eapply lookup_lt_Some.
    eexists _, _. split; [exact Hh|].
    unfold finished, detected. cbn [fs store set_fs]. rewrite insert_insert_same.
    rewrite lookup_insert_same by done.
    (* the disk *)
    unfold Disk.stat in Hstat.
    destruct (Disk.resolve (fs st) (_path o)) as [c'|] eqn:Er; [|done].
    destruct (Disk.find (Disk.tree (fs st)) c') as [node'|] eqn:Ef; [|done].
    injection Hstat as -> ->.
    assert (_name o ≠ "") as Hne.
    { intros E. unfold s in Hval. rewrite E in Hval. by destruct Hval. }
    destruct (names_of_name (_path o) (_name o) (eq_sym Hname) Hne) as [l Hl].
    assert (_name o ≠ "..") as Hndd.
    { intros E. apply Hplain. rewrite Hl, E. apply elem_of_app. right.
      by apply list_elem_of_singleton. }
    destruct (resolve_sibling _ _ _ _ _ Hl Hndd Er) as (dir & da & dm & -> & Hdir & _).
    rewrite removelast_last in *.
    split; [done|]. split.
    { by rewrite (renamed_find_new (fs st) dir (_name o) s node da dm Hdir Ef []). }
    split.
    { by rewrite (renamed_find_old (fs st) dir (_name o) s node da dm Hdir Ef Hfree []). }
    split; [reflexivity|].
    rewrite path_configure_object, class_configure_object.
    unfold configure_object. cbn. split; [done|]. split; [|done].
    destruct (class_of o); cbn; unfold p', pathlib.name; cbn [names];
      by rewrite last_snoc.
Qed.

(** The theorem for the handle of [d/x.txt] in the example process: the
    file is found as [d/.txt] afterwards. *)
Lemma hide_false_strips_first_character_witness :
  ∃ st', hide 1 false example_with_x = (Ok tt, st') ∧
         Disk.find (Disk.tree (fs st')) ["home"; "u"; "d"; ".txt"]
           = Some (Disk.File 0 "x") ∧
         Disk.find (Disk.tree (fs st')) ["home"; "u"; "d"; "x.txt"] = None ∧
         (_name <$> store st' !! 1) = Some ".txt".
Proof.
  edestruct (proj2 (hide_false_strips_first_character 1 example_with_x
                      (mkObject File (mkPath "" ["d"; "x.txt"]) "x.txt" true false None
                         false false 1 ".txt" false ∅)
                      eq_refl eq_refl eq_refl)
               ["home"; "u"; "d"; "x.txt"] (Disk.File 0 "x") (mkPath "" []))
    as (st' & o' & H1 & _ & H2 & H3 & H4 & _ & H5 & _).
  - reflexivity.
  - vm_compute. split; [tauto|]. repeat constructor; try discriminate.
  - vm_compute. intros H. by repeat (apply elem_of_cons in H as [H|H]; [discriminate|]);
      apply not_elem_of_nil in H.
  - intros x [= <-]. split; reflexivity.
  - intros x [= <-]. intros [r Hr]. discriminate.
  - reflexivity.
  - vm_compute. repeat split; discriminate.
  - discriminate.
  - reflexivity.
  - reflexivity.
  - reflexivity.
  - reflexivity.
  - exists st'. split; [exact H1|]. split; [exact H2|]. split; [exact H3|].
    etrans; [exact (f_equal (fmap _name) H4)|]. exact (f_equal Some H5).
Defined.

(** * Hiding and showing again *)

(** On the attribute-bit platform every path of [hide] and of
    [ishidden] first passes [self.path], a [pathlib.Path], to a function
    of [kernel32]; the conversion of that argument fails, whatever the
    disk holds. *)
Lemma ishidden_windows self st o :
  store st !! self = Some o → windows st = true →
  ishidden self st = (Raise ArgumentError, st).
Proof.
  intros Ho Hw. apply runs_eq.
  unfold ishidden, _ishidden, get_win_file_attrs, GetFileAttributesW, ctypes_wstr.
  steps'. rewrite Hw. steps'. done.
Qed.

Lemma hide_windows self h st o :
  store st !! self = Some o → windows st = true →
  hide self h st = (Raise ArgumentError, st).
Proof.
  intros Ho Hw. unfold hide. destruct h.
  - unfold bind at 1. by rewrite (ishidden_windows self st o).
  - apply runs_eq. unfold get_win_file_attrs, GetFileAttributesW, ctypes_wstr.
    steps'. cbn [andb]. steps'. rewrite Hw. steps'. done.
Qed.

Lemma valid_name_dot n : pathlib.valid_name n → pathlib.valid_name ("." +:+ n).
Proof.
  intros (H1 & H2 & H3). change ("." +:+ n) with (String "." n). split; [done|]. split.
  - intros [= E]. done.
  - simpl. rewrite H3. done.
Qed.

Lemma kind_ok_dot c dir n : kind_ok c dir ("." +:+ n) = kind_ok c dir n.
Proof.
  unfold kind_ok. change ("." +:+ n) with (String "." n). by rewrite (splitext_ext_dot n).
Qed.

Lemma ishidden_posix self st o :
  store st !! self = Some o → windows st = false →
  ishidden self st = (Ok (pystr.startswith "." (_name o)), st).
Proof.
  intros Ho Hw. apply runs_eq. unfold ishidden, _ishidden. steps'. rewrite Hw. steps'. done.
Qed.

(** The round trip on the dot convention. *)
Lemma hide_unhide_posix self st o c node r :
  store st !! self = Some o → windows st = false →
  pystr.startswith "." (_name o) = false →
  _name o = pathlib.name (_path o) → _name o ≠ "" →
  pathlib.wf (_path o) → ".." ∉ names (_path o) →
  canonical_cwd (fs st) → (∀ x, Disk.cwd (fs st) = Some x → ¬ c `prefix_of` x) →
  Disk.stat (fs st) (_path o) = Ok (c, node) →
  Disk.find (Disk.tree (fs st)) (removelast c ++ ["." +:+ _name o]) = None →
  kind_ok (class_of o) (Disk.is_dir_node node) (_name o) = true →
  root st = Some r →
  (r = self ∨
   ∃ ro, store st !! r = Some ro ∧ on_disk (fs st) (_path ro) = true ∧
         on_disk (renamed (fs st) c ("." +:+ _name o)) (_path ro) = true) →
  ∃ st' o',
    (hide self true >> hide self false) st = (Ok tt, st') ∧
    fs st' = fs st ∧
    store st' !! self = Some o' ∧ _path o' = _path o ∧ _name o' = _name o ∧
    ishidden self st' = (Ok false, st').
Proof.
  intros Ho Hw Hvis Hname Hne Hwf Hplain Hcwd Hab Hstat Hfree Hkind Hr Hroot.
  set (n := _name o) in *. set (s := "." +:+ n) in *.
  destruct (names_of_name (_path o) n (eq_sym Hname) Hne) as [l Hl].
  destruct (_path o) as [a nm] eqn:Ep. cbn [names anchor] in *. subst nm.
  assert (pathlib.valid_name n) as Hvn.
  { destruct Hwf as [_ Hall]. cbn in Hall. apply Forall_app in Hall as [_ Hall].
    by apply Forall_inv in Hall. }
  assert (pathlib.valid_name s) as Hvs by by apply valid_name_dot.
  assert (n ≠ "..") as Hndd.
  { intros E. apply Hplain. rewrite E. apply elem_of_app. right.
    by apply list_elem_of_singleton. }
  assert (s ≠ "..") as Hsdd.
  { unfold s. intros [= E]. by destruct Hvn as (_ & ? & _). }
  assert (".." ∉ l) as Hlp.
  { intros Hin. apply Hplain. apply elem_of_app. by left. }
  assert (self < length (store st)) as Hlt by by eapply lookup_lt_Some.
  set (p := mkPath a (l ++ [n])) in *.
  set (p1 := mkPath a (l ++ [s])).
  set (d1 := renamed (fs st) c s).
  (* where the object is *)
  pose proof Hstat as Hstat0. unfold Disk.stat in Hstat0.
  destruct (Disk.resolve (fs st) p) as [c'|] eqn:Er; [|done].
  destruct (Disk.find (Disk.tree (fs st)) c') as [node'|] eqn:Ef; [|done].
  injection Hstat0 as -> ->.
  destruct (resolve_sibling (fs st) p l n c eq_refl Hndd Er) as (dir & da & dm & -> & Hdir & _).
  rewrite removelast_last in Hfree.
  (* the first call *)
  set (rp1 := if bool_decide (r = self) then p1 else
              default p1 (_path <$> store st !! r)).
  assert (root_path_for self st p1 = Some rp1) as Hrp1.
  { unfold root_path_for, rp1. rewrite Hr. case_bool_decide; [done|].
    destruct Hroot as [?|(ro & -> & _)]; done. }
  assert (Disk.stat d1 p1 = Ok (dir ++ [s], node)) as Hst1.
  { pose proof (renamed_stat (fs st) a l n s (dir ++ [n]) node Hlp Hndd Hsdd Hcwd Hab Hstat)
      as H. rewrite removelast_last in H. by apply H. }
  assert (on_disk d1 rp1 = true) as Hon1.
  { unfold rp1. case_bool_decide as Hrs.
    - unfold on_disk. by rewrite Hst1.
    - destruct Hroot as [?|(ro & -> & _ & H)]; [done|]. exact H. }
  destruct (hide_posix self true st o (dir ++ [n]) node s rp1) as (b1 & Hb1 & Hh1);
    try done; rewrite ?Ep; try done.
  { by rewrite removelast_last. }
  { unfold s. by rewrite kind_ok_dot. }
  { unfold p. cbn [anchor names]. rewrite !removelast_last. exact Hrp1. }
  rewrite Ep in Hh1. unfold p in Hh1. cbn [anchor names] in Hh1.
  rewrite !removelast_last in Hh1. fold p1 d1 in Hh1.
  set (o1 := configure_object
               (set_parent None (set_is_root b1
                  (detect_object p1 true (Disk.is_dir_node node) o)))).
  set (st1 := finished self b1 (detect_object p1 true (Disk.is_dir_node node) o)
                (detected self p1 o (set_fs d1 st))) in *.
  assert (store st1 !! self = Some o1) as Ho1.
  { unfold st1, finished, detected. cbn [store set_fs]. rewrite insert_insert_same.
    by apply lookup_insert_same. }
  assert (_path o1 = p1) as Hp1 by (unfold o1; by rewrite path_configure_object).
  assert (_name o1 = s) as Hn1.
  { unfold o1, configure_object. cbn. destruct (class_of o); cbn; exact (name_snoc a l s). }
  assert (class_of o1 = class_of o) as Hc1.
  { unfold o1. by rewrite class_configure_object. }
  assert (fs st1 = d1) as Hfs1 by done.
  assert (windows st1 = false) as Hw1 by done.
  assert (root st1 = Some r) as Hr1 by (unfold st1; cbn; by rewrite Hr).
  (* the second call *)
  assert (canonical_cwd d1) as Hcwd1.
  { by apply (renamed_canonical_cwd (fs st) dir n s node). }
  assert (Disk.cwd d1 = Disk.cwd (fs st)) as Hcw by by apply renamed_cwd.
  assert (∀ x, Disk.cwd d1 = Some x → ¬ (dir ++ [s]) `prefix_of` x) as Hab1.
  { intros x Hx. rewrite Hcw in Hx. destruct (Hcwd x Hx) as [_ Hk].
    by apply (exists_not_under_free (fs st) dir s). }
  assert (renamed d1 (dir ++ [s]) n = fs st) as Hback.
  { by apply (renamed_back (fs st) dir n s node da dm). }
  set (rp2 := if bool_decide (r = self) then p else
              default p (_path <$> store st !! r)).
  assert (root_path_for self st1 p = Some rp2) as Hrp2.
  { unfold root_path_for, rp2. rewrite Hr1. case_bool_decide as Hrs; [done|].
    destruct Hroot as [?|(ro & Hro & _)]; [done|].
    unfold st1, finished, detected. cbn [store set_fs]. rewrite insert_insert_same.
    rewrite list_lookup_insert_ne by (intros E; by apply Hrs).
    etrans; [exact (f_equal (fmap _path) Hro)|]. by rewrite Hro. }
  assert (on_disk (fs st) rp2 = true) as Hon2.
  { unfold rp2. case_bool_decide as Hrs.
    - unfold on_disk. by rewrite Hstat.
    - destruct Hroot as [?|(ro & -> & H & _)]; [done|]. exact H. }
  destruct (hide_posix self false st1 o1 (dir ++ [s]) node n rp2) as (b2 & Hb2 & Hh2);
    rewrite ?Hp1, ?Hn1, ?Hc1, ?Hfs1; try done.
  { symmetry. exact (name_snoc a l s). }
  { split; [apply Hwf|]. cbn. apply Forall_app. split; [|by constructor].
    destruct Hwf as [_ Hall]. cbn in Hall. by apply Forall_app in Hall as [? _]. }
  { unfold p1. cbn [names].
    intros [?|?%list_elem_of_singleton]%elem_of_app; [done|]. by apply Hsdd. }
  { rewrite removelast_last.
    exact (renamed_find_old (fs st) dir n s node da dm Hdir Ef Hfree []). }
  { unfold p1. cbn [anchor names]. rewrite !removelast_last. exact Hrp2. }
  { rewrite Hback. exact Hon2. }
  rewrite Hp1, Hfs1, Hback in Hh2. unfold p1 in Hh2. cbn [anchor names] in Hh2.
  rewrite !removelast_last in Hh2. fold p in Hh2.
  set (o2 := configure_object
               (set_parent None (set_is_root b2
                  (detect_object p true (Disk.is_dir_node node) o1)))).
  set (st2 := finished self b2 (detect_object p true (Disk.is_dir_node node) o1)
                (detected self p o1 (set_fs (fs st) st1))) in *.
  assert (store st2 !! self = Some o2) as Ho2.
  { unfold st2, finished, detected. cbn [store set_fs]. rewrite insert_insert_same.
    apply lookup_insert_same. unfold st1, finished, detected. cbn [store set_fs].
    by rewrite !length_insert. }
  assert (_name o2 = n) as Hn2.
  { unfold o2, configure_object. cbn. destruct (class_of o1); cbn; exact (name_snoc a l n). }
  exists st2, o2. split_and!; try done.
  - unfold bind. rewrite Hh1. exact Hh2.
  - unfold o2. by rewrite path_configure_object.
  - rewrite (ishidden_posix self st2 o2 Ho2 Hw1). by rewrite Hn2, Hvis.
Qed.

(** Claim C4, on the attribute-bit strategy: for the visible file [a] of
    the example directory, on the platform where [options.platform.windows]
    holds, [hide(True)] raises [ctypes.ArgumentError] and so does
    [hide(False)]; the attribute word of [a], which has the hidden bit
    clear, is never written, and [ishidden] cannot be read either.  The
    round trip of the claim does not take place. *)
Theorem hide_attribute_bit_raises :
  let st := example_windows_with_a in
  windows st = true ∧
  _name <$> store st !! 1 = Some "a" ∧
  Disk.GetFileAttributesW (fs st) (pathlib.of_str "a") = 32%Z ∧
  hide 1 true st = (Raise ArgumentError, st) ∧
  hide 1 false st = (Raise ArgumentError, st) ∧
  ishidden 1 st = (Raise ArgumentError, st).
Proof. vm_compute. by repeat split. Qed.

(** * Hiding onto a name that is taken *)

(** Claim C3, which the code does not meet: in the example directory,
    holding the files [a] and [.a], on the dot-convention platform,
    [File("a").hide(True)] raises nothing.  [os.rename] replaces the
    existing [.a]: afterwards [.a] has the content of [a], the former
    content of [.a] is lost, [a] is gone and the handle is named [.a].
    The docstring of [hide] promises a [FileExistsError] here. *)
Theorem hide_replaces_existing_target :
  let st := example_with_a in
  let out := hide 1 true st in
  windows st = false ∧
  _name <$> store st !! 1 = Some "a" ∧
  Disk.stat (fs st) (pathlib.of_str "a") = Ok (["home"; "u"; "a"], Disk.File 32 "A") ∧
  Disk.stat (fs st) (pathlib.of_str ".a") = Ok (["home"; "u"; ".a"], Disk.File 0 "dot-A") ∧
  out.1 = Ok tt ∧
  Disk.stat (fs out.2) (pathlib.of_str ".a") = Ok (["home"; "u"; ".a"], Disk.File 32 "A") ∧
  Disk.stat (fs out.2) (pathlib.of_str "a") = Raise FileNotFoundError ∧
  _name <$> store out.2 !! 1 = Some ".a".
Proof. vm_compute. by repeat split. Qed.

(** * The child index *)

(** ** The objects a construction leaves alone *)

#[global] Instance keeps_others_preorder self : PreOrder (keeps_others self).
Proof.
  split; [by intros st|]. intros a b c [L1 H1] [L2 H2]. split; [congruence|].
  intros l Hl. by rewrite H2, H1.
Qed.

#[global] Instance keeps_others_stable self : Stable (λ l, l = self) (keeps_others self).
Proof.
  split; [apply _|..]; try (intros; by split).
  intros st l f ->. split.
  - cbn [store set_store]. by rewrite length_alter.
  - intros l Hl. cbn [store set_store]. by rewrite list_lookup_alter_ne.
Qed.

#[global] Instance store_grows_preorder : PreOrder store_grows.
Proof. split; [by intros st l o|]. intros a b c H1 H2 l o Hl. by apply H2, H1. Qed.

#[global] Instance store_grows_stable : Stable (λ _, False) store_grows.
Proof. split; [apply _|..]; try (intros; by intros l o); by intros. Qed.

Lemma new_store_grows c given mode par : preserves store_grows (new c given mode par).
Proof.
  intros st l o Hl. unfold new, bind at 1, allocate.
  set (self := length (store st)). set (sta := set_store (store st ++ [blank c]) st).
  pose proof (preserves_init (touch := λ l, l = self) (R := keeps_others self)
                self given mode par eq_refl sta) as [_ Hk].
  assert (l < self) as Hlt by by eapply lookup_lt_Some.
  assert (store (__init__ self given mode par sta).2 !! l = Some o) as Ho.
  { rewrite Hk by lia. unfold sta. cbn [store set_store]. by rewrite lookup_app_l. }
  unfold bind. by destruct (__init__ self given mode par sta) as [[[]|e] st'].
Qed.
#[global] Hint Resolve new_store_grows : pres.
#[global] Hint Extern 1 (Stable _ _) => typeclasses eauto : pres.

Lemma assign_type_store_grows p : preserves store_grows (assign_type p).
Proof. unfold assign_type. pres. Qed.
#[global] Hint Resolve assign_type_store_grows : pres.

Lemma build_directory_store_grows self contents acc :
  preserves store_grows (build_directory self contents acc).
Proof. revert acc. induction contents as [|f r IH]; intros acc; simpl; pres. Qed.

(** ** The property [directory] *)

Lemma the_folder_inv self st o st' :
  the_folder self st = (Ok o, st') →
  st' = st ∧ store st !! self = Some o ∧ class_of o = Folder.
Proof.
  unfold the_folder, bind, the. destruct (store st !! self) as [x|]; [|done].
  case_bool_decide; [|done]. unfold ret. by intros [= -> ->].
Qed.

Lemma the_folder_eq self st o :
  store st !! self = Some o → class_of o = Folder → the_folder self st = (Ok o, st).
Proof.
  intros Ho Hc. unfold the_folder, bind, the. rewrite Ho.
  by rewrite bool_decide_eq_true_2.
Qed.

(** An indexed folder answers from the mapping it holds: nothing is
    listed and the state stays as it is. *)
Lemma directory_cached self st o :
  store st !! self = Some o → class_of o = Folder → _indexed o = true →
  directory self st = (Ok (_directory o), st).
Proof.
  intros Ho Hc Hi. unfold directory, bind at 1. rewrite (the_folder_eq self st o Ho Hc).
  rewrite Hi. rewrite bool_decide_eq_false_2 by done.
  unfold bind, ret, the. by rewrite Ho.
Qed.

(** What [_update_dir] leaves when it returns: the mapping it built is
    in [_directory], the other attributes of the folder are as
    before. *)
Lemma update_dir_returns self st o st1 :
  store st !! self = Some o →
  _update_dir self st = (Ok tt, st1) →
  ∃ d, store st1 !! self = Some (set_directory d o).
Proof.
  intros Ho H. unfold _update_dir in H.
  apply bind_inv in H as (o' & st2 & H1 & H). apply the_folder_inv in H1 as (-> & _ & _).
  apply bind_inv in H as (p & st2 & H1 & H).
  assert (st2 = st) as ->.
  { revert H1. unfold path, bind, the. rewrite Ho. unfold ret. by intros [= _ <-]. }
  apply bind_inv in H as (l & st2 & H2 & H).
  assert (st2 = st) as -> by (revert H2; unfold os_listdir; by intros [= _ <-]).
  apply bind_inv in H as (d & st3 & H3 & H).
  pose proof (build_directory_store_grows self l ∅ st self o Ho) as Hg.
  rewrite H3 in Hg. cbn [snd] in Hg.
  exists d. revert H. unfold update, modify. intros [= <-].
  cbn [store set_store]. rewrite list_lookup_alter_eq.
  exact (f_equal (fmap (set_directory d)) Hg).
Qed.

(** Whenever [directory] returns, the folder is indexed and holds the
    mapping that was returned. *)
Lemma directory_returns self st d st1 :
  directory self st = (Ok d, st1) →
  ∃ o1, store st1 !! self = Some o1 ∧ class_of o1 = Folder ∧
        _indexed o1 = true ∧ _directory o1 = d.
Proof.
  intros H. unfold directory in H.
  apply bind_inv in H as (o & st2 & H1 & H). apply the_folder_inv in H1 as (-> & Ho & Hc).
  apply bind_inv in H as ([] & st2 & H2 & H).
  case_bool_decide as Hi.
  - apply bind_inv in H2 as ([] & st3 & Hu & H2).
    revert Hu. unfold update, modify. intros [= <-].
    eapply (update_dir_returns self _ (set_indexed true o)) in H2 as [d' Hd'].
    2:{ cbn [store set_store]. rewrite list_lookup_alter_eq.
        exact (f_equal (fmap (set_indexed true)) Ho). }
    revert H. unfold bind, the. rewrite Hd'. unfold ret. intros [= <- <-].
    by eexists.
  - revert H2. unfold ret. intros [= <-].
    revert H. unfold bind, the. rewrite Ho. unfold ret. intros [= <- <-].
    exists o. split_and!; try done. by destruct (_indexed o).
Qed.

(** ** Looking a name up *)

(** [_search_dir] in closed form, from the outcome of its first access
    to [directory]; the second access, on a hit, is answered from the
    mapping held. *)
Lemma search_dir_outcome self target st d st1 :
  directory self st = (Ok d, st1) →
  ∃ o1, store st1 !! self = Some o1 ∧
    _search_dir self target st =
    match d !! target with
    | Some child => (Ok (Some child), st1)
    | None =>
        (Ok None,
         set_stdout (stdout st1 ++ ["'" +:+ target +:+ "' does not exist in '" +:+
                                    pathlib.to_str (_path o1) +:+ "'"]) st1)
    end.
Proof.
  intros H. destruct (directory_returns self st d st1 H) as (o1 & Ho1 & Hc & Hi & Hd).
  exists o1. split; [done|]. unfold _search_dir, bind at 1. rewrite H.
  destruct (d !! target) as [child|] eqn:E.
  - rewrite bool_decide_eq_true_2 by done.
    unfold bind. rewrite (directory_cached self st1 o1 Ho1 Hc Hi), Hd. unfold ret.
    by rewrite E.
  - rewrite bool_decide_eq_false_2 by (by intros [? ?]).
    unfold bind, path, bind, the. by rewrite Ho1.
Qed.

(** Claim C9: once the index of the folder is at hand ([directory]
    returned the mapping [d]), [_search_dir] raises nothing.  For a name
    that is not in the index it prints a line and returns [None]; for a
    name that is, it returns the handle the index has for it, and
    changes nothing else. *)
Theorem search_dir_returns_child_or_none self target st d st1 :
  directory self st = (Ok d, st1) →
  ∃ o1, store st1 !! self = Some o1 ∧
    _search_dir self target st =
    match d !! target with
    | Some child => (Ok (Some child), st1)
    | None =>
        (Ok None,
         set_stdout (stdout st1 ++ ["'" +:+ target +:+ "' does not exist in '" +:+
                                    pathlib.to_str (_path o1) +:+ "'"]) st1)
    end.
Proof. apply search_dir_outcome. Qed.

Lemma search_dir_returns_child_or_none_witness :
  directory 1 example_with_d = (Ok example_index, example_indexed) ∧
  example_index !! "x.txt" = Some 2 ∧ example_index !! "y" = None ∧
  (∃ o1, store example_indexed !! 1 = Some o1 ∧
     _search_dir 1 "x.txt" example_with_d =
     match example_index !! "x.txt" with
     | Some child => (Ok (Some child), example_indexed)
     | None =>
         (Ok None,
          set_stdout (stdout example_indexed ++
                        ["'" +:+ "x.txt" +:+ "' does not exist in '" +:+
                         pathlib.to_str (_path o1) +:+ "'"]) example_indexed)
     end).
Proof.
  split; [vm_compute; reflexivity|]. split; [by vm_compute|]. split; [by vm_compute|].
  apply (search_dir_returns_child_or_none 1 "x.txt" example_with_d example_index
           example_indexed).
  vm_compute; reflexivity.
Defined.

(** ** Listing a directory *)

Lemma insert_at_end {A} (l : list A) x y : <[length l := x]> (l ++ [y]) = l ++ [x].
Proof. rewrite insert_app_r_alt by lia. by rewrite Nat.sub_diag. Qed.

(** [assign_type] on a path that is on the disk: a handle of the class
    that fits is appended to the store, and the disk is not written. *)
Lemma assign_type_found st q cq node r ro :
  Disk.stat (fs st) q = Ok (cq, node) →
  root st = Some r → store st !! r = Some ro → on_disk (fs st) (_path ro) = true →
  ∃ st1 oc,
    assign_type q st = (Ok (length (store st)), st1) ∧
    fs st1 = fs st ∧ root st1 = root st ∧ store st1 = store st ++ [oc] ∧
    class_of oc = (if Disk.is_dir_node node then Folder else File) ∧
    _path oc = q ∧ _name oc = pathlib.name q ∧ _is_dir oc = Disk.is_dir_node node.
Proof.
  intros Hstat Hr Hro Hon.
  assert (r < length (store st)) as Hlt by by eapply lookup_lt_Some.
  set (c := if Disk.is_dir_node node then Folder else File).
  assert (assign_type q st = new c (PPath q) UPDATE None st) as ->.
  { unfold assign_type, bind at 1, path_is_dir, gets. rewrite Hstat. unfold c.
    by destruct (Disk.is_dir_node node). }
  assert (on_disk (fs st) q = true) as Hq by (unfold on_disk; by rewrite Hstat).
  assert (dir_on_disk (fs st) q = Disk.is_dir_node node) as Hd
    by (unfold dir_on_disk; by rewrite Hstat).
  rewrite (new_eq c (PPath q) UPDATE None st q (_path ro)); try done.
  2:{ unfold validates, c. rewrite Hq, Hd. by destruct (Disk.is_dir_node node). }
  2:{ unfold root_path_for. rewrite Hr. rewrite bool_decide_eq_false_2 by lia.
      exact (f_equal (fmap _path) Hro). }
  unfold init_outcome. cbn [fs set_store store created_instances]. rewrite Hq.
  cbn [table perform_all fst snd].
  assert (∃ b, Disk.samefile (fs st) q (_path ro) = Ok b) as [b Hb].
  { unfold Disk.samefile. rewrite Hstat. unfold on_disk in Hon.
    destruct (Disk.stat (fs st) (_path ro)) as [[cr nr]|]; [|done]. by eexists. }
  rewrite Hb. cbn [fst snd]. eexists _, _. split; [reflexivity|].
  unfold finished, detected. cbn [fs root store set_fs set_store set_created_instances].
  rewrite insert_insert_same, insert_at_end, Hr.
  split_and!; try done.
  - unfold c. rewrite class_configure_object. done.
  - by rewrite path_configure_object.
  - unfold configure_object. cbn. by destruct c.
  - unfold configure_object. cbn. rewrite Hd. by destruct c.
Qed.

(** The entry [n] of the directory at [p], by the path [p / n]. *)
Lemma stat_entry d p c a m n node :
  Disk.stat d p = Ok (c, Disk.Dir a m) → n ≠ ".." → m !! n = Some node →
  Disk.stat d (mkPath (anchor p) (names p ++ [n])) = Ok (c ++ [n], node).
Proof.
  intros Hstat Hn Hm. unfold Disk.stat in *.
  destruct (Disk.resolve d p) as [c'|] eqn:Er; [|done].
  destruct (Disk.find (Disk.tree d) c') as [node'|] eqn:Ef; [|done].
  injection Hstat as -> ->.
  assert (Disk.resolve d (mkPath (anchor p) (names p ++ [n])) = Ok (c ++ [n])) as ->.
  { revert Er. unfold Disk.resolve, pathlib.is_absolute. cbn [anchor names].
    destruct (negb _).
    - intros Er. by rewrite walk_snoc, Er, Ef, bool_decide_eq_false_2.
    - destruct (Disk.cwd d); [|done].
      intros Er. by rewrite walk_snoc, Er, Ef, bool_decide_eq_false_2. }
  by rewrite find_snoc, Ef, Hm.
Qed.

Lemma wraps_mono st st' p n dir l : store_grows st st' → wraps st p n dir l → wraps st' p n dir l.
Proof. intros Hg (oc & Hl & H). exists oc. split; [by apply Hg|done]. Qed.

Section listing.
Variables (self r : loc) (o ro : object) (d0 : Disk.disk).
Variables (c : list string) (a : Z) (m : gmap string Disk.node).
Hypothesis Hwf : pathlib.wf (_path o).
Hypothesis Hstat : Disk.stat d0 (_path o) = Ok (c, Disk.Dir a m).
Hypothesis Hnames : ∀ n, is_Some (m !! n) → pathlib.valid_name n ∧ n ≠ "..".
Hypothesis Hroot : on_disk d0 (_path ro) = true.

Lemma build_directory_lists ns st acc :
  listing_inv self r o ro d0 st → indexed_so_far m (_path o) st acc →
  (∀ n, n ∈ ns → is_Some (m !! n)) →
  ∃ d st1,
    build_directory self ns acc st = (Ok d, st1) ∧
    listing_inv self r o ro d0 st1 ∧ store_grows st st1 ∧
    indexed_so_far m (_path o) st1 d ∧
    ∀ n, is_Some (d !! n) ↔ is_Some (acc !! n) ∨ n ∈ ns.
Proof.
  revert st acc. induction ns as [|n ns IH]; intros st acc Hinv Hacc Hns.
  - exists acc, st. split_and!; try done.
    intros n. split; [by left|]. intros [?|?%elem_of_nil]; done.
  - destruct Hinv as (Hfs & Hr & Hro & Ho).
    destruct (Hns n) as [node Hnode]; [by left|].
    destruct (Hnames n) as [Hvn Hdd]; [by eexists|].
    simpl. unfold bind at 1, path, bind at 1, the. rewrite Ho. unfold ret at 1.
    rewrite (of_str_join (_path o) n Hwf) by apply Hvn. rewrite (joined_valid n Hvn).
    set (q := mkPath (anchor (_path o)) (names (_path o) ++ [n])).
    pose proof (stat_entry d0 (_path o) c a m n node Hstat Hdd Hnode) as Hq. fold q in Hq.
    rewrite <- Hfs in Hq, Hroot.
    destruct (assign_type_found st q (c ++ [n]) node r ro Hq Hr Hro Hroot)
      as (st1 & oc & Ha & Hfs1 & Hr1 & Hs1 & Hc1 & Hp1 & Hn1 & Hd1).
    unfold bind. rewrite Ha.
    assert (store_grows st st1) as Hg.
    { intros l x Hl. rewrite Hs1. by apply lookup_app_l_Some. }
    destruct (IH st1 (<[n := length (store st)]> acc)) as (d & st2 & Hb & Hinv2 & Hg2 & Hi2 & Hdom).
    + split_and!; [congruence|congruence|by apply Hg..].
    + intros n' l. destruct (decide (n' = n)) as [->|Hne].
      * rewrite lookup_insert_eq. intros [= <-]. exists node. split; [done|].
        exists oc. split_and!; try done.
        -- rewrite Hs1. by rewrite lookup_app_r, Nat.sub_diag.
        -- rewrite Hn1. unfold q. apply name_snoc.
      * rewrite lookup_insert_ne by done. intros Hl.
        destruct (Hacc n' l Hl) as (node' & ? & ?). exists node'. split; [done|].
        by eapply wraps_mono.
    + intros n' Hin. apply Hns. by right.
    + exists d, st2. split_and!; try done.
      * by etrans.
      * intros n'. rewrite Hdom. destruct (decide (n' = n)) as [->|Hne].
        -- rewrite lookup_insert_eq. split; [intros _; right; by left|intros _; by left].
        -- rewrite lookup_insert_ne by done. rewrite elem_of_cons. tauto.
Qed.

End listing.

(** [_update_dir] lists the directory and indexes every entry. *)
Lemma update_dir_lists self st o c a m r ro :
  store st !! self = Some o → class_of o = Folder → pathlib.wf (_path o) →
  Disk.stat (fs st) (_path o) = Ok (c, Disk.Dir a m) →
  (∀ n, is_Some (m !! n) → pathlib.valid_name n ∧ n ≠ "..") →
  root st = Some r → store st !! r = Some ro → on_disk (fs st) (_path ro) = true →
  ∃ d st1,
    _update_dir self st = (Ok tt, st1) ∧ fs st1 = fs st ∧
    store st1 !! self = Some (set_directory d o) ∧ indexes st1 (_path o) m d.
Proof.
  intros Ho Hc Hwf Hstat Hnames Hr Hro Hon.
  destruct (build_directory_lists self r o ro (fs st) c a m Hwf Hstat Hnames Hon
              (map_to_list m).*1 st ∅) as (d & st1 & Hb & Hinv & Hg & Hi & Hdom).
  { done. }
  { intros n l. by rewrite lookup_empty. }
  { intros n [[n' node] [-> Hin%elem_of_map_to_list]]%list_elem_of_fmap. by eexists. }
  destruct Hinv as (Hfs & _ & _ & Ho1).
  exists d, (set_store (alter (set_directory d) self (store st1)) st1).
  split_and!.
  - unfold _update_dir, bind at 1. rewrite (the_folder_eq self st o Ho Hc).
    unfold bind at 1, path, bind at 1, the. rewrite Ho. unfold ret at 1.
    unfold bind at 1, os_listdir, Disk.listdir. rewrite Hstat.
    unfold bind. by rewrite Hb.
  - done.
  - cbn [store set_store]. rewrite list_lookup_alter_eq.
    exact (f_equal (fmap (set_directory d)) Ho1).
  - intros n. destruct (m !! n) as [node|] eqn:Hm.
    + destruct (proj2 (Hdom n)) as [l Hl].
      { right. apply list_elem_of_fmap. exists (n, node). split; [done|].
        by apply elem_of_map_to_list. }
      exists l. split; [done|]. destruct (Hi n l Hl) as (node' & Hm' & Hw).
      assert (node' = node) as -> by congruence.
      destruct Hw as (oc & Hoc & Hrest). exists oc. split; [|done].
      cbn [store set_store]. destruct (decide (l = self)) as [->|Hne].
      * exfalso. destruct Hrest as (Hcls & Hp & _).
        assert (oc = o) as -> by congruence.
        apply (f_equal (λ x, length (names x))) in Hp. cbn in Hp.
        rewrite length_app in Hp. simpl in Hp. lia.
      * by rewrite list_lookup_alter_ne.
    + destruct (d !! n) as [l|] eqn:Hl; [|done].
      destruct (proj1 (Hdom n)) as [[? Hx]|Hin]; [by eexists|by rewrite lookup_empty in Hx|].
      apply list_elem_of_fmap in Hin as [[n' node] [-> Hin%elem_of_map_to_list]].
      simpl in Hm. congruence.
Qed.

(** The first access to [directory] sets the flag and lists. *)
Lemma directory_first self st o c a m r ro :
  store st !! self = Some o → class_of o = Folder → pathlib.wf (_path o) →
  Disk.stat (fs st) (_path o) = Ok (c, Disk.Dir a m) →
  (∀ n, is_Some (m !! n) → pathlib.valid_name n ∧ n ≠ "..") →
  root st = Some r → store st !! r = Some ro → on_disk (fs st) (_path ro) = true →
  _indexed o = false →
  ∃ d st1,
    directory self st = (Ok d, st1) ∧ fs st1 = fs st ∧
    store st1 !! self = Some (set_directory d (set_indexed true o)) ∧
    indexes st1 (_path o) m d.
Proof.
  intros Ho Hc Hwf Hstat Hnames Hr Hro Hon Hi.
  set (sta := set_store (alter (set_indexed true) self (store st)) st).
  assert (store sta !! self = Some (set_indexed true o)) as Hoa.
  { unfold sta. cbn [store set_store]. rewrite list_lookup_alter_eq.
    exact (f_equal (fmap (set_indexed true)) Ho). }
  destruct (decide (r = self)) as [->|Hne].
  - destruct (update_dir_lists self sta (set_indexed true o) c a m self (set_indexed true o))
      as (d & st1 & Hu & Hfs & Ho1 & Hidx); try done.
    { assert (ro = o) as -> by congruence. exact Hon. }
    exists d, st1. split_and!; try done.
    unfold directory, bind at 1. rewrite (the_folder_eq self st o Ho Hc), Hi.
    rewrite bool_decide_eq_true_2 by done.
    unfold bind at 1, bind at 1, update, modify. fold sta. rewrite Hu.
    unfold bind, the. by rewrite Ho1.
  - destruct (update_dir_lists self sta (set_indexed true o) c a m r ro)
      as (d & st1 & Hu & Hfs & Ho1 & Hidx); try done.
    { unfold sta. cbn [store set_store]. by rewrite list_lookup_alter_ne. }
    exists d, st1. split_and!; try done.
    unfold directory, bind at 1. rewrite (the_folder_eq self st o Ho Hc), Hi.
    rewrite bool_decide_eq_true_2 by done.
    unfold bind at 1, bind at 1, update, modify. fold sta. rewrite Hu.
    unfold bind, the. by rewrite Ho1.
Qed.

(** [direct] reads the disk and the folder, and writes nothing. *)
Lemma direct_reads folder src st : (direct folder src st).2 = st.
Proof.
  unfold direct, bind at 1, abspath.
  destruct (pystr.startswith posixpath.sep src).
  - unfold ret at 1. unfold bind, path, bind, the, ret, os_path_samefile.
    by destruct (store st !! folder).
  - destruct (Disk.cwd (fs st)); [|done].
    unfold bind, path, bind, the, ret, os_path_samefile. by destruct (store st !! folder).
Qed.

(** ** Which events are about a direct child *)

Section normpath.
Import pathlib.
Local Abbreviation sep := posixpath.sep.

(** The loop of [normpath] over components without [".."]. *)
Lemma normpath_steps i L acc :
  ".." ∉ L → fold_left (normpath_step i) L acc = acc ++ filter kept L.
Proof.
  revert acc. induction L as [|x L IH]; intros acc Hdd; [by rewrite app_nil_r|].
  apply not_elem_of_cons in Hdd as [Hx HL]. cbn [fold_left]. rewrite IH by done.
  unfold normpath_step.
  destruct (decide (x = "")) as [->|H1].
  { rewrite filter_cons_False; [done|]. by intros [? _]. }
  destruct (decide (x = ".")) as [->|H2].
  { rewrite filter_cons_False; [done|]. by intros [_ ?]. }
  rewrite (bool_decide_eq_false_2 (x = "")), (bool_decide_eq_false_2 (x = ".")) by done.
  rewrite (bool_decide_eq_false_2 (x = "..")) by congruence. cbn [orb negb].
  rewrite filter_cons_True by done. by rewrite <- app_assoc.
Qed.

Lemma normpath_slash b r :
  b ≠ "/"%char →
  normpath (String "/" (String b r))
  = "/" +:+ pystr.join sep
              (fold_left (normpath_step 1) (pystr.split sep (String "/" (String b r))) []).
Proof. intros Hb. destruct b as [[] [] [] [] [] [] [] []]; try done. Qed.

Lemma normpath_slash2 b r :
  b ≠ "/"%char →
  normpath (String "/" (String "/" (String b r)))
  = "//" +:+ pystr.join sep
               (fold_left (normpath_step 2)
                  (pystr.split sep (String "/" (String "/" (String b r)))) []).
Proof. intros Hb. destruct b as [[] [] [] [] [] [] [] []]; try done. Qed.

Lemma join_app l1 l2 :
  l1 ≠ [] → l2 ≠ [] →
  pystr.join sep (l1 ++ l2) = pystr.join sep l1 +:+ String sep (pystr.join sep l2).
Proof.
  induction l1 as [|x l1 IH]; [done|]. intros _ H2.
  destruct l1 as [|y l1].
  - destruct l2 as [|z l2]; [done|]. done.
  - change ((x :: y :: l1) ++ l2) with (x :: ((y :: l1) ++ l2)).
    change ((y :: l1) ++ l2) with (y :: (l1 ++ l2)) at 1.
    rewrite join_cons. change (y :: (l1 ++ l2)) with ((y :: l1) ++ l2).
    rewrite IH by done. rewrite join_cons. by rewrite append_assoc.
Qed.

Lemma no_sep_not_slash b r : pystr.contains sep (String b r) = false → b ≠ "/"%char.
Proof. simpl. intros [H _]%orb_false_elim. by apply bool_decide_eq_false in H. Qed.

(** [normpath] of a rooted string whose components hold no [".."]:
    the empty components and the dots go. *)
Lemma normpath_rooted a h T :
  a = "/" ∨ a = "//" → h ≠ "" →
  Forall (λ x, pystr.contains sep x = false) (h :: T) → ".." ∉ h :: T →
  normpath (a +:+ pystr.join sep (h :: T)) = a +:+ pystr.join sep (filter kept (h :: T)).
Proof.
  intros Ha Hh Hsep Hdd.
  assert (∃ b r, pystr.join sep (h :: T) = String b r ∧ b ≠ "/"%char) as (b & r & Hj & Hb).
  { destruct h as [|b h']; [done|]. apply Forall_cons in Hsep as [Hs _].
    apply no_sep_not_slash in Hs. destruct T; [by exists b, h'|].
    rewrite join_cons, append_String. by eexists b, _. }
  assert (pystr.split sep (pystr.join sep (h :: T)) = h :: T) as Hsplit
    by by apply split_join.
  destruct Ha as [-> | ->].
  - rewrite Hj. change ("/" +:+ String b r) with (String "/" (String b r)).
    rewrite normpath_slash by done. f_equal. f_equal.
    change (pystr.split sep (String "/" (String b r)))
      with ("" :: pystr.split sep (String b r)).
    rewrite <- Hj, Hsplit. rewrite normpath_steps by (by apply not_elem_of_cons).
    rewrite filter_cons_False by (by intros [? _]). done.
  - rewrite Hj. change ("//" +:+ String b r) with (String "/" (String "/" (String b r))).
    rewrite normpath_slash2 by done. f_equal. f_equal.
    change (pystr.split sep (String "/" (String "/" (String b r))))
      with ("" :: "" :: pystr.split sep (String b r)).
    rewrite <- Hj, Hsplit.
    rewrite normpath_steps by (apply not_elem_of_cons; split; [done|by apply not_elem_of_cons]).
    rewrite !filter_cons_False by (by intros [? _]). done.
Qed.

Lemma valid_no_sep l :
  Forall valid_name l → Forall (λ x, pystr.contains sep x = false) l.
Proof. intros H. eapply Forall_impl; [exact H|]. by intros x (_ & _ & ?). Qed.


(** [os.path.abspath] of the path of an entry [n] of the directory
    [q], as the observer reports it: the absolute path of [q], and
    [n]. *)
Lemma abspath_entry st q n ab :
  wf q → ".." ∉ names q → valid_name n → n ≠ ".." →
  (∀ x, Disk.cwd (fs st) = Some x → Forall valid_name x ∧ ".." ∉ x) →
  absolute (fs st) q = Ok ab →
  abspath (posixpath.join (to_str q) n) st
  = (Ok (to_str (mkPath (anchor ab) (names ab ++ [n]))), st).
Proof.
  intros Hwf Hdd Hn Hnd Hx Hab. pose proof Hwf as [Ha Hl].
  pose proof Hn as (Hn1 & Hn2 & Hn3).
  assert (pystr.startswith sep n = false) as Hns.
  { destruct (pystr.startswith sep n) eqn:E; [|done].
    apply startswith_contains in E. congruence. }
  (* the string the observer reports *)
  assert (∃ E, posixpath.join (to_str q) n = anchor q +:+ pystr.join sep (E ++ [n]) ∧
               filter kept E = names q ∧
               Forall (λ x, pystr.contains sep x = false) E ∧ (".." ∉ E) ∧
               (anchor q = "" → ∃ h T, E = h :: T ∧ h ≠ "") ∧
               (anchor q ≠ "" → E = names q)) as
    (E & Hsrc & HE & HEsep & HEdd & HEhd & HEabs).
  { destruct (to_str_cases q Hwf) as [Hs|(Hs & Hq1 & Hq2)].
    - exists (names q). split_and!.
      + rewrite Hs. unfold posixpath.join. rewrite Hns.
        destruct (names q) as [|y l] eqn:En.
        * simpl. rewrite append_nil_r.
          destruct Ha as [Ha|[Ha|Ha]]; rewrite Ha in *; [|done..].
          exfalso. unfold to_str in Hs. rewrite Ha, En in Hs. simpl in Hs. discriminate.
        * assert (anchor q +:+ pystr.join sep (y :: l) ≠ "") as Hne.
          { intros E. destruct (anchor q); [|done]. simpl in E.
            by apply (join_nonempty (y :: l)). }
          rewrite bool_decide_eq_false_2 by done.
          rewrite endswith_app by by apply join_nonempty.
          rewrite join_endswith by done. cbn [orb].
          rewrite join_snoc by done. by rewrite append_assoc.
      + by apply filter_kept_valid.
      + by apply valid_no_sep.
      + done.
      + intros Hq. destruct (names q) as [|y l] eqn:En.
        * exfalso. unfold to_str in Hs. rewrite Hq, En in Hs. simpl in Hs. discriminate.
        * exists y, l. split; [done|]. by apply Forall_cons in Hl as [(? & _) _].
      + done.
    - exists ["."]. rewrite Hs, Hq1, Hq2. split_and!.
      + unfold posixpath.join. rewrite Hns. done.
      + done.
      + by repeat constructor.
      + intros H%list_elem_of_singleton. discriminate.
      + intros _. by exists ".", [].
      + done. }
  assert (Forall valid_name (names q ++ [n])) as Hlq.
  { apply Forall_app. split; [done|by constructor]. }
  rewrite Hsrc. unfold absolute in Hab. unfold abspath, to_str. cbn [anchor names].
  destruct (pathlib.is_absolute q) eqn:Eabs.
  - injection Hab as <-. unfold pathlib.is_absolute in Eabs.
    apply negb_true_iff, bool_decide_eq_false in Eabs.
    assert (anchor q = "/" ∨ anchor q = "//") as Ha' by (by destruct Ha as [?|[?|?]]; auto).
    assert (pystr.startswith sep (anchor q +:+ pystr.join sep (E ++ [n])) = true) as ->.
    { destruct Ha' as [-> | ->]; done. }
    unfold ret. f_equal. f_equal.
    destruct (E ++ [n]) as [|h T] eqn:EE; [by destruct E|].
    rewrite normpath_rooted.
    + rewrite <- EE, filter_app, HE. rewrite filter_cons_True by (by split).
      rewrite filter_nil. rewrite bool_decide_eq_false_2; [done|].
      destruct Ha' as [-> | ->]; done.
    + done.
    + rewrite (HEabs Eabs) in EE.
      assert (Forall valid_name (h :: T)) as Hv by by rewrite <- EE.
      by apply Forall_cons in Hv as [(? & _) _].
    + rewrite <- EE. apply Forall_app. split; [done|]. by constructor.
    + rewrite <- EE. intros [?|?%list_elem_of_singleton]%elem_of_app; done.
  - unfold pathlib.is_absolute in Eabs. apply negb_false_iff, bool_decide_eq_true in Eabs.
    destruct (Disk.cwd (fs st)) as [x|] eqn:Ex; [|done]. injection Hab as <-.
    destruct (Hx x eq_refl) as [Hxv Hxd]. cbn [anchor names].
    rewrite Eabs. change ("" +:+ pystr.join sep (E ++ [n])) with (pystr.join sep (E ++ [n])).
    destruct (HEhd Eabs) as (h & T & -> & Hh).
    assert (pystr.startswith sep (pystr.join sep ((h :: T) ++ [n])) = false) as ->.
    { apply Forall_cons in HEsep as [Hhs _]. destruct h as [|b h']; [done|].
      apply no_sep_not_slash in Hhs. cbn [app].
      destruct (T ++ [n]) eqn:ET; [by destruct T|]. rewrite join_cons, append_String.
      simpl. by apply bool_decide_eq_false_2. }
    cbv beta. rewrite Ex. f_equal. f_equal.
    assert (posixpath.join ("/" +:+ pystr.join sep x) (pystr.join sep ((h :: T) ++ [n]))
            = "/" +:+ pystr.join sep (x ++ (h :: T) ++ [n])) as ->.
    { unfold posixpath.join.
      assert (pystr.startswith sep (pystr.join sep ((h :: T) ++ [n])) = false) as ->.
      { apply Forall_cons in HEsep as [Hhs _]. destruct h as [|b h']; [done|].
        apply no_sep_not_slash in Hhs. cbn [app].
        destruct (T ++ [n]) eqn:ET; [by destruct T|]. rewrite join_cons, append_String.
        simpl. by apply bool_decide_eq_false_2. }
      destruct x as [|y x'].
      - done.
      - rewrite bool_decide_eq_false_2 by done.
        rewrite endswith_app by by apply join_nonempty.
        rewrite join_endswith by done. cbn [orb].
        rewrite (join_app (y :: x')) by done. by rewrite append_assoc. }
    destruct (x ++ (h :: T) ++ [n]) as [|h0 T0] eqn:EE; [by destruct x|].
    rewrite normpath_rooted.
    + rewrite <- EE, !filter_app, HE. rewrite filter_kept_valid by done.
      rewrite filter_cons_True by (by split). rewrite filter_nil.
      rewrite app_assoc. rewrite bool_decide_eq_false_2; done.
    + by left.
    + destruct x as [|y x']; injection EE as <- <-; [done|].
      by apply Forall_cons in Hxv as [(? & _) _].
    + rewrite <- EE. apply Forall_app. split; [by apply valid_no_sep|].
      apply Forall_app. split; [done|]. by constructor.
    + rewrite <- EE.
      intros [?|[?|?%list_elem_of_singleton]%elem_of_app]%elem_of_app; done.
Qed.

End normpath.

(** [FolderEventHandler.direct] on the report for an entry [n] of a
    directory [q]: whether [q] is the directory of the folder.  What is
    at [n], if anything, plays no part. *)
Lemma direct_outcome self st o c node q cq nq n :
  store st !! self = Some o → Disk.stat (fs st) (_path o) = Ok (c, node) →
  pathlib.wf q → ".." ∉ names q → Disk.stat (fs st) q = Ok (cq, nq) →
  canonical_cwd (fs st) →
  (∀ x, Disk.cwd (fs st) = Some x → Forall pathlib.valid_name x) →
  pathlib.valid_name n → n ≠ ".." →
  direct self (posixpath.join (pathlib.to_str q) n) st = (Ok (bool_decide (cq = c)), st).
Proof.
  intros Ho Hstat Hwf Hdd Hq Hcwd Hx Hn Hnd.
  pose proof Hq as Hq0. unfold Disk.stat in Hq0.
  destruct (Disk.resolve (fs st) q) as [cq'|] eqn:Er; [|done].
  destruct (Disk.find (Disk.tree (fs st)) cq') as [nq'|] eqn:Ef; [|done].
  injection Hq0 as -> ->.
  destruct (absolute_resolve (fs st) q cq Hcwd Hdd Er) as (ab & Hab & Habs & Hnames & _).
  pose proof (resolve_absolute (fs st) q ab Hcwd Hab) as Hrab.
  assert (pathlib.wf ab) as Hwfab.
  { revert Hab. unfold absolute. destruct (pathlib.is_absolute q); [by intros [= <-]|].
    destruct (Disk.cwd (fs st)) as [x|] eqn:Ex; [|done]. intros [= <-].
    destruct Hwf as [_ Hl]. split; [by right; left|]. cbn [names].
    apply Forall_app. split; [by apply Hx|done]. }
  assert (∀ x, Disk.cwd (fs st) = Some x → Forall pathlib.valid_name x ∧ ".." ∉ x) as Hx'.
  { intros x Ex. split; [by apply Hx|]. destruct (Hcwd x Ex) as [Hw _].
    apply walk_no_dotdot in Hw; [done|apply not_elem_of_nil]. }
  unfold direct, bind. rewrite (abspath_entry st q n ab Hwf Hdd Hn Hnd Hx' Hab).
  unfold path, bind. rewrite (the_eq _ _ _ Ho). unfold ret, os_path_samefile.
  rewrite dirname_to_str.
  2:{ destruct Hwfab as [Ha Hl]. split; [done|]. cbn [names].
      apply Forall_app. split; [done|by constructor]. }
  cbn [anchor names]. rewrite removelast_last.
  destruct Hwfab as [Ha Hl]. rewrite of_str_anchor_join by done.
  f_equal. unfold Disk.samefile, Disk.stat.
  assert (mkPath (anchor ab) (names ab) = ab) as -> by by destruct ab.
  rewrite Hrab, Er, Ef. unfold Disk.stat in Hstat.
  destruct (Disk.resolve (fs st) (_path o)) as [c'|]; [|done].
  destruct (Disk.find (Disk.tree (fs st)) c'); [|done]. by injection Hstat as -> _.
Qed.

(** ** The index of a folder *)

(** Claim C6: for a folder handle whose directory is on the disk, with
    the entries [m].  The first access to [directory] lists the
    directory, builds for each entry a handle of class [Folder] or
    [File] as the entry is a directory or not, stores the mapping in
    [_directory] and sets [_indexed].  An access to an indexed folder
    returns the mapping held, and neither the disk is read nor the state
    changed.  A creation or deletion that the observer of the folder
    reports for a direct child runs [_update_dir], which builds the
    whole mapping anew from a listing; a report for anything else, and
    a modification, leave the mapping as it is.  The report for an
    entry [n] of the folder's directory, which the observer gives as
    [os.path.join(str(self.path), n)], is taken for a direct child,
    whatever is or was at [n]; the report for an entry of another
    directory is not. *)
Theorem directory_lists_once_then_caches self st o c a m r ro :
  store st !! self = Some o → class_of o = Folder → pathlib.wf (_path o) →
  Disk.stat (fs st) (_path o) = Ok (c, Disk.Dir a m) →
  (∀ n, is_Some (m !! n) → pathlib.valid_name n ∧ n ≠ "..") →
  root st = Some r → store st !! r = Some ro → on_disk (fs st) (_path ro) = true →
  (_indexed o = false →
   ∃ d st1,
     directory self st = (Ok d, st1) ∧ fs st1 = fs st ∧
     store st1 !! self = Some (set_directory d (set_indexed true o)) ∧
     indexes st1 (_path o) m d) ∧
  (_indexed o = true → directory self st = (Ok (_directory o), st)) ∧
  (∀ obs k src,
     obs_handler obs = FolderEventHandler self →
     match k, (direct self src st).1 with
     | (Created | Deleted), Ok true =>
         ∃ d st1,
           dispatch obs k src st = (Ok tt, st1) ∧ fs st1 = fs st ∧
           store st1 !! self = Some (set_directory d o) ∧
           indexes st1 (_path o) m d
     | _, Ok _ => dispatch obs k src st = (Ok tt, st)
     | _, Raise e => dispatch obs k src st = (Raise e, st)
     end) ∧
  (canonical_cwd (fs st) → ".." ∉ names (_path o) →
   (∀ x, Disk.cwd (fs st) = Some x → Forall pathlib.valid_name x) →
   (∀ obs k n,
      obs_handler obs = FolderEventHandler self → k ≠ Modified →
      pathlib.valid_name n → n ≠ ".." →
      let src := posixpath.join (pathlib.to_str (_path o)) n in
      direct self src st = (Ok true, st) ∧
      ∃ d st1,
        dispatch obs k src st = (Ok tt, st1) ∧ fs st1 = fs st ∧
        store st1 !! self = Some (set_directory d o) ∧
        indexes st1 (_path o) m d) ∧
   (∀ obs k q cq nq n,
      obs_handler obs = FolderEventHandler self →
      pathlib.wf q → ".." ∉ names q → Disk.stat (fs st) q = Ok (cq, nq) → cq ≠ c →
      pathlib.valid_name n → n ≠ ".." →
      let src := posixpath.join (pathlib.to_str q) n in
      direct self src st = (Ok false, st) ∧
      dispatch obs k src st = (Ok tt, st))).
Proof.
  intros Ho Hc Hwf Hstat Hnames Hr Hro Hon. split_and!.
  - intros Hi. by eapply directory_first.
  - intros Hi. by apply directory_cached.
  - intros obs k src Hh. unfold dispatch. rewrite Hh. unfold bind.
    pose proof (direct_reads self src st) as Hd.
    destruct (direct self src st) as [[b|e] st'] eqn:E; cbn [fst snd] in *; subst st'.
    + destruct (update_dir_lists self st o c a m r ro) as (d & st1 & Hu & ?); try done.
      destruct k, b; try done; rewrite Hu; by exists d, st1.
    + by destruct k.
  - intros Hcwd Hdd Hx. split.
    + intros obs k n Hh Hk Hn Hnd src.
      assert (direct self src st = (Ok true, st)) as Hdir.
      { unfold src.
        rewrite (direct_outcome self st o c (Disk.Dir a m) (_path o) c (Disk.Dir a m) n)
          by done.
        by rewrite bool_decide_eq_true_2. }
      split; [done|].
      destruct (update_dir_lists self st o c a m r ro) as (d & st1 & Hu & ?); try done.
      exists d, st1. split; [|done].
      unfold dispatch. rewrite Hh. unfold bind. rewrite Hdir. by destruct k.
    + intros obs k q cq nq n Hh Hwq Hdq Hsq Hne Hn Hnd src.
      assert (direct self src st = (Ok false, st)) as Hdir.
      { unfold src.
        rewrite (direct_outcome self st o c (Disk.Dir a m) q cq nq n) by done.
        by rewrite bool_decide_eq_false_2. }
      split; [done|].
      unfold dispatch. rewrite Hh. unfold bind. rewrite Hdir. by destruct k.
Qed.

(** The theorem for the handle of the working directory in the example
    process, which is not indexed yet: the first access indexes the
    entries [a], [.a] and [d]; the report of a creation of [./new] is
    for a direct child, and the one of [d/new] is not. *)
Lemma directory_lists_once_then_caches_witness :
  let o := mkObject Folder (mkPath "" []) "" true true None false true 1 "" false ∅ in
  let m := <["a" := Disk.File 32 "A"]>
             (<[".a" := Disk.File 0 "dot-A"]>
                (<["d" := Disk.Dir 0 {[ "x.txt" := Disk.File 0 "x" ]}]> ∅)) in
  (∃ d st1,
     directory 0 example_state = (Ok d, st1) ∧ fs st1 = fs example_state ∧
     store st1 !! 0 = Some (set_directory d (set_indexed true o)) ∧
     indexes st1 (_path o) m d) ∧
  direct 0 "./new" example_state = (Ok true, example_state) ∧
  (∃ d st1,
     dispatch (mkObserver (FolderEventHandler 0) (mkPath "" []) false) Created "./new"
       example_state = (Ok tt, st1) ∧
     store st1 !! 0 = Some (set_directory d o) ∧ indexes st1 (_path o) m d) ∧
  direct 0 "d/new" example_state = (Ok false, example_state).
Proof.
  intros o m.
  assert (map_Forall (λ n _, pathlib.valid_name n ∧ n ≠ "..") m) as Hm.
  { apply (bool_decide_unpack _). vm_compute. exact I. }
  pose proof (directory_lists_once_then_caches 0 example_state o ["home"; "u"] 0 m 0 o
                eq_refl eq_refl ltac:(split; [by left|constructor])
                ltac:(vm_compute; reflexivity)
                ltac:(intros n [x Hx]; exact (Hm n x Hx))
                eq_refl eq_refl ltac:(vm_compute; reflexivity))
    as (H1 & _ & _ & H4).
  destruct (H4 example_canonical_cwd (not_elem_of_nil _)
              ltac:(intros x [= <-]; by repeat constructor)) as [Hchild Hother].
  destruct (Hchild (mkObserver (FolderEventHandler 0) (mkPath "" []) false) Created "new"
              eq_refl ltac:(discriminate) ltac:(by split_and!) ltac:(discriminate))
    as (Hd1 & d & st1 & Hd2 & _ & Hd3 & Hd4).
  destruct (Hother (mkObserver (FolderEventHandler 0) (mkPath "" []) false) Created
              (mkPath "" ["d"]) ["home"; "u"; "d"]
              (Disk.Dir 0 ({[ "x.txt" := Disk.File 0 "x" ]} : gmap string Disk.node))
              "new" eq_refl ltac:(split; [by left|by repeat constructor])
              ltac:(intros H; apply list_elem_of_singleton in H; discriminate)
              ltac:(vm_compute; reflexivity) ltac:(discriminate)
              ltac:(by split_and!) ltac:(discriminate))
    as (Ho1 & _).
  split; [exact (H1 eq_refl)|]. split; [exact Hd1|]. split; [|exact Ho1].
  exists d, st1. split; [exact Hd2|]. split; [exact Hd3|exact Hd4].
Defined.

(** * Waiting for a child *)

#[global] Instance keeps_waiting_preorder : PreOrder keeps_waiting.
Proof.
  split; [by intros st|]. intros x y z [H1 H2] [H3 H4]. split; congruence.
Qed.

#[global] Instance keeps_waiting_stable : Stable (λ _, True) keeps_waiting.
Proof.
  split; [apply _|..]; try (intros; by split).
  intros st self p. split; [done|]. cbn [observers set_observers].
  rewrite filter_app, filter_cons_False, filter_nil, app_nil_r; [done|].
  unfold is_temp. by cbn.
Qed.

Lemma keeps_waiting_allocate st o : keeps_waiting st (set_store (store st ++ [o]) st).
Proof. by split. Qed.

(** [_wait_for_file] stops the observer it started, and blocks no
    longer than the timeout. *)
Lemma wait_for_file_state self target timeout fired st :
  (_wait_for_file self target timeout fired st).2 = st ∨
  ∃ blocked, (0 <= blocked <= Z.max 0 timeout)%Z ∧
    (_wait_for_file self target timeout fired st).2 =
    set_observers (observers st) (set_waited (waited st + blocked) st).
Proof.
  destruct (the_folder self st) as [[o|e] st0] eqn:E.
  - apply the_folder_inv in E as (-> & Ho & Hc). right.
    exists (match fired with
            | Some t => Z.max 0 (Z.min t timeout)
            | None => Z.max 0 timeout
            end).
    split; [destruct fired; lia|].
    match goal with
    | |- (?c st).2 = ?x => change (runs c st (λ _ s, s = x))
    end.
    unfold _wait_for_file, event_wait. apply runs_bind.
    eapply runs_of_eq; [by apply the_folder_eq|]. cbv beta iota. steps'.
    by rewrite removelast_last.
  - left. unfold _wait_for_file, bind at 1. rewrite E. cbn [snd].
    revert E. unfold the_folder, bind, the.
    destruct (store st !! self); [|by intros [= _ <-]].
    case_bool_decide; [done|]. by intros [= _ <-].
Qed.

Lemma wait_for_file_bounded self target timeout fired st :
  let st' := (_wait_for_file self target timeout fired st).2 in
  observers st' = observers st ∧
  (waited st <= waited st' <= waited st + Z.max 0 timeout)%Z.
Proof.
  intros st'. unfold st'.
  destruct (wait_for_file_state self target timeout fired st) as [->|(b & Hb & ->)].
  - split; [done|lia].
  - cbn [observers waited set_observers set_waited]. split; [done|lia].
Qed.

(** Claim C2, which the code does not meet: [get] does not wait.  It
    passes the name to [_search_dir] and never reads [timeout] (the
    wait is a [TODO] in its body, although its docstring has [timeout]
    as the time to wait for the target before giving up).  For a name
    that is not in the index, whatever the timeout, [get] returns
    [None] at once, after printing that the name does not exist: the
    result and the state are those of the plain lookup, no time at all
    is spent waiting, no observer is started for a wait, and nothing
    signals that a bound has expired. *)
Theorem get_ignores_timeout self target timeout st d st1 :
  directory self st = (Ok d, st1) → d !! target = None →
  ∃ o1, store st1 !! self = Some o1 ∧
    get self target timeout st
    = (Ok None,
       set_stdout (stdout st1 ++ ["'" +:+ target +:+ "' does not exist in '" +:+
                                  pathlib.to_str (_path o1) +:+ "'"]) st1) ∧
    get self target timeout st = __getitem__ self target st ∧
    waited (get self target timeout st).2 = waited st ∧
    filter is_temp (observers (get self target timeout st).2)
    = filter is_temp (observers st).
Proof.
  intros Hd Hmiss.
  destruct (search_dir_outcome self target st d st1 Hd) as (o1 & Ho1 & Hs).
  rewrite Hmiss in Hs. exists o1. split; [done|]. split; [exact Hs|]. split; [done|].
  exact (preserves_get keeps_waiting_allocate self target timeout st).
Qed.

Lemma get_ignores_timeout_witness :
  directory 1 example_with_d = (Ok example_index, example_indexed) ∧
  example_index !! "y" = None ∧
  get 1 "y" 200 example_with_d
  = (Ok None, set_stdout ["'y' does not exist in 'd'"] example_indexed) ∧
  waited (get 1 "y" 200 example_with_d).2 = 0%Z.
Proof.
  assert (directory 1 example_with_d = (Ok example_index, example_indexed)) as H1
    by (vm_compute; reflexivity).
  assert (example_index !! "y" = None) as H2 by (vm_compute; reflexivity).
  split; [exact H1|]. split; [exact H2|].
  destruct (get_ignores_timeout 1 "y" 200 example_with_d example_index
              example_indexed H1 H2) as (o1 & Ho1 & H3 & _ & H4 & _).
  split; [|exact H4].
  rewrite H3. injection Ho1 as <-. reflexivity.
Defined.



(** * Further properties of the constructor *)

(** ** Validation comes before any change of the disk *)

(** A handle is never built on an object of the other kind, and the
    object is never touched: [Folder] on a path that holds a file, and
    [File] or [JSON] on a path that holds a directory, raise the
    [AssertionError] of [__validate__] in every mode, [OVERWRITE]
    included, before [rm] or [__create__] can run. *)
Theorem kind_mismatch_is_refused c given mode par st p cq node :
  parse_path par given = Ok p →
  parent_ok (fs st) par = true →
  Disk.stat (fs st) p = Ok (cq, node) →
  (c = Folder ∧ Disk.is_dir_node node = false) ∨
  ((c = File ∨ c = JSON) ∧ Disk.is_dir_node node = true) →
  ∃ msg st', new c given mode par st = (Raise (AssertionError msg), st') ∧
             fs st' = fs st ∧ created_instances st' = created_instances st.
Proof.
  intros Hp Hpar Hstat Hk. apply (new_refuses c given mode par st p Hp Hpar).
  unfold validates, on_disk, dir_on_disk. rewrite Hstat.
  destruct Hk as [[-> ->]|[[-> | ->] ->]]; done.
Qed.

Lemma kind_mismatch_is_refused_witness :
  ∃ msg st', new Folder (PStr "a") OVERWRITE None example_state
             = (Raise (AssertionError msg), st') ∧
             fs st' = fs example_state ∧
             created_instances st' = created_instances example_state.
Proof.
  apply (kind_mismatch_is_refused Folder (PStr "a") OVERWRITE None example_state
           (pathlib.of_str "a") ["home"; "u"; "a"] (Disk.File 32 "A")).
  - reflexivity.
  - reflexivity.
  - vm_compute. reflexivity.
  - left. split; reflexivity.
Defined.

(** A [JSON] handle is only built on a name whose extension ends with
    [.json]: for any other name the constructor raises an
    [AssertionError] in every mode, and creates and removes nothing. *)
Theorem json_requires_json_extension given mode par st p :
  parse_path par given = Ok p →
  parent_ok (fs st) par = true →
  str_endswith ".json" (posixpath.splitext_ext (pathlib.name p)) = false →
  ∃ msg st', new JSON given mode par st = (Raise (AssertionError msg), st') ∧
             fs st' = fs st ∧ created_instances st' = created_instances st.
Proof.
  intros Hp Hpar Hext. apply (new_refuses JSON given mode par st p Hp Hpar).
  unfold validates. rewrite Hext. apply andb_false_r.
Qed.

Lemma json_requires_json_extension_witness :
  ∃ msg st', new JSON (PStr ".json") CREATE None example_state
             = (Raise (AssertionError msg), st') ∧
             fs st' = fs example_state ∧
             created_instances st' = created_instances example_state.
Proof.
  apply (json_requires_json_extension (PStr ".json") CREATE None example_state
           (pathlib.of_str ".json")); reflexivity.
Defined.

(** ** The handles that exist *)

(** Constructing a handle, whether the constructor returns or raises,
    leaves every handle that existed before as it was. *)
Theorem construction_keeps_other_handles c given mode par st l o :
  store st !! l = Some o →
  store (new c given mode par st).2 !! l = Some o.
Proof. intros Hl. by apply (new_store_grows c given mode par st). Qed.

Lemma construction_keeps_other_handles_witness :
  store (new File (PStr "a") FIND None example_state).2 !! 0
  = Some (mkObject Folder (mkPath "" []) "" true true None false true 1 "" false ∅).
Proof.
  apply (construction_keeps_other_handles File (PStr "a") FIND None example_state 0).
  reflexivity.
Defined.

(** * Children of a folder *)

(** The path of a single name. *)
Lemma of_str_name n : pathlib.valid_name n → pathlib.of_str n = mkPath "" [n].
Proof.
  intros Hn. pose proof (of_str_to_str (mkPath "" [n])) as H.
  assert (pathlib.to_str (mkPath "" [n]) = n) as E.
  { unfold pathlib.to_str. cbn [anchor names pystr.join].
    change ("" +:+ n) with n. rewrite bool_decide_eq_false_2; [done|apply Hn]. }
  rewrite E in H. apply H. split; [by left|]. by constructor.
Qed.

Lemma parse_path_child p n :
  pathlib.wf p → pathlib.valid_name n →
  parse_path (Some (PPath p)) (PStr n) = Ok (mkPath (anchor p) (names p ++ [n])).
Proof.
  intros Hp Hn. unfold parse_path. cbn [ensure_path]. rewrite (of_str_name n Hn).
  cbn. assert (pathlib.to_str (mkPath "" [n]) = n) as ->.
  { unfold pathlib.to_str. cbn [anchor names pystr.join].
    change ("" +:+ n) with n. rewrite bool_decide_eq_false_2; [done|apply Hn]. }
  rewrite (of_str_join p n Hp) by apply Hn. by rewrite (joined_valid n Hn).
Qed.

(** [join] names the child a constructor called with the folder as
    [parent] would build its handle on: for a name, the string it
    returns is a string of the path [self.path / name]; a target that
    is not of one part, the empty string and a path of several names
    among them, is refused, and nothing changes. *)
Theorem join_names_the_child self st o t :
  store st !! self = Some o → class_of o = Folder → pathlib.wf (_path o) →
  (pathlib.valid_name t →
   ∃ s, join self (FStr t) st = (Ok s, st) ∧
        pathlib.of_str s = mkPath (anchor (_path o)) (names (_path o) ++ [t]) ∧
        parse_path (Some (PPath (_path o))) (PStr t) = Ok (pathlib.of_str s)) ∧
  (length (pathlib.parts (pathlib.of_str t)) ≠ 1 →
   join self (FStr t) st
   = (Raise (AssertionError "target must be a name, not a path."), st)).
Proof.
  intros Ho Hc Hwf. split.
  - intros Hn. exists (posixpath.join (pathlib.to_str (_path o)) t).
    assert (pathlib.of_str (posixpath.join (pathlib.to_str (_path o)) t)
            = mkPath (anchor (_path o)) (names (_path o) ++ [t])) as Hs.
    { rewrite (of_str_join (_path o) t Hwf) by apply Hn. by rewrite (joined_valid t Hn). }
    split_and!; [|done|by rewrite Hs, parse_path_child].
    apply runs_eq. unfold join. apply runs_bind.
    eapply runs_of_eq; [by apply the_folder_eq|]. cbv beta iota.
    cbn [fspath_like ensure_path fspath_str]. rewrite (of_str_name t Hn).
    change (bool_decide (length (pathlib.parts (mkPath "" [t])) = 1)) with true.
    steps'. done.
  - intros Hl. apply runs_eq. unfold join. apply runs_bind.
    eapply runs_of_eq; [by apply the_folder_eq|]. cbv beta iota.
    cbn [fspath_like ensure_path]. rewrite bool_decide_eq_false_2 by done. steps'. done.
Qed.

Lemma join_names_the_child_witness :
  (∃ s, join 0 (FStr "new.txt") example_state = (Ok s, example_state) ∧
        pathlib.of_str s = mkPath "" ["new.txt"] ∧
        parse_path (Some (PPath (mkPath "" []))) (PStr "new.txt") = Ok (pathlib.of_str s)) ∧
  join 0 (FStr "d/new.txt") example_state
  = (Raise (AssertionError "target must be a name, not a path."), example_state).
Proof.
  destruct (join_names_the_child 0 example_state
              (mkObject Folder (mkPath "" []) "" true true None false true 1 "" false ∅)
              "new.txt" eq_refl eq_refl) as [H1 _].
  { split; [by left|constructor]. }
  destruct (join_names_the_child 0 example_state
              (mkObject Folder (mkPath "" []) "" true true None false true 1 "" false ∅)
              "d/new.txt" eq_refl eq_refl) as [_ H2].
  { split; [by left|constructor]. }
  split.
  - apply H1. split_and!; done.
  - apply H2. vm_compute. lia.
Defined.

(** [mk] and [mkdir] do not reach below the folder: a target that is
    not of one part is refused with an [AssertionError], by the
    constructor, and neither the disk nor [created_instances]
    changes. *)
Theorem mk_and_mkdir_refuse_paths self st o target mode :
  store st !! self = Some o → class_of o = Folder →
  length (pathlib.parts (ensure_path target)) ≠ 1 →
  (∃ msg st', mk self target mode st = (Raise (AssertionError msg), st') ∧
              fs st' = fs st ∧ created_instances st' = created_instances st) ∧
  (∃ msg st', mkdir self target mode st = (Raise (AssertionError msg), st') ∧
              fs st' = fs st ∧ created_instances st' = created_instances st).
Proof.
  intros Ho Hc Hl.
  assert (∀ c, ∃ msg st',
            new c target mode (Some (PPath (_path o))) st = (Raise (AssertionError msg), st') ∧
            fs st' = fs st ∧ created_instances st' = created_instances st) as Hnew.
  { intros c.
    enough (runs (new c target mode (Some (PPath (_path o)))) st
              (λ r st', (∃ msg, r = Raise (AssertionError msg)) ∧
                        fs st' = fs st ∧ created_instances st' = created_instances st)) as H.
    { unfold runs in H. destruct (new _ _ _ _ st) as [r st']. simpl in H.
      destruct H as ([msg ->] & ? & ?). by exists msg, st'. }
    unfold new, allocate. apply runs_bind. unfold runs. cbn [fst snd].
    unfold __init__, init_detect. apply runs_bind. apply runs_bind. apply runs_bind.
    cbn [truthy ensure_path]. apply runs_bind. step. step.
    assert (∀ b, runs (assert b "Parent must be a directory.")
                   (set_store (store st ++ [blank c]) st)
                   (λ r st', match r with
                             | Ok _ => b = true ∧ st' = set_store (store st ++ [blank c]) st
                             | Raise e => ∃ msg, e = AssertionError msg
                             end ∧ fs st' = fs st ∧
                             created_instances st' = created_instances st)) as Ha.
    { intros []; step; eauto. }
    match goal with |- runs (assert ?b _) _ _ => specialize (Ha b) end.
    unfold runs in *. destruct (assert _ _ _) as [[[]|e] st1]; cbn [fst snd] in *.
    - destruct Ha as ((_ & ->) & _). unfold bind at 1, lift, parse_path.
      rewrite bool_decide_eq_false_2 by done. cbn [fst snd]. eauto.
    - destruct Ha as ([msg ->] & ? & ?). eauto. }
  split.
  - destruct (Hnew File) as (msg & st' & H & ?). exists msg, st'. split; [|done].
    unfold mk, bind at 1. rewrite (the_folder_eq self st o Ho Hc).
    unfold bind at 1, path, bind at 1. rewrite (the_eq self st o Ho). exact H.
  - destruct (Hnew Folder) as (msg & st' & H & ?). exists msg, st'. split; [|done].
    unfold mkdir, bind at 1. rewrite (the_folder_eq self st o Ho Hc).
    unfold bind at 1, path, bind at 1. rewrite (the_eq self st o Ho). exact H.
Qed.

Lemma mk_and_mkdir_refuse_paths_witness :
  (∃ msg st', mk 0 (PStr "d/y.txt") CREATE example_state = (Raise (AssertionError msg), st') ∧
              fs st' = fs example_state ∧
              created_instances st' = created_instances example_state) ∧
  (∃ msg st', mkdir 0 (PStr "d/e") CREATE example_state = (Raise (AssertionError msg), st') ∧
              fs st' = fs example_state ∧
              created_instances st' = created_instances example_state).
Proof.
  split.
  - apply (mk_and_mkdir_refuse_paths 0 example_state
             (mkObject Folder (mkPath "" []) "" true true None false true 1 "" false ∅)
             (PStr "d/y.txt") CREATE eq_refl eq_refl).
    vm_compute. lia.
  - apply (mk_and_mkdir_refuse_paths 0 example_state
             (mkObject Folder (mkPath "" []) "" true true None false true 1 "" false ∅)
             (PStr "d/e") CREATE eq_refl eq_refl).
    vm_compute. lia.
Defined.

(** An entry added to a directory hides nothing that was on the disk. *)
Lemma on_disk_set_entry_new d dir s v rp :
  Disk.find (Disk.tree d) (dir ++ [s]) = None →
  on_disk d rp = true →
  on_disk (Disk.mkDisk (Disk.set_entry dir s v (Disk.tree d)) (Disk.cwd d)) rp = true.
Proof.
  intros Hnew. unfold on_disk, Disk.stat.
  destruct (Disk.resolve d rp) as [cr|] eqn:Er; [|done].
  rewrite (resolve_set_entry_new d dir s v rp cr Hnew Er). cbn [Disk.tree].
  destruct (Disk.find (Disk.tree d) cr) as [nr|] eqn:Ef; [|done]. intros _.
  assert (¬ (dir ++ [s]) `prefix_of` cr) as Hnp.
  { intros [k ->]. by rewrite (find_None_under _ _ k Hnew) in Ef. }
  pose proof (kind_at_set_entry dir s v (Disk.tree d) cr Hnp) as Hk.
  unfold kind_at in Hk. rewrite Ef in Hk.
  by destruct (Disk.find (Disk.set_entry dir s v (Disk.tree d)) cr).
Qed.

(** A constructor called with the folder as [parent] and a name that
    the folder does not hold, in a mode that creates. *)
Lemma new_child_created c p n mode st cdir a m r ro :
  c = Folder ∨ c = File →
  pathlib.wf p → Disk.stat (fs st) p = Ok (cdir, Disk.Dir a m) →
  pathlib.valid_name n → n ≠ ".." → m !! n = None → mode ≠ FIND →
  root st = Some r → store st !! r = Some ro → on_disk (fs st) (_path ro) = true →
  let q := mkPath (anchor p) (names p ++ [n]) in
  let d' := Disk.mkDisk (Disk.set_entry cdir n (Some (fresh_node c)) (Disk.tree (fs st)))
                        (Disk.cwd (fs st)) in
  ∃ st' oc,
    new c (PStr n) mode (Some (PPath p)) st = (Ok (length (store st)), st') ∧
    fs st' = d' ∧ created_instances st' = created_instances st ++ [q] ∧
    store st' = store st ++ [oc] ∧
    class_of oc = c ∧ _path oc = q ∧ _name oc = n ∧ _is_root oc = false ∧
    _parent oc = None ∧
    Disk.stat d' q = Ok (cdir ++ [n], fresh_node c).
Proof.
  intros Hc Hwf Hstat Hn Hdd Hm Hmode Hr Hro Hon q d'.
  assert (r < length (store st)) as Hlt by by eapply lookup_lt_Some.
  pose proof Hstat as Hstat0. unfold Disk.stat in Hstat0.
  destruct (Disk.resolve (fs st) p) as [c'|] eqn:Er; [|done].
  destruct (Disk.find (Disk.tree (fs st)) c') as [node'|] eqn:Ef; [|done].
  injection Hstat0 as -> ->.
  assert (Disk.resolve (fs st) q = Ok (cdir ++ [n])) as Hrq.
  { revert Er. unfold Disk.resolve, pathlib.is_absolute, q. cbn [anchor names].
    destruct (negb _).
    - intros Er. by rewrite walk_snoc, Er, Ef, bool_decide_eq_false_2.
    - destruct (Disk.cwd (fs st)); [|done].
      intros Er. by rewrite walk_snoc, Er, Ef, bool_decide_eq_false_2. }
  assert (Disk.find (Disk.tree (fs st)) (cdir ++ [n]) = None) as Hfq
    by by rewrite find_snoc, Ef.
  assert (on_disk (fs st) q = false) as Hq.
  { unfold on_disk, Disk.stat. by rewrite Hrq, Hfq. }
  assert (dir_on_disk (fs st) q = false) as Hdq.
  { unfold dir_on_disk, Disk.stat. by rewrite Hrq, Hfq. }
  assert (create_on_disk c (fs st) q = (Ok tt, d')) as Hcreate.
  { unfold create_on_disk, Disk.mkdir, Disk.create_truncate.
    rewrite Hrq, Hfq, split_last_snoc, Ef. by destruct Hc as [-> | ->]. }
  assert (Disk.stat d' q = Ok (cdir ++ [n], fresh_node c)) as Hsq.
  { unfold Disk.stat. unfold d' at 1.
    rewrite (resolve_set_entry_new (fs st) cdir n _ q (cdir ++ [n]) Hfq Hrq).
    unfold d'. cbn [Disk.tree].
    by rewrite (find_set_entry cdir n (Some (fresh_node c)) _ a m [] Ef). }
  assert (on_disk d' (_path ro) = true) as Hon' by by apply on_disk_set_entry_new.
  assert (Disk.samefile d' q (_path ro) = Ok false) as Hsame.
  { unfold Disk.samefile. rewrite Hsq. unfold on_disk in Hon, Hon'.
    destruct (Disk.stat d' (_path ro)) as [[cr nr]|] eqn:Esr; [|done].
    f_equal. apply bool_decide_eq_false_2. intros Heq.
    unfold Disk.stat in Hon.
    destruct (Disk.resolve (fs st) (_path ro)) as [cr0|] eqn:Err; [|done].
    destruct (Disk.find (Disk.tree (fs st)) cr0) as [nr0|] eqn:Efr; [|done].
    assert (Disk.resolve d' (_path ro) = Ok cr0) as Hrr
      by exact (resolve_set_entry_new (fs st) cdir n _ (_path ro) cr0 Hfq Err).
    unfold Disk.stat in Esr. rewrite Hrr in Esr.
    destruct (Disk.find (Disk.tree d') cr0); [|done].
    assert (cr0 = cdir ++ [n]) as -> by congruence. congruence. }
  rewrite (new_eq c (PStr n) mode (Some (PPath p)) st q (_path ro)).
  2:{ by apply parse_path_child. }
  2:{ unfold parent_ok. cbn [truthy ensure_path implb]. unfold dir_on_disk. by rewrite Hstat. }
  2:{ unfold validates. rewrite Hq. by destruct Hc as [-> | ->]. }
  2:{ unfold root_path_for. rewrite Hr. rewrite bool_decide_eq_false_2 by lia.
      exact (f_equal (fmap _path) Hro). }
  unfold init_outcome. cbn [fs set_store store created_instances]. rewrite Hq.
  assert (table mode false = Do [Create]) as -> by by destruct mode.
  cbn [perform_all perform fst snd class_of blank create_wrappers]. rewrite Hcreate.
  cbn [fst snd replicate]. rewrite Hsame. cbn [fst snd].
  eexists _, _. split; [reflexivity|].
  unfold finished, detected.
  cbn [fs root store created_instances set_fs set_store set_created_instances].
  rewrite insert_insert_same, insert_at_end.
  split_and!; try done.
  - by rewrite class_configure_object.
  - by rewrite path_configure_object.
  - unfold configure_object. cbn. destruct c; cbn; exact (name_snoc (anchor p) (names p) n).
  - by rewrite is_root_configure_object.
  - unfold configure_object. cbn. by destruct c.
Qed.

(** [mk(name)] creates an empty file, and [mkdir(name)] an empty
    directory, under the name in the folder's directory, when the
    directory does not hold the name and the mode is one that creates.
    The handle returned is a new one on the path [self.path / name];
    the path is appended once to [created_instances]; the rest of the
    disk stays as it was. *)
Theorem mk_and_mkdir_create_the_child self st o n mode cdir a m r ro :
  store st !! self = Some o → class_of o = Folder → pathlib.wf (_path o) →
  Disk.stat (fs st) (_path o) = Ok (cdir, Disk.Dir a m) →
  pathlib.valid_name n → n ≠ ".." → m !! n = None → mode ≠ FIND →
  root st = Some r → store st !! r = Some ro → on_disk (fs st) (_path ro) = true →
  let q := mkPath (anchor (_path o)) (names (_path o) ++ [n]) in
  let made node :=
    Disk.mkDisk (Disk.set_entry cdir n (Some node) (Disk.tree (fs st)))
                (Disk.cwd (fs st)) in
  (∃ st' oc,
     mk self (PStr n) mode st = (Ok (length (store st)), st') ∧
     store st' = store st ++ [oc] ∧ class_of oc = File ∧ _path oc = q ∧
     fs st' = made (Disk.File 0 "") ∧
     Disk.stat (fs st') q = Ok (cdir ++ [n], Disk.File 0 "") ∧
     created_instances st' = created_instances st ++ [q]) ∧
  (∃ st' oc,
     mkdir self (PStr n) mode st = (Ok (length (store st)), st') ∧
     store st' = store st ++ [oc] ∧ class_of oc = Folder ∧ _path oc = q ∧
     fs st' = made (Disk.Dir 0 ∅) ∧
     Disk.stat (fs st') q = Ok (cdir ++ [n], Disk.Dir 0 ∅) ∧
     created_instances st' = created_instances st ++ [q]).
Proof.
  intros Ho Hc Hwf Hstat Hn Hdd Hm Hmode Hr Hro Hon q made. split.
  - destruct (new_child_created File (_path o) n mode st cdir a m r ro)
      as (st' & oc & H & Hfs & Hcr & Hs & Hcl & Hp & _ & _ & _ & Hsq); try done; [by right|].
    exists st', oc. split_and!; try done; [|by rewrite Hfs].
    unfold mk, bind at 1. rewrite (the_folder_eq self st o Ho Hc).
    unfold bind at 1, path, bind at 1. rewrite (the_eq self st o Ho). exact H.
  - destruct (new_child_created Folder (_path o) n mode st cdir a m r ro)
      as (st' & oc & H & Hfs & Hcr & Hs & Hcl & Hp & _ & _ & _ & Hsq); try done; [by left|].
    exists st', oc. split_and!; try done; [|by rewrite Hfs].
    unfold mkdir, bind at 1. rewrite (the_folder_eq self st o Ho Hc).
    unfold bind at 1, path, bind at 1. rewrite (the_eq self st o Ho). exact H.
Qed.

Lemma mk_and_mkdir_create_the_child_witness :
  ∃ st' oc,
    mk 0 (PStr "new.txt") CREATE example_state = (Ok 1, st') ∧
    store st' = store example_state ++ [oc] ∧ class_of oc = File ∧
    _path oc = mkPath "" ["new.txt"] ∧
    Disk.stat (fs st') (mkPath "" ["new.txt"])
    = Ok (["home"; "u"; "new.txt"], Disk.File 0 "") ∧
    created_instances st' = [mkPath "" ["new.txt"]].
Proof.
  pose (o := mkObject Folder (mkPath "" []) "" true true None false true 1 "" false ∅).
  pose (m := (<["a" := Disk.File 32 "A"]>
               (<[".a" := Disk.File 0 "dot-A"]>
                  (<["d" := Disk.Dir 0 {[ "x.txt" := Disk.File 0 "x" ]}]> ∅)))
             : gmap string Disk.node).
  destruct (proj1 (mk_and_mkdir_create_the_child 0 example_state o "new.txt" CREATE
                     ["home"; "u"] 0 m 0 o eq_refl eq_refl
                     ltac:(split; [by left|constructor])
                     ltac:(vm_compute; reflexivity)
                     ltac:(split_and!; done) ltac:(done) ltac:(vm_compute; reflexivity)
                     ltac:(done) eq_refl eq_refl ltac:(vm_compute; reflexivity)))
    as (st' & oc & H1 & H2 & H3 & H4 & _ & H5 & H6).
  exists st', oc. split_and!; [exact H1|exact H2|exact H3|exact H4|exact H5|exact H6].
Defined.

(** ** The parent of a handle *)

Lemma of_str_dirname_child p n :
  pathlib.wf p → pathlib.valid_name n →
  pathlib.of_str (posixpath.dirname
                    (pathlib.to_str (mkPath (anchor p) (names p ++ [n])))) = p.
Proof.
  intros [Ha Hl] Hn. rewrite dirname_to_str.
  - cbn [anchor names]. rewrite removelast_last.
    rewrite of_str_anchor_join by done. by destruct p.
  - split; [done|]. cbn [names]. apply Forall_app. split; [done|by constructor].
Qed.

(** The first access to [parent] of a handle that is not the root
    builds a [Folder] handle on the directory of the path, in [FIND]
    mode: a new handle, also where one on that directory exists, and
    the disk is not written.  The handle is kept in [_parent]: the next
    access returns it and changes nothing. *)
Theorem parent_is_built_once child st oc p n cdir a m r ro :
  store st !! child = Some oc → _is_root oc = false → _parent oc = None →
  _path oc = mkPath (anchor p) (names p ++ [n]) →
  pathlib.wf p → pathlib.valid_name n →
  Disk.stat (fs st) p = Ok (cdir, Disk.Dir a m) →
  root st = Some r → store st !! r = Some ro → on_disk (fs st) (_path ro) = true →
  ∃ st' op,
    parent child st = (Ok (length (store st)), st') ∧ fs st' = fs st ∧
    store st' !! length (store st) = Some op ∧ class_of op = Folder ∧ _path op = p ∧
    parent child st' = (Ok (length (store st)), st').
Proof.
  intros Ho Hnr Hpar Hpath Hwf Hn Hstat Hr Hro Hon.
  assert (child < length (store st)) as Hlt by by eapply lookup_lt_Some.
  assert (r < length (store st)) as Hltr by by eapply lookup_lt_Some.
  set (l := length (store st)).
  set (dp := posixpath.dirname (pathlib.to_str (_path oc))).
  assert (pathlib.of_str dp = p) as Hdp.
  { unfold dp. rewrite Hpath. by apply of_str_dirname_child. }
  assert (on_disk (fs st) p = true) as Hop by (unfold on_disk; by rewrite Hstat).
  assert (dir_on_disk (fs st) p = true) as Hdd by (unfold dir_on_disk; by rewrite Hstat).
  assert (∃ b, Disk.samefile (fs st) p (_path ro) = Ok b) as [b Hb].
  { unfold Disk.samefile. rewrite Hstat. unfold on_disk in Hon.
    destruct (Disk.stat (fs st) (_path ro)) as [[cr nr]|]; [|done]. by eexists. }
  assert (∃ st1 op, new Folder (PStr dp) FIND None st = (Ok l, st1) ∧ fs st1 = fs st ∧
                    store st1 = store st ++ [op] ∧ class_of op = Folder ∧ _path op = p)
    as (st1 & op & Hnew & Hfs1 & Hs1 & Hc1 & Hp1).
  { rewrite (new_eq Folder (PStr dp) FIND None st p (_path ro)).
    2:{ unfold parse_path. cbn [ensure_path]. by rewrite Hdp. }
    2:{ done. }
    2:{ unfold validates. by rewrite Hop, Hdd. }
    2:{ unfold root_path_for. rewrite Hr. rewrite bool_decide_eq_false_2 by lia.
        exact (f_equal (fmap _path) Hro). }
    unfold init_outcome. cbn [fs set_store store created_instances]. rewrite Hop.
    cbn [table perform_all fst snd]. rewrite Hb. cbn [fst snd].
    eexists _, _. split; [reflexivity|].
    unfold finished, detected.
    cbn [fs root store created_instances set_fs set_store set_created_instances].
    rewrite insert_insert_same, insert_at_end.
    by split_and!. }
  set (st2 := set_store (alter (set_parent (Some l)) child (store st1)) st1).
  assert (store st1 !! child = Some oc) as Ho1.
  { rewrite Hs1. by apply lookup_app_l_Some. }
  assert (store st2 !! child = Some (set_parent (Some l) oc)) as Ho2.
  { unfold st2. cbn [store set_store]. rewrite list_lookup_alter_eq.
    exact (f_equal (fmap (set_parent (Some l))) Ho1). }
  exists st2, op. split_and!; try done.
  - unfold parent. unfold bind at 1. rewrite (the_eq child st oc Ho), Hnr.
    unfold bind at 1. rewrite (the_eq child st oc Ho), Hpar.
    unfold bind at 1, dirpath, bind at 1. rewrite (the_eq child st oc Ho).
    unfold ret at 1. fold dp. unfold bind at 1. rewrite Hnew.
    unfold bind, update, modify, ret. done.
  - unfold st2. cbn [store set_store]. rewrite list_lookup_alter_ne by (unfold l; lia).
    rewrite Hs1. by rewrite lookup_app_r, Nat.sub_diag.
  - unfold parent. unfold bind at 1. rewrite (the_eq child st2 _ Ho2).
    cbn [_is_root set_parent]. rewrite Hnr.
    unfold bind at 1. rewrite (the_eq child st2 _ Ho2). done.
Qed.

Lemma parent_is_built_once_witness :
  ∃ st' op,
    parent 1 example_with_x = (Ok 2, st') ∧ fs st' = fs example_with_x ∧
    store st' !! 2 = Some op ∧ class_of op = Folder ∧ _path op = mkPath "" ["d"] ∧
    parent 1 st' = (Ok 2, st').
Proof.
  apply (parent_is_built_once 1 example_with_x
           (mkObject File (mkPath "" ["d"; "x.txt"]) "x.txt" true false None false false 1
              ".txt" false ∅)
           (mkPath "" ["d"]) "x.txt" ["home"; "u"; "d"] 0
           ({[ "x.txt" := Disk.File 0 "x" ]} : gmap string Disk.node) 0
           (mkObject Folder (mkPath "" []) "" true true None false true 1 "" false ∅)).
  - reflexivity.
  - reflexivity.
  - reflexivity.
  - reflexivity.
  - split; [by left|]. by repeat constructor.
  - by split_and!.
  - vm_compute. reflexivity.
  - reflexivity.
  - reflexivity.
  - vm_compute. reflexivity.
Defined.

(** * Removing *)

(** The working directory is below no file. *)
Lemma cwd_not_below_file d c fa fd x :
  canonical_cwd d → Disk.cwd d = Some x →
  Disk.find (Disk.tree d) c = Some (Disk.File fa fd) → ¬ c `prefix_of` x.
Proof.
  intros Hcwd Hx Hf [r ->]. destruct (Hcwd _ Hx) as [_ Hk].
  unfold kind_at in Hk. rewrite find_app, Hf in Hk. simpl in Hk.
  by destruct r.
Qed.

(** What [delete_path] leaves: nothing at the path or below it, the
    rest of the tree, and the working directory unless it was
    removed. *)
Lemma delete_on_disk_effect d p c n :
  canonical_cwd d → ".." ∉ names p → Disk.stat d p = Ok (c, n) → c ≠ [] →
  ∃ d', delete_on_disk d p = (Ok tt, d') ∧
        (∀ q, kind_at (Disk.tree d') q =
              if bool_decide (c `prefix_of` q) then None else kind_at (Disk.tree d) q) ∧
        Disk.cwd d' = match Disk.cwd d with
                      | Some x => if bool_decide (c `prefix_of` x) then None else Some x
                      | None => None
                      end.
Proof.
  intros Hcwd Hplain Hstat Hne.
  destruct (delete_on_disk_removes d p c n Hcwd Hplain Hstat Hne) as (d' & Hd & Hk).
  exists d'. split; [done|]. split; [done|].
  revert Hd. unfold Disk.stat in Hstat.
  destruct (Disk.resolve d p) as [c'|] eqn:Er; [|done].
  destruct (Disk.find (Disk.tree d) c') as [n'|] eqn:Ef; [|done].
  injection Hstat as -> ->.
  destruct (absolute_resolve d p c Hcwd Hplain Er) as (a & Ha & Habs & Hnames & Hdd).
  unfold delete_on_disk. rewrite Ha. unfold dir_on_disk, Disk.stat. rewrite Er, Ef.
  destruct n as [fa fd|da dm]; cbn [Disk.is_dir_node].
  - unfold Disk.unlink.
    destruct (Disk.resolve d a) as [ca|]; [|done].
    destruct (Disk.find (Disk.tree d) ca) as [[|]|], (Disk.split_last ca) as [[? ?]|];
      try done.
    intros [= <-]. cbn [Disk.cwd]. destruct (Disk.cwd d) as [x|] eqn:Ex; [|done].
    rewrite bool_decide_eq_false_2; [done|]. by eapply cwd_not_below_file.
  - unfold Disk.rmtree.
    destruct (Disk.resolve d a) as [ca|] eqn:Era; [|done].
    assert (ca = c) as ->.
    { rewrite resolve_absolute_plain in Era by done.
      apply (walk_plain (Disk.tree d) [] (names a) ca) in Era; [|by rewrite Hnames].
      simpl in Era. congruence. }
    rewrite Ef.
    set (d1 := Disk.mkDisk (Disk.clear_dir c (Disk.tree d))
                 (Disk.cwd_after_removal true c (Disk.cwd d))).
    unfold Disk.rmdir.
    destruct (Disk.resolve d1 a) as [ca|] eqn:Era1; [|done].
    assert (ca = c) as ->.
    { rewrite resolve_absolute_plain in Era1 by done.
      apply (walk_plain (Disk.tree d1) [] (names a) ca) in Era1; [|by rewrite Hnames].
      simpl in Era1. congruence. }
    destruct (Disk.find (Disk.tree d1) c) as [[|? m1]|]; try done.
    destruct (negb (bool_decide (m1 = ∅))); [done|].
    destruct (negb (Disk.last_is_normal a)); [done|].
    destruct (Disk.split_last c) as [[? ?]|]; [|done].
    intros [= <-]. cbn [Disk.cwd]. unfold Disk.cwd_after_removal.
    destruct (Disk.cwd d) as [x|]; [|done].
    destruct (bool_decide (c `prefix_of` x)) eqn:Ep, (bool_decide (x = c));
      cbn [andb negb]; rewrite ?Ep; done.
Qed.

Lemma canonical_cwd_after_delete d d' c :
  canonical_cwd d →
  (∀ q, kind_at (Disk.tree d') q =
        if bool_decide (c `prefix_of` q) then None else kind_at (Disk.tree d) q) →
  Disk.cwd d' = match Disk.cwd d with
                | Some x => if bool_decide (c `prefix_of` x) then None else Some x
                | None => None
                end →
  canonical_cwd d'.
Proof.
  intros Hcwd Hk Hc x Hx. rewrite Hc in Hx.
  destruct (Disk.cwd d) as [y|] eqn:Ey; [|done].
  case_bool_decide as Hp; [done|]. injection Hx as ->.
  destruct (Hcwd x Ey) as [Hw Hkx].
  assert (".." ∉ x) as Hplain.
  { apply walk_no_dotdot in Hw; [done|apply not_elem_of_nil]. }
  split.
  - etrans; [|exact Hw]. apply walk_kind_ext; [done|]. intros k Hlt. simpl.
    rewrite Hk. rewrite bool_decide_eq_false_2; [done|].
    intros Hpre. apply Hp. etrans; [exact Hpre|]. apply prefix_take.
  - rewrite Hk. by rewrite bool_decide_eq_false_2.
Qed.

(** [delete_path] on a path that denotes nothing raises, and the disk
    stays as it is. *)
Lemma delete_missing d p :
  canonical_cwd d → on_disk d p = false →
  delete_on_disk d p
  = (Raise (match Disk.resolve d p with Raise e => e | Ok _ => FileNotFoundError end), d).
Proof.
  intros Hcwd Hon. unfold delete_on_disk.
  destruct (absolute d p) as [a|e] eqn:Ea.
  - pose proof (resolve_absolute d p a Hcwd Ea) as Hra.
    assert (dir_on_disk d p = false) as ->.
    { revert Hon. unfold on_disk, dir_on_disk. by destruct (Disk.stat d p) as [[? ?]|]. }
    unfold Disk.unlink. rewrite Hra. revert Hon. unfold on_disk, Disk.stat.
    destruct (Disk.resolve d p) as [c|e]; [|done].
    by destruct (Disk.find (Disk.tree d) c).
  - revert Ea. unfold absolute, Disk.resolve.
    destruct (pathlib.is_absolute p); [done|]. destruct (Disk.cwd d); [done|].
    by intros [= <-].
Qed.

(** What was removed through a handle cannot be removed again: the
    second [rm] raises [FileNotFoundError], and changes nothing. *)
Theorem rm_again_raises self st o c node :
  store st !! self = Some o → _protected o = false →
  canonical_cwd (fs st) → ".." ∉ names (_path o) →
  Disk.stat (fs st) (_path o) = Ok (c, node) → c ≠ [] →
  ∃ st1, rm self st = (Ok tt, st1) ∧ rm self st1 = (Raise FileNotFoundError, st1).
Proof.
  intros Ho Hprot Hcwd Hplain Hstat Hne.
  destruct (delete_on_disk_effect _ _ _ _ Hcwd Hplain Hstat Hne) as (d' & Hd & Hk & Hc).
  pose proof (canonical_cwd_after_delete _ _ _ Hcwd Hk Hc) as Hcwd'.
  exists (set_fs d' st). split.
  { by rewrite (rm_eq _ _ _ Ho), Hprot, Hd. }
  assert (Disk.find (Disk.tree d') c = None) as Hgone.
  { specialize (Hk c). rewrite bool_decide_eq_true_2 in Hk by done.
    unfold kind_at in Hk. by destruct (Disk.find (Disk.tree d') c). }
  assert (Disk.resolve d' (_path o) = Ok c ∨
          Disk.resolve d' (_path o) = Raise FileNotFoundError) as Hr.
  { unfold Disk.stat in Hstat.
    destruct (Disk.resolve (fs st) (_path o)) as [c'|] eqn:Er; [|done].
    destruct (Disk.find (Disk.tree (fs st)) c'); [|done]. injection Hstat as -> _.
    revert Er. unfold Disk.resolve. destruct (pathlib.is_absolute (_path o)).
    - intros Er. left. etrans; [|exact Er]. apply walk_kind_ext; [done|].
      intros k Hlt. rewrite Hk. rewrite bool_decide_eq_false_2; [done|].
      apply walk_plain in Er; [|done]. rewrite Er. simpl. intros Hpre.
      exact (take_prefix_strict _ [] k Hlt Hpre).
    - rewrite Hc. destruct (Disk.cwd (fs st)) as [x|]; [|done].
      case_bool_decide; [by right|]. intros Er. left. etrans; [|exact Er].
      apply walk_kind_ext; [done|].
      intros k Hlt. rewrite Hk. rewrite bool_decide_eq_false_2; [done|].
      apply walk_plain in Er; [|done]. rewrite Er. intros Hpre.
      apply prefix_app_inv in Hpre. exact (take_prefix_strict _ [] k Hlt Hpre). }
  assert (store (set_fs d' st) !! self = Some o) as Ho' by done.
  rewrite (rm_eq _ _ _ Ho'), Hprot. cbn [fs set_fs].
  rewrite delete_missing; [|done|].
  - by destruct Hr as [-> | ->].
  - unfold on_disk, Disk.stat. destruct Hr as [-> | ->]; [by rewrite Hgone|done].
Qed.

Lemma rm_again_raises_witness :
  ∃ st1, rm 1 example_with_a = (Ok tt, st1) ∧ rm 1 st1 = (Raise FileNotFoundError, st1).
Proof.
  apply (rm_again_raises 1 example_with_a
           (mkObject File (mkPath "" ["a"]) "a" true false None false false 1 "" false ∅)
           ["home"; "u"; "a"] (Disk.File 32 "A")).
  - reflexivity.
  - reflexivity.
  - exact example_canonical_cwd.
  - intros H. apply list_elem_of_singleton in H. discriminate.
  - vm_compute. reflexivity.
  - discriminate.
Defined.

(** * Hiding once *)

(** On the dot convention [hide(True)] on a hidden handle returns at
    its guard. *)
Lemma hide_hidden_returns self st o :
  store st !! self = Some o → windows st = false →
  pystr.startswith "." (_name o) = true →
  hide self true st = (Ok tt, st).
Proof.
  intros Ho Hw Hh. unfold hide, bind at 1.
  by rewrite (ishidden_posix self st o Ho Hw), Hh.
Qed.

(** On the dot convention, [hide(True)] on a visible handle renames
    the object to the name with a dot before it, where that name is
    free in the directory; the handle then reports itself hidden, and
    another [hide(True)] renames nothing: dots are not stacked. *)
Theorem hide_true_hides_once self st o c node rp :
  store st !! self = Some o → windows st = false →
  pystr.startswith "." (_name o) = false →
  let s := "." +:+ _name o in
  _name o = pathlib.name (_path o) →
  pathlib.wf (_path o) → ".." ∉ names (_path o) →
  canonical_cwd (fs st) → (∀ x, Disk.cwd (fs st) = Some x → ¬ c `prefix_of` x) →
  Disk.stat (fs st) (_path o) = Ok (c, node) →
  pathlib.valid_name s → s ≠ ".." →
  Disk.find (Disk.tree (fs st)) (removelast c ++ [s]) = None →
  kind_ok (class_of o) (Disk.is_dir_node node) s = true →
  let p' := mkPath (anchor (_path o)) (removelast (names (_path o)) ++ [s]) in
  root_path_for self st p' = Some rp → on_disk (renamed (fs st) c s) rp = true →
  ∃ st' o',
    hide self true st = (Ok tt, st') ∧
    fs st' = renamed (fs st) c s ∧
    store st' !! self = Some o' ∧ _name o' = s ∧
    ishidden self st' = (Ok true, st') ∧
    hide self true st' = (Ok tt, st').
Proof.
  intros Ho Hw Hvis s Hname Hwf Hplain Hcwd Hab Hstat Hval Hsdd Hfree Hkind p' Hrp Hroot.
  destruct (hide_posix self true st o c node s rp) as (b & Hb & Hh); try done.
  assert (self < length (store st)) as Hlt by by eapply lookup_lt_Some.
  fold p' in Hh.
  set (o' := configure_object
               (set_parent None (set_is_root b
                  (detect_object p' true (Disk.is_dir_node node) o)))).
  set (st' := finished self b (detect_object p' true (Disk.is_dir_node node) o)
                (detected self p' o (set_fs (renamed (fs st) c s) st))) in *.
  assert (store st' !! self = Some o') as Ho'.
  { unfold st', finished, detected. cbn [store set_fs]. rewrite insert_insert_same.
    by apply lookup_insert_same. }
  assert (_name o' = s) as Hn'.
  { unfold o', configure_object. cbn.
    destruct (class_of o); cbn; unfold p', pathlib.name; cbn [names];
      by rewrite last_snoc. }
  assert (pystr.startswith "." (_name o') = true) as Hdot by by rewrite Hn'.
  exists st', o'. split_and!; try done.
  - by rewrite (ishidden_posix self st' o' Ho' Hw), Hdot.
  - by apply (hide_hidden_returns self st' o').
Qed.

Lemma hide_true_hides_once_witness :
  ∃ st', hide 1 true example_with_x = (Ok tt, st') ∧
         (_name <$> store st' !! 1) = Some ".x.txt" ∧
         ishidden 1 st' = (Ok true, st') ∧
         hide 1 true st' = (Ok tt, st').
Proof.
  edestruct (hide_true_hides_once 1 example_with_x
               (mkObject File (mkPath "" ["d"; "x.txt"]) "x.txt" true false None
                  false false 1 ".txt" false ∅)
               ["home"; "u"; "d"; "x.txt"] (Disk.File 0 "x") (mkPath "" [])
               eq_refl eq_refl eq_refl)
    as (st' & o' & H1 & _ & H2 & H3 & H4 & H5).
  - reflexivity.
  - vm_compute. split; [tauto|]. repeat constructor; try discriminate.
  - vm_compute. intros H. by repeat (apply elem_of_cons in H as [H|H]; [discriminate|]);
      apply not_elem_of_nil in H.
  - intros x [= <-]. split; reflexivity.
  - intros x [= <-]. intros [r Hr]. discriminate.
  - reflexivity.
  - vm_compute. repeat split; discriminate.
  - discriminate.
  - reflexivity.
  - reflexivity.
  - reflexivity.
  - reflexivity.
  - exists st'. split; [exact H1|]. split; [|split; [exact H4|exact H5]].
    etrans; [exact (f_equal (fmap _name) H2)|]. exact (f_equal Some H3).
Defined.

(** * Removal, exactly *)

Lemma set_entry_twice dir s v w t :
  Disk.set_entry dir s v (Disk.set_entry dir s w t) = Disk.set_entry dir s v t.
Proof.
  unfold Disk.set_entry. rewrite alter_at_compose. apply alter_at_ext.
  intros [fa fd|a m] _; [done|]. cbn. f_equal.
  apply map_eq. intros i. destruct (decide (i = s)) as [->|Hi].
  - by rewrite !lookup_partial_alter_eq.
  - by rewrite !lookup_partial_alter_ne.
Qed.

(** Setting an entry makes the changes below it void. *)
Lemma set_entry_over_alter g dir s r v t :
  Disk.set_entry dir s v (Disk.alter_at g (dir ++ s :: r) t) = Disk.set_entry dir s v t.
Proof.
  unfold Disk.set_entry. revert t. induction dir as [|x dir IH]; intros t.
  - destruct t as [fa fd|a m]; [done|]. cbn. f_equal. apply map_eq. intros i.
    destruct (decide (i = s)) as [->|Hi].
    + by rewrite !lookup_partial_alter_eq.
    + rewrite !lookup_partial_alter_ne by done. by rewrite lookup_alter_ne.
  - destruct t as [fa fd|a m]; [done|]. cbn. f_equal.
    rewrite gmap_alter_alter. apply alter_ext. intros n _. apply IH.
Qed.

(** What [delete_path] does to the entry [n] of a directory, a file or
    a directory with all it holds: the entry is taken out, and nothing
    else changes. *)
Lemma delete_exact d q dir n node :
  canonical_cwd d → ".." ∉ names q →
  Disk.stat d q = Ok (dir ++ [n], node) →
  (∀ x, Disk.cwd d = Some x → ¬ (dir ++ [n]) `prefix_of` x) →
  delete_on_disk d q
  = (Ok tt, Disk.mkDisk (Disk.set_entry dir n None (Disk.tree d)) (Disk.cwd d)).
Proof.
  intros Hcwd Hplain Hstat Hab.
  pose proof Hstat as Hstat0. unfold Disk.stat in Hstat0.
  destruct (Disk.resolve d q) as [c'|] eqn:Er; [|done].
  destruct (Disk.find (Disk.tree d) c') as [n'|] eqn:Ef; [|done]. injection Hstat0 as -> ->.
  destruct (absolute_resolve d q _ Hcwd Hplain Er) as (ab & Ha & Habs & Hnames & Hdd).
  assert (Disk.resolve d ab = Ok (dir ++ [n])) as Hra
    by by rewrite (resolve_absolute d q ab Hcwd Ha).
  assert (n ≠ "..") as Hn.
  { intros ->. apply Hdd. apply elem_of_app. right. by apply list_elem_of_singleton. }
  unfold delete_on_disk. rewrite Ha. unfold dir_on_disk. rewrite Hstat.
  destruct node as [fa fd|a m]; cbn [Disk.is_dir_node].
  - unfold Disk.unlink. by rewrite Hra, Ef, split_last_snoc.
  - unfold Disk.rmtree. rewrite Hra, Ef.
    set (w1 := Disk.cwd_after_removal true (dir ++ [n]) (Disk.cwd d)).
    set (t1 := Disk.clear_dir (dir ++ [n]) (Disk.tree d)).
    assert (Disk.resolve (Disk.mkDisk t1 w1) ab = Ok (dir ++ [n])) as Hra1.
    { rewrite resolve_absolute_plain in Hra by done.
      rewrite resolve_absolute_plain by done. cbn [Disk.tree]. etrans; [|exact Hra].
      apply walk_kind_ext; [by rewrite Hnames|]. intros k Hlt. cbn [app]. unfold t1.
      apply kind_at_clear_dir. intros Hpre. exfalso. rewrite Hnames in Hpre, Hlt.
      exact (take_prefix_strict _ [] k Hlt Hpre). }
    unfold Disk.rmdir. rewrite Hra1. cbn [Disk.tree Disk.cwd].
    unfold t1 at 1. rewrite (find_clear_dir _ _ a m Ef).
    rewrite bool_decide_eq_true_2 by done. cbn [negb].
    assert (Disk.last_is_normal ab = true) as ->.
    { unfold Disk.last_is_normal. rewrite Hnames, last_snoc.
      by rewrite bool_decide_eq_false_2. }
    cbn [negb]. rewrite split_last_snoc. f_equal. f_equal.
    + unfold t1, Disk.clear_dir. rewrite <- (app_nil_r (dir ++ [n])), <- app_assoc.
      cbn [app]. apply set_entry_over_alter.
    + unfold w1, Disk.cwd_after_removal. destruct (Disk.cwd d) as [x|] eqn:Ex; [|done].
      rewrite (bool_decide_eq_false_2 _ (Hab x eq_refl)). cbn [andb].
      by rewrite (bool_decide_eq_false_2 _ (Hab x eq_refl)).
Qed.

Lemma lookup_foldl_remove {A} (ns : list string) (m : gmap string A) i :
  foldl (λ m n, partial_alter (λ _, None) n m) m ns !! i
  = if bool_decide (i ∈ ns) then None else m !! i.
Proof.
  revert m. induction ns as [|n ns IH]; intros m; [done|]. cbn [foldl]. rewrite IH.
  destruct (decide (i = n)) as [->|Hi].
  - rewrite lookup_partial_alter_eq. rewrite (bool_decide_eq_true_2 (n ∈ n :: ns)) by by left.
    by case_bool_decide.
  - rewrite lookup_partial_alter_ne by done.
    destruct (decide (i ∈ ns)) as [Hin|Hin].
    + rewrite !bool_decide_eq_true_2; [done|by right|done].
    + rewrite !bool_decide_eq_false_2; [done| |done].
      by intros [?|?]%elem_of_cons.
Qed.

Lemma without_entries_alter c ns t :
  without_entries c ns t
  = Disk.alter_at (λ d, match d with
                        | Disk.Dir a m =>
                            Disk.Dir a (foldl (λ m n, partial_alter (λ _, None) n m) m ns)
                        | Disk.File _ _ => d
                        end) c t.
Proof.
  unfold without_entries. revert t. induction ns as [|n ns IH]; intros t.
  - cbn [foldl]. symmetry. apply alter_at_id. by intros [|].
  - cbn [foldl]. rewrite IH. unfold Disk.set_entry. rewrite alter_at_compose.
    apply alter_at_ext. by intros [|] _.
Qed.

(** All the entries taken out: the directory is cleared. *)
Lemma without_entries_all c ns t a m :
  Disk.find t c = Some (Disk.Dir a m) → (∀ n, is_Some (m !! n) → n ∈ ns) →
  without_entries c ns t = Disk.clear_dir c t.
Proof.
  intros Hf Hall. rewrite without_entries_alter. unfold Disk.clear_dir.
  apply alter_at_ext. intros x Hx. rewrite Hf in Hx. injection Hx as <-. f_equal.
  apply map_eq. intros i. rewrite lookup_foldl_remove, lookup_empty.
  case_bool_decide as Hi; [done|]. destruct (m !! i) eqn:E; [|done].
  exfalso. apply Hi, Hall. by eexists.
Qed.

(** * Overwriting *)

(** A path without [".."] denotes the same on two disks that have the
    same working directory and the same kinds along the way. *)
Lemma resolve_kind_ext d d' p c :
  ".." ∉ names p → Disk.cwd d' = Disk.cwd d → Disk.resolve d p = Ok c →
  (∀ k, k < length c → kind_at (Disk.tree d') (take k c) = kind_at (Disk.tree d) (take k c)) →
  Disk.resolve d' p = Ok c.
Proof.
  intros Hplain Hcwd Hr Hk. revert Hr. unfold Disk.resolve. rewrite Hcwd.
  assert (∀ start, Disk.walk (Disk.tree d) start (names p) = Ok c →
                   Disk.walk (Disk.tree d') start (names p) = Ok c) as Hw.
  { intros start Hw. etrans; [|exact Hw]. apply walk_kind_ext; [done|].
    intros k Hlt. pose proof (walk_plain _ _ _ _ Hplain Hw) as ->.
    specialize (Hk (length start + k)). rewrite take_app_ge in Hk by lia.
    replace (length start + k - length start) with k in Hk by lia.
    apply Hk. rewrite length_app. lia. }
  destruct (pathlib.is_absolute p); [apply Hw|].
  destruct (Disk.cwd d); [apply Hw|done].
Qed.

Lemma kind_at_Some_find t q b : kind_at t q = Some b → is_Some (Disk.find t q).
Proof. unfold kind_at. destruct (Disk.find t q); [by eexists|done]. Qed.

Lemma stat_kind_ext d d' p c n :
  ".." ∉ names p → Disk.cwd d' = Disk.cwd d → Disk.stat d p = Ok (c, n) →
  (∀ k, (k <= length c)%nat → kind_at (Disk.tree d') (take k c) = kind_at (Disk.tree d) (take k c)) →
  on_disk d' p = true ∧ Disk.resolve d' p = Ok c.
Proof.
  intros Hplain Hcwd Hs Hk. unfold Disk.stat in Hs.
  destruct (Disk.resolve d p) as [c'|] eqn:Er; [|done].
  destruct (Disk.find (Disk.tree d) c') as [n'|] eqn:Ef; [|done]. injection Hs as -> ->.
  assert (Disk.resolve d' p = Ok c) as Hr'.
  { apply (resolve_kind_ext d d' p c Hplain Hcwd Er). intros k Hlt. apply Hk. lia. }
  split; [|done]. unfold on_disk, Disk.stat. rewrite Hr'.
  specialize (Hk (length c) (le_n _)). rewrite take_ge in Hk by lia.
  unfold kind_at in Hk. rewrite Ef in Hk.
  by destruct (Disk.find (Disk.tree d') c).
Qed.

(** The disk after [delete_path] and then the [__create__] of the
    class, at a path that held an object of the kind of the class. *)
Lemma overwrite_on_disk cls d p c node :
  cls = Folder ∨ cls = File →
  Disk.is_dir_node node = bool_decide (cls = Folder) →
  canonical_cwd d → ".." ∉ names p → Disk.stat d p = Ok (c, node) → c ≠ [] →
  (∀ x, Disk.cwd d = Some x → ¬ c `prefix_of` x) →
  ∃ d1 d2,
    delete_on_disk d p = (Ok tt, d1) ∧ create_on_disk cls d1 p = (Ok tt, d2) ∧
    Disk.cwd d2 = Disk.cwd d ∧ Disk.stat d2 p = Ok (c, fresh_node cls) ∧
    (∀ q, kind_at (Disk.tree d2) q =
          if bool_decide (q = c) then Some (Disk.is_dir_node node)
          else if bool_decide (c `prefix_of` q) then None
          else kind_at (Disk.tree d) q) ∧
    ∃ dir s, c = dir ++ [s] ∧ d2 = placed d dir s (fresh_node cls).
Proof.
  intros Hcls Hkind Hcwd Hplain Hstat Hne Hab.
  destruct (delete_on_disk_effect d p c node Hcwd Hplain Hstat Hne) as (d1 & Hd & Hk & Hc).
  assert (Disk.cwd d1 = Disk.cwd d) as Hc1.
  { rewrite Hc. destruct (Disk.cwd d) as [x|] eqn:Ex; [|done].
    rewrite bool_decide_eq_false_2; [done|]. by apply Hab. }
  pose proof Hstat as Hstat0. unfold Disk.stat in Hstat0.
  destruct (Disk.resolve d p) as [c'|] eqn:Er; [|done].
  destruct (Disk.find (Disk.tree d) c') as [n'|] eqn:Ef; [|done]. injection Hstat0 as -> ->.
  destruct (Disk.split_last c) as [[dir s]|] eqn:Es.
  2:{ unfold Disk.split_last in Es. destruct c using rev_ind; [done|].
      by rewrite last_snoc in Es. }
  pose proof (split_last_Some _ _ _ Es) as Hcs.
  assert (Disk.resolve d1 p = Ok c) as Hr1.
  { apply (resolve_kind_ext d d1 p c Hplain Hc1 Er). intros k Hlt. rewrite Hk.
    rewrite bool_decide_eq_false_2; [done|]. intros Hpre.
    exact (take_prefix_strict _ [] k Hlt Hpre). }
  assert (Disk.find (Disk.tree d1) c = None) as Hgone.
  { specialize (Hk c). rewrite bool_decide_eq_true_2 in Hk by done.
    unfold kind_at in Hk. by destruct (Disk.find (Disk.tree d1) c). }
  assert (∃ a1 m1, Disk.find (Disk.tree d1) dir = Some (Disk.Dir a1 m1)) as (a1 & m1 & Hdir1).
  { apply kind_at_dir. rewrite Hk. rewrite bool_decide_eq_false_2.
    - rewrite Hcs, find_snoc in Ef. unfold kind_at.
      by destruct (Disk.find (Disk.tree d) dir) as [[|]|].
    - intros Hpre. apply prefix_length in Hpre. rewrite Hcs, length_app in Hpre.
      simpl in Hpre. lia. }
  set (d2 := Disk.mkDisk (Disk.set_entry dir s (Some (fresh_node cls)) (Disk.tree d1))
                         (Disk.cwd d1)).
  exists d1, d2. split; [done|]. split.
  { unfold create_on_disk, Disk.mkdir, Disk.create_truncate.
    rewrite Hr1, Hgone, Es, Hdir1. by destruct Hcls as [-> | ->]. }
  split; [done|]. split.
  { unfold Disk.stat. unfold d2 at 1. rewrite Hcs in Hgone, Hr1.
    rewrite (resolve_set_entry_new d1 dir s _ p (dir ++ [s]) Hgone Hr1).
    unfold d2. cbn [Disk.tree]. rewrite Hcs.
    by rewrite (find_set_entry dir s (Some (fresh_node cls)) _ a1 m1 [] Hdir1). }
  clear Es. subst c. split.
  2:{ exists dir, s. split; [done|].
      rewrite (delete_exact d p dir s node Hcwd Hplain Hstat Hab) in Hd.
      injection Hd as <-. unfold d2, placed. cbn [Disk.tree Disk.cwd].
      by rewrite set_entry_twice. }
  intros q. unfold d2. cbn [Disk.tree].
  destruct (decide (q = dir ++ [s])) as [->|Hq].
  - rewrite bool_decide_eq_true_2 by done. unfold kind_at.
    rewrite (find_set_entry dir s (Some (fresh_node cls)) _ a1 m1 [] Hdir1). cbn.
    rewrite Hkind. by destruct Hcls as [-> | ->].
  - rewrite bool_decide_eq_false_2 by done.
    destruct (decide (dir ++ [s] `prefix_of` q)) as [Hp|Hp].
    + rewrite bool_decide_eq_true_2 by done.
      destruct Hp as [r ->]. destruct r as [|x r]; [by rewrite app_nil_r in Hq|].
      unfold kind_at. rewrite <- app_assoc. cbn [app].
      rewrite (find_set_entry dir s (Some (fresh_node cls)) _ a1 m1 (x :: r) Hdir1).
      cbn. by destruct Hcls as [-> | ->].
    + rewrite bool_decide_eq_false_2 by done.
      rewrite kind_at_set_entry by done.
      rewrite Hk. by rewrite bool_decide_eq_false_2.
Qed.

(** A [Folder] built in [OVERWRITE] mode on a directory, or a [File]
    on a file, starts afresh: what was at the path and below it is
    removed, an empty directory or an empty file is put at the path,
    and the path is appended once to [created_instances]; the rest of
    the disk is as before.  The disk afterwards is the disk before with
    the one entry replaced by the empty object: every other file and
    directory has its content and its attribute word, and the working
    directory is the same. *)
Theorem overwrite_starts_afresh cls given st p c node r ro cr nr :
  cls = Folder ∨ cls = File →
  Disk.is_dir_node node = bool_decide (cls = Folder) →
  parse_path None given = Ok p →
  canonical_cwd (fs st) → ".." ∉ names p →
  Disk.stat (fs st) p = Ok (c, node) → c ≠ [] →
  (∀ x, Disk.cwd (fs st) = Some x → ¬ c `prefix_of` x) →
  root st = Some r → store st !! r = Some ro →
  ".." ∉ names (_path ro) → Disk.stat (fs st) (_path ro) = Ok (cr, nr) →
  ¬ (c `prefix_of` cr ∧ cr ≠ c) →
  ∃ st',
    new cls given OVERWRITE None st = (Ok (length (store st)), st') ∧
    Disk.stat (fs st') p = Ok (c, fresh_node cls) ∧
    (∀ q, kind_at (Disk.tree (fs st')) q =
          if bool_decide (q = c) then Some (Disk.is_dir_node node)
          else if bool_decide (c `prefix_of` q) then None
          else kind_at (Disk.tree (fs st)) q) ∧
    created_instances st' = created_instances st ++ [p] ∧
    ∃ dir s, c = dir ++ [s] ∧ fs st' = placed (fs st) dir s (fresh_node cls).
Proof.
  intros Hcls Hkind Hp Hcwd Hplain Hstat Hne Hab Hr Hro Hrplain Hrstat Hrnot.
  assert (r < length (store st)) as Hlt by by eapply lookup_lt_Some.
  destruct (overwrite_on_disk cls (fs st) p c node Hcls Hkind Hcwd Hplain Hstat Hne Hab)
    as (d1 & d2 & Hd & Hc & Hcwd2 & Hs2 & Hk & Hexact).
  assert (Disk.find (Disk.tree (fs st)) c = Some node) as Hfc.
  { revert Hstat. unfold Disk.stat. destruct (Disk.resolve (fs st) p) as [c0|]; [|done].
    destruct (Disk.find (Disk.tree (fs st)) c0) eqn:E; [|done]. by intros [= <- <-]. }
  destruct (stat_kind_ext (fs st) d2 (_path ro) cr nr Hrplain Hcwd2 Hrstat) as [Hon2 Hres2].
  { intros k Hle. rewrite Hk.
    destruct (decide (take k cr = c)) as [E|E].
    - rewrite bool_decide_eq_true_2 by done. rewrite E. unfold kind_at. by rewrite Hfc.
    - rewrite bool_decide_eq_false_2 by done.
      rewrite bool_decide_eq_false_2; [done|]. intros Hpre. apply Hrnot. split.
      + etrans; [exact Hpre|]. apply prefix_take.
      + intros ->. apply E. apply prefix_length in Hpre. rewrite length_take in Hpre.
        apply take_ge. lia. }
  assert (∃ b, Disk.samefile d2 p (_path ro) = Ok b) as [b Hb].
  { unfold Disk.samefile. rewrite Hs2. unfold on_disk in Hon2.
    destruct (Disk.stat d2 (_path ro)) as [[? ?]|]; [|done]. by eexists. }
  assert (on_disk (fs st) p = true) as Hq by (unfold on_disk; by rewrite Hstat).
  assert (dir_on_disk (fs st) p = bool_decide (cls = Folder)) as Hdq.
  { unfold dir_on_disk. by rewrite Hstat. }
  rewrite (new_eq cls given OVERWRITE None st p (_path ro)); try done.
  2:{ unfold validates. rewrite Hq, Hdq. by destruct Hcls as [-> | ->]. }
  2:{ unfold root_path_for. rewrite Hr. rewrite bool_decide_eq_false_2 by lia.
      exact (f_equal (fmap _path) Hro). }
  unfold init_outcome. cbn [fs set_store store created_instances]. rewrite Hq.
  cbn [table perform_all perform fst snd class_of blank create_wrappers].
  rewrite Hd. cbn [fst snd]. rewrite Hc. cbn [fst snd replicate]. rewrite Hb.
  cbn [fst snd]. eexists. split; [reflexivity|].
  unfold finished, detected.
  cbn [fs root store created_instances set_fs set_store set_created_instances].
  split_and!; [done..|]. destruct Hexact as (dir & s & -> & ->). by exists dir, s.
Qed.

Lemma overwrite_starts_afresh_witness :
  ∃ st',
    new Folder (PStr "d") OVERWRITE None example_state = (Ok 1, st') ∧
    Disk.stat (fs st') (mkPath "" ["d"]) = Ok (["home"; "u"; "d"], Disk.Dir 0 ∅) ∧
    kind_at (Disk.tree (fs st')) ["home"; "u"; "d"; "x.txt"] = None ∧
    kind_at (Disk.tree (fs st')) ["home"; "u"; "a"] = Some false ∧
    created_instances st' = [mkPath "" ["d"]] ∧
    fs st' = placed example_disk ["home"; "u"] "d" (Disk.Dir 0 ∅).
Proof.
  destruct (overwrite_starts_afresh Folder (PStr "d") example_state (mkPath "" ["d"])
              ["home"; "u"; "d"]
              (Disk.Dir 0 ({[ "x.txt" := Disk.File 0 "x" ]} : gmap string Disk.node))
              0 (mkObject Folder (mkPath "" []) "" true true None false true 1 "" false ∅)
              ["home"; "u"]
              (Disk.Dir 0 (<["a" := Disk.File 32 "A"]>
                 (<[".a" := Disk.File 0 "dot-A"]>
                    (<["d" := Disk.Dir 0 {[ "x.txt" := Disk.File 0 "x" ]}]> ∅)))))
    as (st' & H1 & H2 & H3 & H4 & dir & s & E & H5).
  - by left.
  - reflexivity.
  - reflexivity.
  - exact example_canonical_cwd.
  - intros H. apply list_elem_of_singleton in H. discriminate.
  - vm_compute. reflexivity.
  - discriminate.
  - intros x [= <-]. intros [k Hk]. discriminate.
  - reflexivity.
  - reflexivity.
  - apply not_elem_of_nil.
  - vm_compute. reflexivity.
  - intros [[k Hk] _]. discriminate.
  - exists st'. split; [exact H1|]. split; [exact H2|].
    split; [rewrite H3; reflexivity|]. split; [rewrite H3; reflexivity|].
    split; [exact H4|].
    symmetry in E. apply (app_inj_tail dir ["home"; "u"] s "d") in E as [-> ->].
    exact H5.
Defined.

(** * The flag [_protected] *)

(** No statement of the module sets [_protected] to [True]: what the
    methods assign to an object leaves the flag, or clears it. *)

#[global] Instance stays_unprotected_preorder : PreOrder stays_unprotected.
Proof. split; [intros st H; exact H|]. intros a b c H1 H2 H. by apply H2, H1. Qed.

#[global] Instance stays_unprotected_stable : Stable (λ _, False) stays_unprotected.
Proof.
  split; [apply _|..]; try (intros; intros H; exact H).
  - intros st self f [].
  - intros st self _ H. exact H.
Qed.

Lemma update_stays_unprotected self f :
  (∀ o, _protected o = false → _protected (f o) = false) →
  preserves stays_unprotected (update self f).
Proof.
  intros Hf st Hu l o. unfold update, modify. cbn [snd store set_store].
  destruct (decide (l = self)) as [->|Hne].
  - rewrite list_lookup_alter_eq. intros H.
    apply fmap_Some in H as (o0 & Ho0 & ->). apply Hf. by apply (Hu self).
  - rewrite list_lookup_alter_ne by done. apply Hu.
Qed.

#[global] Hint Extern 2 (preserves stays_unprotected (update _ _)) =>
  apply update_stays_unprotected; intros ? ?; first [assumption | reflexivity] : pres.

Lemma allocate_stays_unprotected c : preserves stays_unprotected (allocate c).
Proof.
  intros st Hu l o. unfold allocate. cbn [snd store set_store].
  intros [H|[_ H]]%lookup_app_Some; [by apply (Hu l)|].
  apply list_lookup_singleton_Some in H as [_ <-]. done.
Qed.
#[global] Hint Resolve allocate_stays_unprotected : pres.

Lemma params_stays_unprotected self : preserves stays_unprotected (__params__ self).
Proof. unfold __params__. pres. Qed.

Lemma configure_stays_unprotected self :
  preserves stays_unprotected (__configure__ self).
Proof. unfold __configure__, _activate_listener. pres. Qed.
#[global] Hint Resolve params_stays_unprotected configure_stays_unprotected : pres.

Lemma init_detect_stays_unprotected self given par :
  preserves stays_unprotected (init_detect self given par).
Proof. unfold init_detect. pres. Qed.

Lemma init_finish_stays_unprotected self :
  preserves stays_unprotected (init_finish self).
Proof. unfold init_finish. pres. Qed.
#[global] Hint Resolve init_detect_stays_unprotected init_finish_stays_unprotected : pres.

Lemma init_stays_unprotected self given mode par :
  preserves stays_unprotected (__init__ self given mode par).
Proof. unfold __init__. pres. Qed.
#[global] Hint Resolve init_stays_unprotected : pres.

Lemma new_stays_unprotected c given mode par :
  preserves stays_unprotected (new c given mode par).
Proof. unfold new. pres. Qed.
#[global] Hint Resolve new_stays_unprotected : pres.

Lemma hide_stays_unprotected self h : preserves stays_unprotected (hide self h).
Proof. unfold hide, os_rename. pres. Qed.

Lemma assign_type_stays_unprotected p : preserves stays_unprotected (assign_type p).
Proof. unfold assign_type. pres. Qed.
#[global] Hint Resolve assign_type_stays_unprotected : pres.

Lemma parent_stays_unprotected self : preserves stays_unprotected (parent self).
Proof. unfold parent. pres. Qed.

Lemma build_directory_stays_unprotected self contents acc :
  preserves stays_unprotected (build_directory self contents acc).
Proof. revert acc. induction contents as [|f r IH]; intros acc; simpl; pres. Qed.
#[global] Hint Resolve build_directory_stays_unprotected : pres.

Lemma the_folder_stays_unprotected self : preserves stays_unprotected (the_folder self).
Proof. unfold the_folder. pres. Qed.
#[global] Hint Resolve the_folder_stays_unprotected : pres.

Lemma update_dir_stays_unprotected self : preserves stays_unprotected (_update_dir self).
Proof. unfold _update_dir. pres. Qed.
#[global] Hint Resolve update_dir_stays_unprotected : pres.

Lemma directory_stays_unprotected self : preserves stays_unprotected (directory self).
Proof. unfold directory. pres. Qed.
#[global] Hint Resolve directory_stays_unprotected : pres.

Lemma contents_stays_unprotected self : preserves stays_unprotected (contents self).
Proof. unfold contents. pres. Qed.

Lemma search_dir_stays_unprotected self target :
  preserves stays_unprotected (_search_dir self target).
Proof. unfold _search_dir. pres. Qed.
#[global] Hint Resolve contents_stays_unprotected search_dir_stays_unprotected : pres.

Lemma rm_each_stays_unprotected objs : preserves stays_unprotected (rm_each objs).
Proof. induction objs as [|o r IH]; simpl; pres. Qed.
#[global] Hint Resolve rm_each_stays_unprotected : pres.

Lemma direct_stays_unprotected folder src : preserves stays_unprotected (direct folder src).
Proof. unfold direct. pres. Qed.
#[global] Hint Resolve direct_stays_unprotected : pres.

Lemma eval_arg_stays_unprotected a : preserves stays_unprotected (eval_arg a).
Proof. unfold eval_arg. pres. Qed.
#[global] Hint Resolve eval_arg_stays_unprotected : pres.

Lemma exec_stays_unprotected c : preserves stays_unprotected (exec c).
Proof.
  destruct c; simpl;
    unfold __getitem__, get, mkdir, mk, clear, dispatch, eval_parent, _wait_for_file,
      event_wait; pres.
  - apply hide_stays_unprotected.
  - apply parent_stays_unprotected.
  - intros st H. exact H.
  - intros st H. exact H.
  - intros st H. exact H.
  - intros st H. exact H.
Qed.

Lemma exec_all_stays_unprotected calls st : stays_unprotected st (exec_all calls st).
Proof.
  revert st. induction calls as [|c rest IH]; intros st; simpl; [reflexivity|].
  etrans; [apply exec_stays_unprotected|apply IH].
Qed.

(** After the import of the module and any run of calls, events and
    changes of the disk from outside, no handle is protected: the
    module never sets [_protected] to [True].  The guard of [rm]
    therefore never fires there, and [rm] is [delete_path] on the path
    of the handle. *)
Theorem no_handle_is_ever_protected d w calls :
  let st := exec_all calls (module_init (initial d w)).2 in
  unprotected st ∧
  ∀ self o, store st !! self = Some o → rm self st = delete_path (_path o) st.
Proof.
  intros st.
  assert (unprotected st) as Hu.
  { apply exec_all_stays_unprotected.
    assert (preserves stays_unprotected module_init) as Hm.
    { unfold module_init. pres. intros s H. exact H. }
    apply Hm. intros l o. unfold initial. cbn [store]. by rewrite lookup_nil. }
  split; [exact Hu|]. intros self o Ho.
  rewrite (rm_eq self st o Ho), (Hu self o Ho). by rewrite delete_path_eq.
Qed.

Lemma no_handle_is_ever_protected_witness :
  let st := exec_all [CallNew File (AStr "a") FIND None; CallHide 1 true]
              (module_init (initial example_disk false)).2 in
  unprotected st ∧
  rm 1 st = delete_path (mkPath "" [".a"]) st.
Proof.
  intros st.
  destruct (no_handle_is_ever_protected example_disk false
              [CallNew File (AStr "a") FIND None; CallHide 1 true]) as [H1 H2].
  split; [exact H1|].
  apply (H2 1 (mkObject File (mkPath "" [".a"]) ".a" true false None false false 2 ""
                 false ∅)).
  vm_compute. reflexivity.
Defined.

(** * Clearing a folder *)

Lemma snoc_prefix_snoc {A} (c : list A) n n' : (c ++ [n]) `prefix_of` (c ++ [n']) → n = n'.
Proof.
  intros [k Hk]. rewrite <- app_assoc in Hk. apply app_inv_head in Hk.
  simpl in Hk. by injection Hk.
Qed.

Lemma snoc_not_prefix {A} (c : list A) n k : (k <= length c)%nat → ¬ (c ++ [n]) `prefix_of` take k c.
Proof.
  intros Hk Hp. apply prefix_length in Hp. rewrite length_app, length_take in Hp.
  simpl in Hp. lia.
Qed.

Section clearing.
Variables (p : Path) (c : list string).
Hypothesis Hplain : ".." ∉ names p.

(** The handles in [L], on entries of the directory at [p], removed one
    after the other. *)
Lemma rm_each_removes (L : list (string * loc)) st :
  NoDup L.*1 →
  canonical_cwd (fs st) →
  (∀ x, Disk.cwd (fs st) = Some x → ∀ n, n ∈ L.*1 → ¬ (c ++ [n]) `prefix_of` x) →
  Disk.resolve (fs st) p = Ok c →
  kind_at (Disk.tree (fs st)) c = Some true →
  (∀ n l, (n, l) ∈ L →
     n ≠ ".." ∧
     is_Some (Disk.find (Disk.tree (fs st)) (c ++ [n])) ∧
     ∃ oc, store st !! l = Some oc ∧ _protected oc = false ∧
           _path oc = mkPath (anchor p) (names p ++ [n])) →
  ∃ d', rm_each L.*2 st = (Ok tt, set_fs d' st) ∧
        Disk.cwd d' = Disk.cwd (fs st) ∧
        (∀ q, kind_at (Disk.tree d') q =
              if bool_decide (Exists (λ n, (c ++ [n]) `prefix_of` q) L.*1) then None
              else kind_at (Disk.tree (fs st)) q) ∧
        Disk.tree d' = without_entries c L.*1 (Disk.tree (fs st)).
Proof.
  revert st. induction L as [|[n l] L IH]; intros st Hnd Hcwd Hab Hres Hdir HL.
  - exists (fs st). split; [by destruct st|]. split; [done|]. split; [|done]. intros q.
    rewrite bool_decide_eq_false_2; [done|]. by intros ?%Exists_nil.
  - cbn [fmap list_fmap fst snd] in *. apply NoDup_cons in Hnd as [Hn Hnd].
    destruct (HL n l) as (Hdd & [node Hnode] & oc & Hoc & Hprot & Hpath); [by left|].
    destruct (kind_at_dir _ _ Hdir) as (a & m & Hfc).
    assert (Disk.stat (fs st) p = Ok (c, Disk.Dir a m)) as Hstat.
    { unfold Disk.stat. by rewrite Hres, Hfc. }
    assert (m !! n = Some node) as Hm by by rewrite find_snoc, Hfc in Hnode.
    pose proof (stat_entry (fs st) p c a m n node Hstat Hdd Hm) as Hsn.
    destruct (delete_on_disk_effect (fs st) (mkPath (anchor p) (names p ++ [n])) (c ++ [n]) node)
      as (d1 & Hd & Hk & Hc); try done.
    { cbn [names]. intros [?|?%list_elem_of_singleton]%elem_of_app; [done|]. by apply Hdd. }
    { by destruct c. }
    assert (Disk.cwd d1 = Disk.cwd (fs st)) as Hc1.
    { rewrite Hc. destruct (Disk.cwd (fs st)) as [x|] eqn:Ex; [|done].
      rewrite bool_decide_eq_false_2; [done|]. apply (Hab x eq_refl). by left. }
    set (st1 := set_fs d1 st).
    assert (rm l st = (Ok tt, st1)) as Hrm.
    { by rewrite (rm_eq l st oc Hoc), Hprot, Hpath, Hd. }
    assert (Disk.tree d1 = Disk.set_entry c n None (Disk.tree (fs st))) as Ht1.
    { rewrite (delete_exact (fs st) (mkPath (anchor p) (names p ++ [n])) c n node) in Hd;
        try done.
      - by injection Hd as <-.
      - cbn [names]. intros [?|?%list_elem_of_singleton]%elem_of_app; [done|].
        by apply Hdd.
      - intros x Hx. apply (Hab x Hx). by left. }
    destruct (IH st1) as (d' & Hrest & Hc' & Hk' & Ht').
    + done.
    + by apply (canonical_cwd_after_delete (fs st) d1 (c ++ [n])).
    + cbn [fs st1 set_fs]. rewrite Hc1. intros x Hx n' Hn'. apply (Hab x Hx). by right.
    + cbn [fs st1 set_fs]. apply (resolve_kind_ext (fs st) d1 p c Hplain Hc1 Hres).
      intros k Hlt. rewrite Hk. rewrite bool_decide_eq_false_2; [done|].
      apply snoc_not_prefix. lia.
    + cbn [fs st1 set_fs]. rewrite Hk. rewrite bool_decide_eq_false_2; [done|].
      intros Hp. apply (snoc_not_prefix c n (length c) (le_n _)). by rewrite take_ge.
    + intros n' l' Hin. destruct (HL n' l') as (Hdd' & [node' Hnode'] & Hobj); [by right|].
      split; [done|]. split; [|exact Hobj].
      cbn [fs st1 set_fs]. apply (kind_at_Some_find _ _ (Disk.is_dir_node node')).
      rewrite Hk. rewrite bool_decide_eq_false_2.
      * unfold kind_at. by rewrite Hnode'.
      * intros Hp. apply snoc_prefix_snoc in Hp. subst n'. apply Hn.
        apply list_elem_of_fmap. by exists (n, l').
    + exists d'. split; [|split; [|split]].
      * cbn [rm_each]. unfold bind. rewrite Hrm. exact Hrest.
      * by rewrite Hc'.
      * intros q. rewrite Hk'. cbn [fs st1 set_fs]. rewrite Hk.
        destruct (decide (Exists (λ n0, (c ++ [n0]) `prefix_of` q) L.*1)) as [He|He].
        -- rewrite !bool_decide_eq_true_2; [done| |done]. by right.
        -- rewrite (bool_decide_eq_false_2 _ He).
           destruct (decide ((c ++ [n]) `prefix_of` q)) as [Hq|Hq].
           ++ rewrite !bool_decide_eq_true_2; [done| |done]. by left.
           ++ rewrite !bool_decide_eq_false_2; [done| |done].
              intros [?|?]%Exists_cons; done.
      * rewrite Ht'. cbn [fs st1 set_fs]. by rewrite Ht1.
Qed.

End clearing.



(** * Hiding and showing on the dot convention *)

(** On the dot convention, [hide(True)] followed by [hide(False)] on a
    visible handle whose dotted name is free brings everything back:
    the disk is the one before, the handle has its path and its name
    again, and it reports itself visible. *)
Theorem hide_then_show_restores_on_dot_convention self st o c node r :
  store st !! self = Some o → windows st = false →
  pystr.startswith "." (_name o) = false →
  _name o = pathlib.name (_path o) → _name o ≠ "" →
  pathlib.wf (_path o) → ".." ∉ names (_path o) →
  canonical_cwd (fs st) → (∀ x, Disk.cwd (fs st) = Some x → ¬ c `prefix_of` x) →
  Disk.stat (fs st) (_path o) = Ok (c, node) →
  Disk.find (Disk.tree (fs st)) (removelast c ++ ["." +:+ _name o]) = None →
  kind_ok (class_of o) (Disk.is_dir_node node) (_name o) = true →
  root st = Some r →
  (r = self ∨
   ∃ ro, store st !! r = Some ro ∧ on_disk (fs st) (_path ro) = true ∧
         on_disk (renamed (fs st) c ("." +:+ _name o)) (_path ro) = true) →
  ∃ st' o',
    (hide self true >> hide self false) st = (Ok tt, st') ∧
    fs st' = fs st ∧
    store st' !! self = Some o' ∧ _path o' = _path o ∧ _name o' = _name o ∧
    ishidden self st' = (Ok false, st').
Proof.
  intros Ho Hw Hvis Hname Hne Hwf Hplain Hcwd Hab Hstat Hfree Hkind Hr Hroot.
  by apply (hide_unhide_posix self st o c node r).
Qed.

Lemma hide_then_show_restores_on_dot_convention_witness :
  ∃ st', (hide 1 true >> hide 1 false) example_with_x = (Ok tt, st') ∧
         fs st' = fs example_with_x ∧
         (_name <$> store st' !! 1) = Some "x.txt" ∧
         ishidden 1 st' = (Ok false, st').
Proof.
  edestruct (hide_then_show_restores_on_dot_convention 1 example_with_x
               (mkObject File (mkPath "" ["d"; "x.txt"]) "x.txt" true false None
                  false false 1 ".txt" false ∅)
               ["home"; "u"; "d"; "x.txt"] (Disk.File 0 "x") 0
               eq_refl eq_refl eq_refl eq_refl)
    as (st' & o' & H1 & H2 & H3 & _ & H4 & H5).
  - discriminate.
  - vm_compute. split; [tauto|]. repeat constructor; try discriminate.
  - vm_compute. intros H. by repeat (apply elem_of_cons in H as [H|H]; [discriminate|]);
      apply not_elem_of_nil in H.
  - intros x [= <-]. split; reflexivity.
  - intros x [= <-]. intros [k Hk]. discriminate.
  - reflexivity.
  - reflexivity.
  - reflexivity.
  - reflexivity.
  - right. eexists. split; [reflexivity|]. split; vm_compute; reflexivity.
  - exists st'. split; [exact H1|]. split; [exact H2|]. split; [|exact H5].
    etrans; [exact (f_equal (fmap _name) H3)|]. exact (f_equal Some H4).
Defined.

(** * Creating and removing again *)

(** An entry put into a directory and taken out again. *)
Lemma set_entry_undo dir n v t a m :
  Disk.find t dir = Some (Disk.Dir a m) → m !! n = None →
  Disk.set_entry dir n None (Disk.set_entry dir n (Some v) t) = t.
Proof.
  intros Hdir Hm. unfold Disk.set_entry. rewrite alter_at_compose. apply alter_at_id.
  intros x Hx. rewrite Hdir in Hx. injection Hx as <-. cbn. f_equal.
  apply map_eq. intros i. destruct (decide (i = n)) as [->|Hin].
  - by rewrite lookup_partial_alter_eq.
  - by rewrite !lookup_partial_alter_ne.
Qed.

Lemma canonical_cwd_set_entry_new d dir s v :
  Disk.find (Disk.tree d) (dir ++ [s]) = None →
  canonical_cwd d →
  canonical_cwd (Disk.mkDisk (Disk.set_entry dir s v (Disk.tree d)) (Disk.cwd d)).
Proof.
  intros Hnew Hcwd x Hx. cbn [Disk.cwd Disk.tree] in *.
  destruct (Hcwd x Hx) as [Hw Hk].
  assert (∀ q, kind_at (Disk.tree d) q = Some true →
               kind_at (Disk.set_entry dir s v (Disk.tree d)) q = Some true) as Hmono.
  { intros q Hq. rewrite kind_at_set_entry; [done|].
    intros [k ->]. unfold kind_at in Hq. by rewrite (find_None_under _ _ k Hnew) in Hq. }
  split; [by apply (walk_mono _ _ _ _ _ Hmono)|by apply Hmono].
Qed.

(** A new child made by [new] and removed by [rm]. *)
Lemma new_child_removed c p n mode st cdir a m r ro :
  c = Folder ∨ c = File →
  pathlib.wf p → ".." ∉ names p → canonical_cwd (fs st) → unprotected st →
  Disk.stat (fs st) p = Ok (cdir, Disk.Dir a m) →
  pathlib.valid_name n → n ≠ ".." → m !! n = None → mode ≠ FIND →
  root st = Some r → store st !! r = Some ro → on_disk (fs st) (_path ro) = true →
  ∃ st1 st2,
    new c (PStr n) mode (Some (PPath p)) st = (Ok (length (store st)), st1) ∧
    rm (length (store st)) st1 = (Ok tt, st2) ∧
    fs st2 = fs st ∧ store st2 = store st1 ∧
    created_instances st2
    = created_instances st ++ [mkPath (anchor p) (names p ++ [n])].
Proof.
  intros Hc Hwf Hplain Hcwd Hun Hstat Hn Hdd Hm Hmode Hr Hro Hon.
  destruct (new_child_created c p n mode st cdir a m r ro)
    as (st1 & oc & H & Hfs & Hcr & Hs & Hcl & Hp & _ & _ & _ & Hsq); try done.
  pose proof (new_stays_unprotected c (PStr n) mode (Some (PPath p)) st) as Hun1.
  rewrite H in Hun1. cbn [snd] in Hun1. specialize (Hun1 Hun).
  assert (store st1 !! length (store st) = Some oc) as Hoc.
  { rewrite Hs. by apply list_lookup_middle. }
  pose proof Hstat as Hstat0. unfold Disk.stat in Hstat0.
  destruct (Disk.resolve (fs st) p) as [c'|] eqn:Er; [|done].
  destruct (Disk.find (Disk.tree (fs st)) c') as [node'|] eqn:Ef; [|done].
  injection Hstat0 as -> ->.
  assert (Disk.find (Disk.tree (fs st)) (cdir ++ [n]) = None) as Hfq
    by by rewrite find_snoc, Ef.
  assert (canonical_cwd (fs st1)) as Hcwd1.
  { rewrite Hfs. by apply canonical_cwd_set_entry_new. }
  assert (∀ x, Disk.cwd (fs st1) = Some x → ¬ (cdir ++ [n]) `prefix_of` x) as Hab.
  { rewrite Hfs. cbn [Disk.cwd]. intros x Hx [k ->]. destruct (Hcwd _ Hx) as [_ Hk].
    unfold kind_at in Hk. by rewrite (find_None_under _ _ k Hfq) in Hk. }
  assert (delete_on_disk (fs st1) (_path oc)
          = (Ok tt, Disk.mkDisk (Disk.set_entry cdir n None (Disk.tree (fs st1)))
                                (Disk.cwd (fs st1)))) as Hdel.
  { apply (delete_exact _ _ cdir n (fresh_node c)); try done.
    - rewrite Hp. cbn [names]. intros Hin. apply elem_of_app in Hin as [Hin|Hin]; [done|].
      by apply list_elem_of_singleton in Hin.
    - rewrite Hp. by rewrite <- Hfs in Hsq. }
  exists st1, (set_fs (delete_on_disk (fs st1) (_path oc)).2 st1). split_and!.
  - exact H.
  - rewrite (rm_eq _ _ oc Hoc), (Hun1 _ _ Hoc). by rewrite Hdel.
  - rewrite Hdel. cbn [snd].
    destruct st1 as [d1 w1 s1 r1 ci1 ob1 so1 wa1]. cbn [set_fs fs] in *. rewrite Hfs.
    cbn [Disk.tree Disk.cwd]. rewrite (set_entry_undo cdir n _ _ a m Ef Hm).
    by destruct (fs st).
  - by destruct st1.
  - rewrite <- Hcr. by destruct st1.
Qed.


Lemma example_unprotected : unprotected example_state.
Proof. intros [|l] o' H; [by injection H as <-|by destruct l]. Qed.


(** * Writing and reading a file *)

(** ** Line ends *)

Lemma translate_newlines_posix s : translate_newlines (String LF EmptyString) s = s.
Proof.
  induction s as [|c r IH]; [done|]. cbn [translate_newlines]. rewrite IH.
  case_bool_decide; [by subst|done].
Qed.

Lemma translate_newlines_app l a b :
  translate_newlines l (a +:+ b) = translate_newlines l a +:+ translate_newlines l b.
Proof.
  induction a as [|x a IH]; [done|].
  change (String x a +:+ b) with (String x (a +:+ b)).
  cbn [translate_newlines]. rewrite IH.
  case_bool_decide; [by rewrite append_assoc|done].
Qed.

Lemma universal_newlines_plain s :
  CR ∉ list_ascii_of_string s → universal_newlines s = s.
Proof.
  induction s as [|c r IH]; [done|]. cbn [list_ascii_of_string universal_newlines].
  intros H. apply not_elem_of_cons in H as [Hc Hr].
  rewrite bool_decide_eq_false_2 by done. by rewrite IH.
Qed.

Lemma universal_newlines_windows s :
  CR ∉ list_ascii_of_string s →
  universal_newlines (translate_newlines (String CR (String LF EmptyString)) s) = s.
Proof.
  induction s as [|c r IH]; [done|]. cbn [list_ascii_of_string translate_newlines].
  intros H. apply not_elem_of_cons in H as [Hc Hr].
  case_bool_decide as Hlf.
  - subst c.
    change (universal_newlines
              (String CR (String LF (translate_newlines (String CR (String LF "")) r)))
            = String LF r).
    cbn [universal_newlines]. rewrite !bool_decide_eq_true_2 by done. by rewrite IH.
  - cbn [universal_newlines]. rewrite bool_decide_eq_false_2 by done. by rewrite IH.
Qed.

(** Written and read again, a text without ["\r"] is the same on
    either platform. *)
Lemma text_round_trip st s :
  CR ∉ list_ascii_of_string s →
  universal_newlines (translate_newlines (os_linesep st) s) = s.
Proof.
  intros H. unfold os_linesep. destruct (windows st).
  - by apply universal_newlines_windows.
  - rewrite translate_newlines_posix. by apply universal_newlines_plain.
Qed.

(** ** The disk under [open] *)

(** Paths resolve as before when an entry that is not a directory is
    set or removed. *)
Lemma resolve_set_entry_file d dir s v p c :
  (∀ a m, Disk.find (Disk.tree d) (dir ++ [s]) ≠ Some (Disk.Dir a m)) →
  Disk.resolve d p = Ok c →
  Disk.resolve (Disk.mkDisk (Disk.set_entry dir s v (Disk.tree d)) (Disk.cwd d)) p = Ok c.
Proof.
  intros Hn. unfold Disk.resolve. cbn [Disk.tree Disk.cwd].
  assert (∀ q, kind_at (Disk.tree d) q = Some true →
               kind_at (Disk.set_entry dir s v (Disk.tree d)) q = Some true) as Hk.
  { intros q Hq. rewrite kind_at_set_entry; [done|].
    intros [r ->]. unfold kind_at in Hq. rewrite find_app in Hq.
    destruct (Disk.find (Disk.tree d) (dir ++ [s])) as [[fa fd|a m]|]; [|by eapply Hn|done].
    by destruct r. }
  destruct (pathlib.is_absolute p); [by apply walk_mono|].
  destruct (Disk.cwd d); [by apply walk_mono|done].
Qed.

Lemma find_set_entry_dir dir s v t a m :
  Disk.find t dir = Some (Disk.Dir a m) →
  Disk.find (Disk.set_entry dir s v t) dir
  = Some (Disk.Dir a (partial_alter (λ _, v) s m)).
Proof.
  intros Hd. unfold Disk.set_entry.
  rewrite <- (app_nil_r dir) at 2. by rewrite find_alter_at_under, Hd.
Qed.

(** [open] and [write] on a path that leads into a directory. *)
Lemma write_file_entry d p m text dir s a mm :
  Disk.resolve d p = Ok (dir ++ [s]) → Disk.find (Disk.tree d) dir = Some (Disk.Dir a mm) →
  write_file d p m text =
  match mm !! s with
  | Some (Disk.Dir _ _) =>
      Raise (match m with ModeX => FileExistsError | _ => IsADirectoryError end)
  | Some (Disk.File fa old) =>
      match m with
      | ModeW => Ok (placed d dir s (Disk.File fa text))
      | ModeA => Ok (placed d dir s (Disk.File fa (old +:+ text)))
      | ModeX => Raise FileExistsError
      end
  | None => Ok (placed d dir s (Disk.File 0 text))
  end.
Proof.
  intros Hr Hd. unfold write_file, placed. rewrite Hr, find_snoc, Hd, split_last_snoc.
  destruct (mm !! s) as [[fa old|a' e]|]; [by destruct m|by destruct m|by rewrite Hd].
Qed.

Lemma read_file_entry d p dir s a mm :
  Disk.resolve d p = Ok (dir ++ [s]) → Disk.find (Disk.tree d) dir = Some (Disk.Dir a mm) →
  read_file d p =
  match mm !! s with
  | Some (Disk.Dir _ _) => Raise IsADirectoryError
  | Some (Disk.File _ text) => Ok text
  | None => Raise FileNotFoundError
  end.
Proof. intros Hr Hd. unfold read_file. by rewrite Hr, find_snoc, Hd. Qed.

(** A file put in the place of an entry that is not a directory is
    read back. *)
Lemma read_file_placed d p dir s a mm fa text :
  Disk.resolve d p = Ok (dir ++ [s]) → Disk.find (Disk.tree d) dir = Some (Disk.Dir a mm) →
  (∀ a' e, mm !! s ≠ Some (Disk.Dir a' e)) →
  read_file (placed d dir s (Disk.File fa text)) p = Ok text.
Proof.
  intros Hr Hd Hn. unfold placed.
  rewrite (read_file_entry _ p dir s a (partial_alter (λ _, Some (Disk.File fa text)) s mm)).
  - by rewrite lookup_partial_alter_eq.
  - apply resolve_set_entry_file; [|done]. intros a' e. rewrite find_snoc, Hd. apply Hn.
  - cbn [Disk.tree]. by apply find_set_entry_dir.
Qed.

Lemma write_eq self st o data mode :
  store st !! self = Some o →
  write self data mode st =
  match write_file (fs st) (_path o) mode (translate_newlines (os_linesep st) data) with
  | Ok d => (Ok tt, set_fs d st)
  | Raise e => (Raise e, st)
  end.
Proof. intros Ho. unfold write, bind, path, bind. by rewrite (the_eq _ _ _ Ho). Qed.

Lemma read_eq self st o :
  store st !! self = Some o →
  read self st =
  match read_file (fs st) (_path o) with
  | Ok text => (Ok (universal_newlines text), st)
  | Raise e => (Raise e, st)
  end.
Proof. intros Ho. unfold read, bind, path, bind. by rewrite (the_eq _ _ _ Ho). Qed.

(** ** Writing, then reading *)

(** [File.write(data)] followed by [File.read()]. For a handle of
    class [File] whose path leads into a directory and not to a
    directory, [write(data)] in the default mode ['w'] returns, and
    [read()] then returns what the line ends of [data] become on the
    way to the disk and back: [data] itself when it holds no ["\r"],
    on either platform. The file keeps its attribute word when it was
    there; the store and [created_instances] stay as they were. *)
Theorem write_then_read_returns_the_text self st o dir s a mm data :
  store st !! self = Some o → class_of o = File →
  Disk.resolve (fs st) (_path o) = Ok (dir ++ [s]) →
  Disk.find (Disk.tree (fs st)) dir = Some (Disk.Dir a mm) →
  (∀ a' e, mm !! s ≠ Some (Disk.Dir a' e)) →
  ∃ st',
    write self data ModeW st = (Ok tt, st') ∧
    read self st'
    = (Ok (universal_newlines (translate_newlines (os_linesep st) data)), st') ∧
    (CR ∉ list_ascii_of_string data → read self st' = (Ok data, st')) ∧
    fs st' = placed (fs st) dir s
               (Disk.File (match mm !! s with Some n => Disk.attrs_of n | None => 0%Z end)
                          (translate_newlines (os_linesep st) data)) ∧
    store st' = store st ∧ created_instances st' = created_instances st.
Proof.
  intros Ho _ Hr Hd Hn.
  set (text := translate_newlines (os_linesep st) data).
  set (fa := match mm !! s with Some n => Disk.attrs_of n | None => 0%Z end).
  assert (write_file (fs st) (_path o) ModeW text
          = Ok (placed (fs st) dir s (Disk.File fa text))) as Hw.
  { rewrite (write_file_entry _ _ _ _ dir s a mm Hr Hd). unfold fa.
    destruct (mm !! s) as [[fa' old|a' e]|] eqn:E; [done| |done]. by destruct (Hn a' e). }
  exists (set_fs (placed (fs st) dir s (Disk.File fa text)) st).
  assert (read self (set_fs (placed (fs st) dir s (Disk.File fa text)) st)
          = (Ok (universal_newlines text),
             set_fs (placed (fs st) dir s (Disk.File fa text)) st)) as Hread.
  { rewrite (read_eq self _ o) by done. cbn [fs set_fs].
    by rewrite (read_file_placed _ _ dir s a mm fa text Hr Hd Hn). }
  split_and!; try done.
  - rewrite (write_eq _ _ _ _ _ Ho). fold text. by rewrite Hw.
  - intros Hcr. rewrite Hread. unfold text. by rewrite text_round_trip.
Qed.

Lemma write_then_read_returns_the_text_witness :
  ∃ st', write 1 "hello" ModeW example_with_a = (Ok tt, st') ∧
         read 1 st' = (Ok "hello", st') ∧
         created_instances st' = created_instances example_with_a.
Proof.
  pose (o := mkObject File (mkPath "" ["a"]) "a" true false None false false 1 "" false ∅).
  pose (m := (<["a" := Disk.File 32 "A"]>
               (<[".a" := Disk.File 0 "dot-A"]>
                  (<["d" := Disk.Dir 0 {[ "x.txt" := Disk.File 0 "x" ]}]> ∅)))
             : gmap string Disk.node).
  destruct (write_then_read_returns_the_text 1 example_with_a o ["home"; "u"] "a" 0 m
              "hello" eq_refl eq_refl
              ltac:(vm_compute; reflexivity) ltac:(vm_compute; reflexivity)
              ltac:(intros a' e; vm_compute; discriminate))
    as (st' & H1 & _ & H2 & _ & _ & H3).
  exists st'. split; [exact H1|]. split; [|exact H3].
  apply H2. vm_compute. intros H.
  by repeat (apply elem_of_cons in H as [H|H]; [discriminate|]); apply elem_of_nil in H.
Defined.


(** ** Appending *)

Lemma write_file_append d p ta tb :
  match write_file d p ModeW ta with
  | Ok d1 => write_file d1 p ModeA tb = write_file d p ModeW (ta +:+ tb)
  | Raise e => write_file d p ModeW (ta +:+ tb) = Raise e
  end.
Proof.
  destruct (Disk.resolve d p) as [c|e] eqn:Er; [|by unfold write_file; rewrite Er].
  destruct (Disk.split_last c) as [[dir s]|] eqn:Es.
  - apply split_last_Some in Es as ->.
    destruct (Disk.find (Disk.tree d) dir) as [[fa fd|a mm]|] eqn:Ed.
    + unfold write_file. by rewrite Er, find_snoc, Ed, split_last_snoc, Ed.
    + rewrite !(write_file_entry d p _ _ dir s a mm Er Ed).
      assert (∀ node, (∀ a' e, mm !! s ≠ Some (Disk.Dir a' e)) →
                write_file (placed d dir s node) p ModeA tb
                = match node with
                  | Disk.File fa old => Ok (placed d dir s (Disk.File fa (old +:+ tb)))
                  | Disk.Dir _ _ => Raise IsADirectoryError
                  end) as Hnext.
      { intros node Hn.
        rewrite (write_file_entry _ p _ _ dir s a (partial_alter (λ _, Some node) s mm)).
        - rewrite lookup_partial_alter_eq. destruct node; [|done].
          unfold placed. cbn [Disk.tree Disk.cwd]. by rewrite set_entry_twice.
        - apply resolve_set_entry_file; [|done]. intros a' e. rewrite find_snoc, Ed. apply Hn.
        - cbn [placed Disk.tree]. by apply find_set_entry_dir. }
      destruct (mm !! s) as [[fa old|a' e]|] eqn:E; [| done |]; by rewrite Hnext.
    + unfold write_file. by rewrite Er, find_snoc, Ed, split_last_snoc, Ed.
  - unfold write_file. rewrite Er, Es. by destruct (Disk.find _ c) as [[]|].
Qed.

(** Whether [open] returns does not depend on the text. *)
Lemma write_file_returns d p m t1 t2 d1 :
  write_file d p m t1 = Ok d1 → ∃ d2, write_file d p m t2 = Ok d2.
Proof.
  unfold write_file. destruct (Disk.resolve d p) as [c|]; [|done].
  destruct (Disk.find (Disk.tree d) c) as [[fa old|a e]|], (Disk.split_last c) as [[dir s]|],
    m; try done; eauto.
  all: destruct (Disk.find (Disk.tree d) dir) as [[]|]; try done; eauto.
Qed.

(** [write(a)] followed by [write(b, 'a')] is [write(a + b)]: the same
    result and the same state, whatever the handle and the disk. When
    the first call raises, the second is not reached, and the one call
    raises the same. *)
Theorem write_then_append_is_one_write self st a b :
  (write self a ModeW >> write self b ModeA) st = write self (a +:+ b) ModeW st.
Proof.
  destruct (store st !! self) as [o|] eqn:Ho.
  - unfold bind. rewrite !(write_eq _ _ o _ _ Ho), translate_newlines_app.
    pose proof (write_file_append (fs st) (_path o)
                  (translate_newlines (os_linesep st) a)
                  (translate_newlines (os_linesep st) b)) as H.
    destruct (write_file (fs st) (_path o) ModeW (translate_newlines (os_linesep st) a))
      as [d1|e] eqn:E1.
    + rewrite (write_eq self (set_fs d1 st) o) by done. cbn [fs set_fs].
      change (os_linesep (set_fs d1 st)) with (os_linesep st). rewrite H.
      destruct (write_file_returns _ _ _ _
                  (translate_newlines (os_linesep st) a
                   +:+ translate_newlines (os_linesep st) b) _ E1) as [d2 ->].
      by destruct st.
    + by rewrite H.
  - unfold bind, write, bind, path, bind, the. by rewrite Ho.
Qed.

(** ** The mode ['x'] *)

(** ['x'] refuses a path that exists and is ['w'] on one that does
    not. *)
Lemma write_exclusive_eq self st o data :
  store st !! self = Some o →
  write self data ModeX st =
  if on_disk (fs st) (_path o) then (Raise FileExistsError, st)
  else write self data ModeW st.
Proof.
  intros Ho. rewrite !(write_eq _ _ _ _ _ Ho). unfold on_disk, Disk.stat, write_file.
  destruct (Disk.resolve (fs st) (_path o)) as [c|]; [|done].
  by destruct (Disk.find (Disk.tree (fs st)) c) as [[fa old|a e]|].
Qed.

(** ** Writing after [rm] *)

(** [rm()] on a handle of a file, then [read()] and [write(data)]:
    [read()] raises [FileNotFoundError], and [write(data)] makes the
    file again, with the text and a fresh attribute word, in the place
    it had; [read()] then returns the text. The handle is not
    constructed again, and [created_instances] does not get the
    path. *)
Theorem write_after_rm_makes_the_file_again self st o dir s fa old data :
  store st !! self = Some o → class_of o = File → _protected o = false →
  canonical_cwd (fs st) → ".." ∉ names (_path o) →
  Disk.stat (fs st) (_path o) = Ok (dir ++ [s], Disk.File fa old) →
  ∃ st1 st2,
    rm self st = (Ok tt, st1) ∧
    read self st1 = (Raise FileNotFoundError, st1) ∧
    write self data ModeW st1 = (Ok tt, st2) ∧
    fs st2 = placed (fs st) dir s
               (Disk.File 0 (translate_newlines (os_linesep st) data)) ∧
    read self st2
    = (Ok (universal_newlines (translate_newlines (os_linesep st) data)), st2) ∧
    store st2 = store st ∧ created_instances st2 = created_instances st.
Proof.
  intros Ho _ Hprot Hcwd Hplain Hstat.
  set (text := translate_newlines (os_linesep st) data).
  pose proof Hstat as Hstat0. unfold Disk.stat in Hstat0.
  destruct (Disk.resolve (fs st) (_path o)) as [c'|] eqn:Er; [|done].
  destruct (Disk.find (Disk.tree (fs st)) c') as [n'|] eqn:Ef; [|done].
  injection Hstat0 as -> ->.
  pose proof Ef as Ef0. rewrite find_snoc in Ef0.
  destruct (Disk.find (Disk.tree (fs st)) dir) as [[|a mm]|] eqn:Ed; try done.
  set (d1 := Disk.mkDisk (Disk.set_entry dir s None (Disk.tree (fs st))) (Disk.cwd (fs st))).
  assert (delete_on_disk (fs st) (_path o) = (Ok tt, d1)) as Hdel.
  { apply (delete_exact _ _ dir s (Disk.File fa old)); try done.
    intros x Hx. by eapply cwd_not_below_file. }
  assert (∀ a' e, Disk.find (Disk.tree (fs st)) (dir ++ [s]) ≠ Some (Disk.Dir a' e)) as Hn
    by (intros a' e; by rewrite Ef).
  assert (Disk.resolve d1 (_path o) = Ok (dir ++ [s])) as Hr1
    by by apply resolve_set_entry_file.
  assert (Disk.find (Disk.tree d1) dir
          = Some (Disk.Dir a (partial_alter (λ _, None) s mm))) as Hd1
    by by apply find_set_entry_dir.
  assert (placed d1 dir s (Disk.File 0 text) = placed (fs st) dir s (Disk.File 0 text)) as Hp.
  { unfold placed, d1. cbn [Disk.tree Disk.cwd]. by rewrite set_entry_twice. }
  exists (set_fs d1 st), (set_fs (placed (fs st) dir s (Disk.File 0 text)) st).
  split_and!; try done.
  - by rewrite (rm_eq _ _ _ Ho), Hprot, Hdel.
  - rewrite (read_eq self _ o) by done. cbn [fs set_fs].
    rewrite (read_file_entry _ _ dir s _ _ Hr1 Hd1). by rewrite lookup_partial_alter_eq.
  - rewrite (write_eq self _ o) by done. cbn [fs set_fs].
    change (os_linesep (set_fs d1 st)) with (os_linesep st). fold text.
    rewrite (write_file_entry _ _ _ _ dir s _ _ Hr1 Hd1), lookup_partial_alter_eq, Hp.
    by destruct st.
  - rewrite (read_eq self _ o) by done. cbn [fs set_fs].
    rewrite (read_file_placed _ _ dir s a mm 0 text Er Ed); [done|].
    intros a' e. by rewrite Ef0.
Qed.

Lemma write_after_rm_makes_the_file_again_witness :
  ∃ st1 st2,
    rm 1 example_with_a = (Ok tt, st1) ∧
    read 1 st1 = (Raise FileNotFoundError, st1) ∧
    write 1 "new" ModeW st1 = (Ok tt, st2) ∧
    read 1 st2 = (Ok "new", st2) ∧
    created_instances st2 = [].
Proof.
  destruct (write_after_rm_makes_the_file_again 1 example_with_a
              (mkObject File (mkPath "" ["a"]) "a" true false None false false 1 "" false ∅)
              ["home"; "u"] "a" 32 "A" "new" eq_refl eq_refl eq_refl
              example_canonical_cwd
              ltac:(intros H; apply list_elem_of_singleton in H; discriminate)
              ltac:(vm_compute; reflexivity))
    as (st1 & st2 & H1 & H2 & H3 & _ & H4 & _ & H5).
  exists st1, st2. split_and!; [exact H1|exact H2|exact H3|exact H4|exact H5].
Defined.

(** * What a constructor returns *)

(** [init_detect] returns only when its checks pass. *)
Lemma init_detect_returns self given par st o st1 :
  store st !! self = Some o →
  init_detect self given par st = (Ok tt, st1) →
  ∃ p, parse_path par given = Ok p ∧ parent_ok (fs st) par = true ∧
       validates (class_of o) (fs st) p = true ∧ st1 = detected self p o st.
Proof.
  intros Ho H.
  assert (self < length (store st)) as Hlt by by eapply lookup_lt_Some.
  destruct (parent_ok (fs st) par) eqn:Hpar.
  2:{ exfalso.
      assert (runs (init_detect self given par) st (λ r _, ∃ e, r = Raise e)) as Hr.
      { unfold init_detect. step.
        destruct par as [x|]; [|done]. unfold parent_ok in Hpar.
        destruct (truthy (Some x)); [|done]. simpl in Hpar.
        steps'. unfold dir_on_disk in Hpar. rewrite Hpar. step. eauto. }
      unfold runs in Hr. rewrite H in Hr. by destruct Hr. }
  destruct (parse_path par given) as [p|e] eqn:Hp.
  2:{ exfalso.
      assert (runs (init_detect self given par) st (λ r _, ∃ e, r = Raise e)) as Hr.
      { unfold init_detect. step.
        apply (runs_of_eq _ _ (Ok tt) st).
        { destruct par as [x|]; [|done]. unfold parent_ok in Hpar.
          destruct (truthy (Some x)); [|done]. simpl in Hpar.
          apply runs_eq. steps'. unfold dir_on_disk in Hpar. rewrite Hpar. by step. }
        rewrite Hp. steps'. eauto. }
      unfold runs in Hr. rewrite H in Hr. by destruct Hr. }
  destruct (validates (class_of o) (fs st) p) eqn:Hv.
  2:{ destruct (init_detect_refuses self given par st o p Ho Hp Hpar Hv)
        as (msg & st0 & H0 & _). by rewrite H in H0. }
  exists p. rewrite (init_detect_ok _ _ _ _ _ _ Ho Hp Hpar Hv) in H. by injection H as <-.
Qed.

(** [init_finish] returns only when the path of the handle is on the
    disk: [os.path.samefile] looks it up. *)
Lemma init_finish_returns self st st' :
  init_finish self st = (Ok tt, st') →
  ∃ o b, store st !! self = Some o ∧ on_disk (fs st) (_path o) = true ∧
         st' = finished self b o st.
Proof.
  intros H.
  destruct (store st !! self) as [o|] eqn:Ho.
  2:{ unfold init_finish, path, bind, the in H. by rewrite Ho in H. }
  destruct (root st) as [r|] eqn:Hr.
  2:{ unfold init_finish, path, bind, the, gets, ret, raise in H. rewrite Ho in H.
      cbv beta iota in H. by rewrite Hr in H. }
  destruct (store st !! r) as [ro|] eqn:Hro.
  2:{ unfold init_finish, path, bind, the, gets, ret, raise in H. rewrite Ho in H.
      cbv beta iota in H. rewrite Hr in H. cbv beta iota in H. by rewrite Hro in H. }
  rewrite (init_finish_eq _ _ _ _ _ Ho Hr Hro) in H.
  destruct (Disk.samefile (fs st) (_path o) (_path ro)) as [b|] eqn:Es; [|done].
  injection H as <-. exists o, b. split_and!; try done.
  unfold Disk.samefile in Es. unfold on_disk.
  by destruct (Disk.stat (fs st) (_path o)).
Qed.

(** The kind on the disk after the actions of the table. *)
Lemma perform_all_kind c p w mode acts d ci d' ci' :
  validates c d p = true → c ≠ SysObj →
  table mode (on_disk d p) = Do acts →
  perform_all c p w acts (d, ci) = (Ok tt, (d', ci')) →
  on_disk d' p = true →
  dir_on_disk d' p = bool_decide (c = Folder).
Proof.
  intros Hv Hc Ht Hp Hon.
  assert (acts = [] ∨ acts = [Create] ∨ acts = [Remove; Create]) as [-> | [-> | ->]].
  { destruct mode, (on_disk d p); simpl in Ht; simplify_eq; auto. }
  - simpl in Hp. injection Hp as <- <-. unfold validates in Hv. rewrite Hon in Hv.
    destruct c; [done| | |]; simpl in Hv.
    + by rewrite Hv.
    + apply negb_true_iff in Hv. by rewrite Hv.
    + apply andb_true_iff in Hv as [Hv _]. apply negb_true_iff in Hv. by rewrite Hv.
  - simpl in Hp. destruct (create_on_disk c d p) as [[[]|] d1] eqn:Ec; [|done].
    injection Hp as <- _. by apply create_on_disk_creates in Ec as [_ Hk].
  - simpl in Hp. destruct (delete_on_disk d p) as [[[]|] d1]; [|done].
    simpl in Hp. destruct (create_on_disk c d1 p) as [[[]|] d2] eqn:Ec; [|done].
    injection Hp as <- _. by apply create_on_disk_creates in Ec as [_ Hk].
Qed.

(** What holds when a constructor returns. *)
Lemma new_returns c given mode par st l st' :
  new c given mode par st = (Ok l, st') →
  l = length (store st) ∧
  ∃ o, store st' !! l = Some o ∧ class_of o = c ∧
       parse_path par given = Ok (_path o) ∧
       _name o = pathlib.name (_path o) ∧
       on_disk (fs st') (_path o) = true ∧
       (c ≠ SysObj → dir_on_disk (fs st') (_path o) = bool_decide (c = Folder)).
Proof.
  intros H. set (self := length (store st)).
  set (sta := set_store (store st ++ [blank c]) st).
  assert (store sta !! self = Some (blank c)) as Ho.
  { unfold sta, self. cbn [store set_store]. by rewrite lookup_app_r, Nat.sub_diag. }
  unfold new, bind, allocate, __init__, bind, ret in H. fold self sta in H.
  destruct (init_detect self given par sta) as [[[]|e1] st1] eqn:E1; [|done].
  destruct (reconcile self mode st1) as [[[]|e2] st2] eqn:E2; [|done].
  destruct (init_finish self st2) as [[[]|e3] st3] eqn:E3; [|done].
  injection H as <- <-. split; [done|].
  destruct (init_detect_returns _ _ _ _ _ _ Ho E1) as (p & Hp & Hpar & Hv & ->).
  set (o1 := detect_object p (on_disk (fs sta) p) (dir_on_disk (fs sta) p) (blank c)).
  assert (store (detected self p (blank c) sta) !! self = Some o1) as Ho1.
  { unfold detected. cbn [store]. apply lookup_insert_same. by eapply lookup_lt_Some. }
  rewrite (reconcile_eq _ _ _ _ Ho1 eq_refl) in E2.
  change (_was_detected o1) with (on_disk (fs sta) p) in E2.
  destruct (table mode (on_disk (fs sta) p)) as [e|acts] eqn:Et; [done|].
  cbv zeta in E2.
  change (fs (detected self p (blank c) sta)) with (fs sta) in E2.
  change (created_instances (detected self p (blank c) sta)) with (created_instances sta)
    in E2.
  destruct (perform_all (class_of o1) (_path o1) (create_wrappers o1) acts
              (fs sta, created_instances sta)) as [r [d' ci']] eqn:Ep.
  cbn [fst snd] in E2. injection E2 as -> <-.
  destruct (init_finish_returns _ _ _ E3) as (o2 & b & Ho2 & Hon & ->).
  assert (o2 = o1) as -> by (apply (inj Some); by rewrite <- Ho2, <- Ho1).
  exists (configure_object (set_parent None (set_is_root b o1))). split_and!.
  - unfold finished. cbn [store]. apply lookup_insert_same. by eapply lookup_lt_Some.
  - unfold configure_object. by destruct c.
  - unfold configure_object. by destruct c.
  - unfold configure_object. by destruct c.
  - unfold configure_object. by destruct c.
  - intros Hc. unfold configure_object.
    assert (_path (match class_of (set_parent None (set_is_root b o1)) with
                   | Folder => set_directory ∅ (set_indexed false
                                 (set_parent None (set_is_root b o1)))
                   | _ => set_parent None (set_is_root b o1)
                   end) = p) as -> by by destruct c.
    by apply (perform_all_kind c p (create_wrappers o1) mode acts (fs sta)
                (created_instances sta) d' ci').
Qed.

(** A handle that a constructor returned is on the disk. Whatever the
    arguments and the state, when [cls(path, mode=mode, parent=parent)]
    returns, the handle is the new object of the store, of class
    [cls], on the path that [parse_path] gives, and the path exists on
    the disk left by the call: as a directory for a [Folder], as a file
    for a [File] or a [JSON]. *)
Theorem constructed_handle_is_on_disk c given mode par st l st' :
  new c given mode par st = (Ok l, st') →
  l = length (store st) ∧
  ∃ o, store st' !! l = Some o ∧ class_of o = c ∧
       parse_path par given = Ok (_path o) ∧
       on_disk (fs st') (_path o) = true ∧
       (c ≠ SysObj → dir_on_disk (fs st') (_path o) = bool_decide (c = Folder)).
Proof.
  intros H. destruct (new_returns _ _ _ _ _ _ _ H) as (Hl & o & Ho & Hc & Hp & _ & Hon & Hk).
  split; [done|]. by exists o.
Qed.

Lemma constructed_handle_is_on_disk_witness :
  ∃ o, store example_with_d !! 1 = Some o ∧ class_of o = Folder ∧
       _path o = mkPath "" ["d"] ∧
       dir_on_disk (fs example_with_d) (_path o) = true.
Proof.
  destruct (constructed_handle_is_on_disk Folder (PStr "d") FIND None example_state 1
              example_with_d ltac:(vm_compute; reflexivity))
    as (_ & o & Ho & Hc & Hp & _ & Hk).
  exists o. split_and!; [exact Ho|exact Hc| |exact (Hk ltac:(discriminate))].
  assert (Ok (_path o) = Ok (mkPath "" ["d"])) as E
    by (rewrite <- Hp; vm_compute; reflexivity).
  by injection E.
Defined.



(** * [assign_type] *)

(** [assign_type] on a path that is not on the disk, in a directory
    that is: the path is taken for a file, and the [UPDATE] mode makes
    it. *)
Lemma assign_type_missing st q dir n a m r ro :
  Disk.resolve (fs st) q = Ok (dir ++ [n]) →
  Disk.find (Disk.tree (fs st)) dir = Some (Disk.Dir a m) → m !! n = None →
  root st = Some r → store st !! r = Some ro → on_disk (fs st) (_path ro) = true →
  ∃ st1 oc,
    assign_type q st = (Ok (length (store st)), st1) ∧
    fs st1 = placed (fs st) dir n (Disk.File 0 "") ∧
    created_instances st1 = created_instances st ++ [q] ∧
    store st1 = store st ++ [oc] ∧ class_of oc = File ∧ _path oc = q.
Proof.
  intros Hrq Ef Hm Hr Hro Hon.
  assert (r < length (store st)) as Hlt by by eapply lookup_lt_Some.
  set (d' := placed (fs st) dir n (Disk.File 0 "")).
  assert (Disk.find (Disk.tree (fs st)) (dir ++ [n]) = None) as Hfq
    by by rewrite find_snoc, Ef.
  assert (on_disk (fs st) q = false) as Hq.
  { unfold on_disk, Disk.stat. by rewrite Hrq, Hfq. }
  assert (dir_on_disk (fs st) q = false) as Hdq.
  { unfold dir_on_disk, Disk.stat. by rewrite Hrq, Hfq. }
  assert (assign_type q st = new File (PPath q) UPDATE None st) as ->.
  { unfold assign_type, bind at 1, path_is_dir, gets. unfold dir_on_disk in Hdq.
    by rewrite Hdq. }
  assert (create_on_disk File (fs st) q = (Ok tt, d')) as Hcreate.
  { unfold create_on_disk, Disk.create_truncate.
    by rewrite Hrq, Hfq, split_last_snoc, Ef. }
  assert (Disk.stat d' q = Ok (dir ++ [n], Disk.File 0 "")) as Hsq.
  { unfold Disk.stat. unfold d' at 1, placed.
    rewrite (resolve_set_entry_new (fs st) dir n _ q (dir ++ [n]) Hfq Hrq).
    unfold d', placed. cbn [Disk.tree].
    by rewrite (find_set_entry dir n (Some (Disk.File 0 "")) _ a m [] Ef). }
  assert (on_disk d' (_path ro) = true) as Hon' by by apply on_disk_set_entry_new.
  assert (Disk.samefile d' q (_path ro) = Ok false) as Hsame.
  { unfold Disk.samefile. rewrite Hsq. unfold on_disk in Hon, Hon'.
    destruct (Disk.stat d' (_path ro)) as [[cr nr]|] eqn:Esr; [|done].
    f_equal. apply bool_decide_eq_false_2. intros Heq.
    unfold Disk.stat in Hon.
    destruct (Disk.resolve (fs st) (_path ro)) as [cr0|] eqn:Err; [|done].
    destruct (Disk.find (Disk.tree (fs st)) cr0) as [nr0|] eqn:Efr; [|done].
    assert (Disk.resolve d' (_path ro) = Ok cr0) as Hrr
      by exact (resolve_set_entry_new (fs st) dir n _ (_path ro) cr0 Hfq Err).
    unfold Disk.stat in Esr. rewrite Hrr in Esr.
    destruct (Disk.find (Disk.tree d') cr0); [|done].
    assert (cr0 = dir ++ [n]) as -> by congruence. congruence. }
  rewrite (new_eq File (PPath q) UPDATE None st q (_path ro)); try done.
  2:{ unfold validates. by rewrite Hq. }
  2:{ unfold root_path_for. rewrite Hr. rewrite bool_decide_eq_false_2 by lia.
      exact (f_equal (fmap _path) Hro). }
  unfold init_outcome. cbn [fs set_store store created_instances]. rewrite Hq.
  cbn [table perform_all perform fst snd class_of blank create_wrappers]. rewrite Hcreate.
  cbn [fst snd replicate]. rewrite Hsame. cbn [fst snd].
  eexists _, _. split; [reflexivity|].
  unfold finished, detected.
  cbn [fs root store created_instances set_fs set_store set_created_instances].
  rewrite insert_insert_same, insert_at_end.
  split_and!; done.
Qed.

(** [assign_type(path)] looks at the disk and at nothing else. For a
    path on the disk it returns a new [Folder] handle when it is a
    directory and a new [File] handle when it is not, also for a name
    that ends in [.json], and leaves the disk as it is. A path that is
    not on the disk, in a directory that is, is taken for a file and
    made: the disk gets an empty file at the path, and
    [created_instances] the path. *)
Theorem assign_type_follows_the_disk st q r ro :
  root st = Some r → store st !! r = Some ro → on_disk (fs st) (_path ro) = true →
  (∀ cq node, Disk.stat (fs st) q = Ok (cq, node) →
     ∃ st1 oc,
       assign_type q st = (Ok (length (store st)), st1) ∧
       fs st1 = fs st ∧ store st1 = store st ++ [oc] ∧
       class_of oc = (if Disk.is_dir_node node then Folder else File) ∧ _path oc = q) ∧
  (∀ dir n a m,
     Disk.resolve (fs st) q = Ok (dir ++ [n]) →
     Disk.find (Disk.tree (fs st)) dir = Some (Disk.Dir a m) → m !! n = None →
     ∃ st1 oc,
       assign_type q st = (Ok (length (store st)), st1) ∧
       fs st1 = placed (fs st) dir n (Disk.File 0 "") ∧
       created_instances st1 = created_instances st ++ [q] ∧
       store st1 = store st ++ [oc] ∧ class_of oc = File ∧ _path oc = q).
Proof.
  intros Hr Hro Hon. split.
  - intros cq node Hstat.
    destruct (assign_type_found st q cq node r ro Hstat Hr Hro Hon)
      as (st1 & oc & H & Hfs & _ & Hs & Hc & Hp & _).
    by exists st1, oc.
  - intros dir n a m Hrq Ef Hm. by apply (assign_type_missing st q dir n a m r ro).
Qed.

Lemma assign_type_follows_the_disk_witness :
  (∃ st1 oc, assign_type (mkPath "" ["d"]) example_state = (Ok 1, st1) ∧
             fs st1 = fs example_state ∧ class_of oc = Folder ∧
             store st1 = store example_state ++ [oc]) ∧
  (∃ st1, assign_type (mkPath "" ["new.json"]) example_state = (Ok 1, st1) ∧
          created_instances st1 = [mkPath "" ["new.json"]] ∧
          (class_of <$> store st1 !! 1) = Some File).
Proof.
  pose (o := mkObject Folder (mkPath "" []) "" true true None false true 1 "" false ∅).
  pose (m := (<["a" := Disk.File 32 "A"]>
               (<[".a" := Disk.File 0 "dot-A"]>
                  (<["d" := Disk.Dir 0 {[ "x.txt" := Disk.File 0 "x" ]}]> ∅)))
             : gmap string Disk.node).
  pose (mx := {[ "x.txt" := Disk.File 0 "x" ]} : gmap string Disk.node).
  split.
  - destruct (proj1 (assign_type_follows_the_disk example_state (mkPath "" ["d"]) 0 o
                       eq_refl eq_refl ltac:(vm_compute; reflexivity))
                ["home"; "u"; "d"] (Disk.Dir 0 mx)
                ltac:(vm_compute; reflexivity))
      as (st1 & oc & H1 & H2 & H3 & H4 & _).
    exists st1, oc. split_and!; [exact H1|exact H2|exact H4|exact H3].
  - destruct (proj2 (assign_type_follows_the_disk example_state (mkPath "" ["new.json"]) 0 o
                       eq_refl eq_refl ltac:(vm_compute; reflexivity))
                ["home"; "u"] "new.json" 0%Z m
                ltac:(vm_compute; reflexivity) ltac:(vm_compute; reflexivity)
                ltac:(vm_compute; reflexivity))
      as (st1 & oc & H1 & _ & H2 & H3 & H4 & _).
    exists st1. split_and!; [exact H1|exact H2|].
    rewrite H3. change (length (store example_state)) with 1 in *.
    rewrite (list_lookup_middle (store example_state) [] oc 1 eq_refl). by rewrite <- H4.
Defined.

(** * The index after [mk] *)

Lemma stat_set_entry_dir d p dir s v a m :
  Disk.stat d p = Ok (dir, Disk.Dir a m) → m !! s = None →
  Disk.stat (Disk.mkDisk (Disk.set_entry dir s v (Disk.tree d)) (Disk.cwd d)) p
  = Ok (dir, Disk.Dir a (partial_alter (λ _, v) s m)).
Proof.
  intros Hstat Hm. unfold Disk.stat in *.
  destruct (Disk.resolve d p) as [c|] eqn:Er; [|done].
  destruct (Disk.find (Disk.tree d) c) as [node|] eqn:Ef; [|done].
  injection Hstat as -> ->.
  rewrite (resolve_set_entry_new d dir s v p dir); [|by rewrite find_snoc, Ef|done].
  cbn [Disk.tree]. unfold Disk.set_entry.
  rewrite <- (app_nil_r dir) at 2. by rewrite find_alter_at_under, Ef.
Qed.

(** [mk] does not touch the index of the folder. In an indexed folder
    whose directory and index do not hold the name, [mk(name)] returns
    a handle on the new file, and the folder still answers [None] for
    the name, printing that it does not exist, although the file is on
    the disk. The index holds the name once a creation that the
    observer of the folder reports for a direct child has run
    [_update_dir]. *)
Theorem mk_leaves_the_index_stale self st o n mode cdir a m r ro :
  store st !! self = Some o → class_of o = Folder → pathlib.wf (_path o) →
  Disk.stat (fs st) (_path o) = Ok (cdir, Disk.Dir a m) →
  (∀ n', is_Some (m !! n') → pathlib.valid_name n' ∧ n' ≠ "..") →
  pathlib.valid_name n → n ≠ ".." → m !! n = None → mode ≠ FIND →
  _indexed o = true → _directory o !! n = None →
  root st = Some r → store st !! r = Some ro → on_disk (fs st) (_path ro) = true →
  let q := mkPath (anchor (_path o)) (names (_path o) ++ [n]) in
  ∃ st1,
    mk self (PStr n) mode st = (Ok (length (store st)), st1) ∧
    on_disk (fs st1) q = true ∧
    __getitem__ self n st1
    = (Ok None,
       set_stdout (stdout st1 ++ ["'" +:+ n +:+ "' does not exist in '" +:+
                                  pathlib.to_str (_path o) +:+ "'"]) st1) ∧
    ∀ obs src,
      obs_handler obs = FolderEventHandler self →
      (direct self src st1).1 = Ok true →
      ∃ st2 l,
        dispatch obs Created src st1 = (Ok tt, st2) ∧ fs st2 = fs st1 ∧
        __getitem__ self n st2 = (Ok (Some l), st2) ∧
        wraps st2 (_path o) n false l.
Proof.
  intros Ho Hc Hwf Hstat Hnames Hn Hdd Hm Hmode Hi Hd Hr Hro Hon q.
  assert (self < length (store st)) as Hlts by by eapply lookup_lt_Some.
  assert (r < length (store st)) as Hltr by by eapply lookup_lt_Some.
  destruct (new_child_created File (_path o) n mode st cdir a m r ro)
    as (st1 & oc & H & Hfs & Hcr & Hs & Hcl & Hp & _ & _ & _ & Hsq); try done; [by right|].
  assert (store st1 !! self = Some o) as Ho1 by (rewrite Hs; by rewrite lookup_app_l).
  assert (store st1 !! r = Some ro) as Hro1 by (rewrite Hs; by rewrite lookup_app_l).
  assert (root st1 = Some r) as Hr1.
  { pose proof (@preserves_new keeps_root _ keeps_root_allocate File (PStr n) mode
                  (Some (PPath (_path o))) st) as Hk.
    rewrite H in Hk. by apply Hk. }
  exists st1. split_and!.
  - unfold mk, bind at 1. rewrite (the_folder_eq self st o Ho Hc).
    unfold bind at 1, path, bind at 1. rewrite (the_eq self st o Ho). exact H.
  - unfold on_disk. rewrite Hfs. fold q in Hsq. by rewrite Hsq.
  - destruct (search_dir_outcome self n st1 (_directory o) st1
                (directory_cached self st1 o Ho1 Hc Hi)) as (o1 & Ho1' & Hsd).
    assert (o1 = o) as -> by congruence.
    unfold __getitem__. by rewrite Hsd, Hd.
  - intros obs src Hobs Hdir.
    set (m' := partial_alter (λ _, Some (Disk.File 0 "")) n m).
    assert (Disk.stat (fs st1) (_path o) = Ok (cdir, Disk.Dir a m')) as Hstat1.
    { rewrite Hfs. by apply stat_set_entry_dir. }
    assert (∀ n', is_Some (m' !! n') → pathlib.valid_name n' ∧ n' ≠ "..") as Hnames1.
    { intros n' Hn'. unfold m' in Hn'. destruct (decide (n' = n)) as [->|Hne]; [done|].
      rewrite lookup_partial_alter_ne in Hn' by done. by apply Hnames. }
    assert (on_disk (fs st1) (_path ro) = true) as Hon1.
    { rewrite Hfs. apply on_disk_set_entry_new; [|done].
      unfold Disk.stat in Hstat.
      destruct (Disk.resolve (fs st) (_path o)) as [c|]; [|done].
      destruct (Disk.find (Disk.tree (fs st)) c) as [node|] eqn:Ef; [|done].
      injection Hstat as -> ->. by rewrite find_snoc, Ef. }
    destruct (update_dir_lists self st1 o cdir a m' r ro Ho1 Hc Hwf Hstat1 Hnames1
                Hr1 Hro1 Hon1) as (d & st2 & Hu & Hfs2 & Ho2 & Hix).
    pose proof (Hix n) as Hixn. unfold m' in Hixn. rewrite lookup_partial_alter_eq in Hixn.
    destruct Hixn as (l & Hl & Hw). exists st2, l. split_and!; try done.
    + unfold dispatch. rewrite Hobs. unfold bind.
      pose proof (direct_reads self src st1) as Hst.
      destruct (direct self src st1) as [rd sd]. simpl in Hdir, Hst. subst rd sd.
      exact Hu.
    + assert (directory self st2 = (Ok d, st2)) as Hdir2.
      { rewrite (directory_cached self st2 _ Ho2); done. }
      destruct (search_dir_outcome self n st2 d st2 Hdir2) as (o2 & _ & Hsd).
      unfold __getitem__. by rewrite Hsd, Hl.
Qed.

Lemma mk_leaves_the_index_stale_witness :
  ∃ st1,
    mk 1 (PStr "new.txt") CREATE example_indexed = (Ok 3, st1) ∧
    on_disk (fs st1) (mkPath "" ["d"; "new.txt"]) = true ∧
    (__getitem__ 1 "new.txt" st1).1 = Ok None.
Proof.
  pose (o := mkObject Folder (mkPath "" ["d"]) "d" true true None false false 1 "" true
               example_index).
  pose (ro := mkObject Folder (mkPath "" []) "" true true None false true 1 "" false ∅).
  pose (m := {[ "x.txt" := Disk.File 0 "x" ]} : gmap string Disk.node).
  destruct (mk_leaves_the_index_stale 1 example_indexed o "new.txt" CREATE
              ["home"; "u"; "d"] 0 m 0 ro eq_refl eq_refl
              ltac:(split; [by left|repeat constructor; done])
              ltac:(vm_compute; reflexivity))
    as (st1 & H1 & H2 & H3 & _).
  - intros n' [node Hn']. unfold m in Hn'.
    apply lookup_singleton_Some in Hn' as [<- _]. split; [split_and!; done|done].
  - split_and!; done.
  - done.
  - vm_compute. reflexivity.
  - done.
  - reflexivity.
  - vm_compute. reflexivity.
  - reflexivity.
  - reflexivity.
  - vm_compute. reflexivity.
  - exists st1. split; [exact H1|]. split; [exact H2|]. by rewrite H3.
Defined.
